(** * uae-dap: breakpoint manager and disassembly manager

    A shallow embedding of [src/disassembly/disassemblyManager.ts], of the
    breakpoint manager and of the helpers of [src/utils/strings.ts],
    followed by the properties proved about them.

    Conventions of the embedding.
    - A JavaScript [number] is [NaN] or an integer ([Num z]); the sources
      only produce numbers through [parseInt], integer literals and
      integer arithmetic.  Integers are exact: the model is the code's
      behaviour on the integers below 2^53 in magnitude ([safe] below),
      and a statement that depends on the decimal text of a number says
      so.
    - A JavaScript string is a [string] of 8-bit code units, read as the
      code units 0..255 of the source's UTF-16 strings.
    - [undefined] is [None].
    - An [async] function is a tree of effects ([async] below): reads and
      writes of the manager's fields, synchronous calls to collaborators,
      and [await]ed calls whose answer is a value or a rejection. *)

From Stdlib Require Import ZArith String Ascii DecimalString HexadecimalString Lia.
From Stdlib Require Import DecimalPos HexadecimalPos.
From stdpp Require Import gmap strings list.

Open Scope Z_scope.

(** ** JavaScript values and built-ins used by the sources *)

Module Js.

(** A value of type [number]. *)
Inductive number : Type :=
| NaN
| Num (z : Z).

(** What a [throw] or a rejected promise carries: an instance of
    [Error] with its message, [undefined], [null], or any other value
    ([Thrown]: a value that is not an instance of [Error] and whose
    property [message] reads as [undefined], such as a string or a
    number). *)
Inductive exn : Type :=
| Error (message : string)
| Thrown
| Undefined
| Null.

Definition result (A : Type) : Type := (exn + A)%type.

#[global] Instance number_eq_dec : EqDecision number.
Proof. solve_decision. Defined.

Definition number_to_option (n : number) : option Z :=
  match n with NaN => None | Num z => Some z end.

Definition number_of_option (o : option Z) : number :=
  match o with None => NaN | Some z => Num z end.

#[global] Instance number_countable : Countable number.
Proof.
  apply (inj_countable' number_to_option number_of_option).
  intros []; reflexivity.
Defined.

#[global] Instance exn_eq_dec : EqDecision exn.
Proof. solve_decision. Defined.

(** ToBoolean on a number: [0] and [NaN] are falsy. *)
Definition truthy (n : number) : bool :=
  match n with NaN => false | Num z => negb (z =? 0) end.

(** [a + b], [a - b] on numbers. *)
Definition add (a b : number) : number :=
  match a, b with Num x, Num y => Num (x + y) | _, _ => NaN end.

Definition sub (a b : number) : number :=
  match a, b with Num x, Num y => Num (x - y) | _, _ => NaN end.

Definition mul (a b : number) : number :=
  match a, b with Num x, Num y => Num (x * y) | _, _ => NaN end.

(** [Math.floor(a / d)] for a positive integer literal [d]. *)
Definition floor_div (a : number) (d : Z) : number :=
  match a with Num x => Num (x / d) | NaN => NaN end.

(** [a >= b], [a <= b], [a < b], [a > b], [a === b]: false when an
    operand is [NaN]. *)
Definition geb (a b : number) : bool :=
  match a, b with Num x, Num y => y <=? x | _, _ => false end.

Definition leb (a b : number) : bool :=
  match a, b with Num x, Num y => x <=? y | _, _ => false end.

Definition ltb (a b : number) : bool :=
  match a, b with Num x, Num y => x <? y | _, _ => false end.

Definition gtb (a b : number) : bool :=
  match a, b with Num x, Num y => y <? x | _, _ => false end.

Definition strict_eq (a b : number) : bool :=
  match a, b with Num x, Num y => x =? y | _, _ => false end.

(** The numbers whose decimal text the model writes as the code does:
    [NaN] and the integers below 2^53 in magnitude
    ([Number.isSafeInteger]).  From 2^53 a number may be written with
    fewer digits than the integer has, and from 1e21 with an exponent. *)
Definition safe (n : number) : bool :=
  match n with NaN => true | Num z => Z.abs z <? 2 ^ 53 end.

(** [n.toString(10)] and [n.toString(16)].  In base 10 the text is the
    one of the code for the [safe] numbers. *)
Definition toString (n : number) : string :=
  match n with
  | NaN => "NaN"
  | Num z => DecimalString.NilZero.string_of_int (Z.to_int z)
  end.

Definition toString16 (n : number) : string :=
  match n with
  | NaN => "NaN"
  | Num z => HexadecimalString.NilZero.string_of_int (Z.to_hex_int z)
  end.

(** The one-character string holding a double quote. *)
Definition quote : string := String (ascii_of_nat 34) EmptyString.

(** Interpolation of an optional value in a template literal. *)
Definition tpl_number (o : option number) : string :=
  match o with Some n => toString n | None => "undefined" end.

Definition tpl_string (o : option string) : string :=
  match o with Some s => s | None => "undefined" end.

(** White space and line terminators among the code units 0..255. *)
Definition is_line_terminator (c : ascii) : bool :=
  let n := nat_of_ascii c in
  (Nat.eqb n 10 || Nat.eqb n 13)%bool.

Definition is_white_space (c : ascii) : bool :=
  let n := nat_of_ascii c in
  (Nat.eqb n 9 || Nat.eqb n 10 || Nat.eqb n 11 || Nat.eqb n 12
   || Nat.eqb n 13 || Nat.eqb n 32 || Nat.eqb n 160)%bool.

Fixpoint trimStart (s : string) : string :=
  match s with
  | String c s' => if is_white_space c then trimStart s' else s
  | EmptyString => EmptyString
  end.

Fixpoint trimEnd (s : string) : string :=
  match s with
  | String c s' =>
      let r := trimEnd s' in
      if (is_white_space c && Nat.eqb (String.length r) 0)%bool
      then EmptyString else String c r
  | EmptyString => EmptyString
  end.

Definition trim (s : string) : string := trimEnd (trimStart s).

Fixpoint substring_from (n : nat) (s : string) : string :=
  match n, s with
  | S n', String _ s' => substring_from n' s'
  | _, _ => s
  end.

Definition endsWith (s suffix : string) : bool :=
  let n := String.length s in
  let m := String.length suffix in
  (Nat.leb m n && String.eqb (substring_from (n - m) s) suffix)%bool.

(** [s.includes(sub)]. *)
Fixpoint includes (sub s : string) : bool :=
  String.prefix sub s
  || match s with
     | String _ s' => includes sub s'
     | EmptyString => false
     end.

(** [s.padStart(n, "0")]. *)
Fixpoint zeros (n : nat) : string :=
  match n with O => EmptyString | S n' => String "0" (zeros n') end.

Definition padStart0 (n : nat) (s : string) : string :=
  zeros (n - String.length s) +:+ s.

(** [s.replace(pat, rep)] for a string pattern and a replacement text
    with no [$]: only the first occurrence is replaced. *)
Fixpoint replace (pat rep s : string) : string :=
  if String.prefix pat s then rep +:+ substring_from (String.length pat) s
  else match s with
       | String c s' => String c (replace pat rep s')
       | EmptyString => EmptyString
       end.

(** [s.split(sep)] for a separator string. *)
Fixpoint split_from (sep : string) (skip : nat) (cur : string) (s : string)
  : list string :=
  match s with
  | EmptyString => [cur]
  | String c s' =>
      match skip with
      | S n => split_from sep n cur s'
      | O =>
          if String.prefix sep s
          then cur :: split_from sep (String.length sep - 1) "" s'
          else split_from sep 0 (cur +:+ String c "") s'
      end
  end.

Definition split (sep s : string) : list string :=
  match sep with
  | EmptyString => (fun c => String c "") <$> list_ascii_of_string s
  | _ => split_from sep 0 "" s
  end.

(** [s.replace(/\s\s+/g, " ")]: every run of two or more white space
    characters becomes one space. *)
Definition starts_with_space (s : string) : bool :=
  match s with String c _ => is_white_space c | EmptyString => false end.

Fixpoint collapse_spaces (in_run : bool) (s : string) : string :=
  match s with
  | EmptyString => EmptyString
  | String c s' =>
      if in_run then
        if is_white_space c then collapse_spaces true s'
        else String c (collapse_spaces false s')
      else if (is_white_space c && starts_with_space s')%bool
           then String " " (collapse_spaces true s')
           else String c (collapse_spaces false s')
  end.

(** *** [parseInt] *)

Definition digit_value (c : ascii) : option Z :=
  let n := Z.of_nat (nat_of_ascii c) in
  if (48 <=? n) && (n <=? 57) then Some (n - 48)
  else if (97 <=? n) && (n <=? 122) then Some (n - 87)
  else if (65 <=? n) && (n <=? 90) then Some (n - 55)
  else None.

Definition radix_digit (radix : Z) (c : ascii) : option Z :=
  match digit_value c with
  | Some d => if d <? radix then Some d else None
  | None => None
  end.

(** The value of the longest prefix of radix digits; [None] when that
    prefix is empty. *)
Fixpoint digits (radix : Z) (acc : option Z) (s : string) : option Z :=
  match s with
  | String c s' =>
      match radix_digit radix c with
      | Some d => digits radix (Some (default 0 acc * radix + d)) s'
      | None => acc
      end
  | EmptyString => acc
  end.

Definition strip_sign (s : string) : Z * string :=
  match s with
  | String "-" s' => (-1, s')
  | String "+" s' => (1, s')
  | _ => (1, s)
  end.

Definition strip_hex_prefix (s : string) : option string :=
  match s with
  | String "0" (String "x" s') => Some s'
  | String "0" (String "X" s') => Some s'
  | _ => None
  end.

(** [parseInt(s)] when [radix] is [None], [parseInt(s, r)] otherwise. *)
Definition parseInt (s : string) (radix : option Z) : number :=
  let '(sign, s1) := strip_sign (trimStart s) in
  let r := match radix with Some r => r | None => 0 end in
  if (negb (r =? 0) && ((r <? 2) || (36 <? r)))%bool then NaN
  else
    let strip := (r =? 0) || (r =? 16) in
    let r0 := if r =? 0 then 10 else r in
    let '(r1, s2) :=
      match (if strip then strip_hex_prefix s1 else None) with
      | Some s' => (16, s')
      | None => (r0, s1)
      end in
    match digits r1 None s2 with
    | Some v => Num (sign * v)
    | None => NaN
    end.

(** Decimal digits, for statements about [parseInt]. *)
Definition is_decimal_digit (c : ascii) : bool :=
  let n := Z.of_nat (nat_of_ascii c) in
  (48 <=? n) && (n <=? 57).

Definition starts_with_digit (s : string) : bool :=
  match s with String c _ => is_decimal_digit c | EmptyString => false end.

Fixpoint all_digits (s : string) : bool :=
  match s with
  | String c s' => is_decimal_digit c && all_digits s'
  | EmptyString => true
  end.

(** A decimal number: a non-empty sequence of decimal digits. *)
Definition is_decimal_number (s : string) : bool :=
  starts_with_digit s && all_digits s.

(** *** Regular expressions

    The fragment the sources use: literals, [.], negated one-character
    classes, greedy [+] over a class, greedy [?], named groups, and the
    anchors.  Matching is by backtracking in the order of the
    ECMAScript semantics, so the first match found fixes the groups. *)

Inductive charclass : Type :=
| Dot                    (* .      *)
| NotChar (c : ascii).   (* [^c]   *)

Inductive regex : Type :=
| Bos                              (* ^ *)
| Eos                              (* $ *)
| Lit (s : string)
| One (cls : charclass)
| Plus (cls : charclass)           (* cls+ *)
| Opt (r : regex)                  (* (r)? *)
| Group (name : string) (r : regex)  (* (?<name>r) *)
| Seq (r1 r2 : regex).

Definition in_class (cls : charclass) (c : ascii) : bool :=
  match cls with
  | Dot => negb (is_line_terminator c)
  | NotChar x => negb (Ascii.eqb c x)
  end.

Definition captures : Type := list (string * string).

Fixpoint lookup_group (name : string) (caps : captures) : option string :=
  match caps with
  | (n, v) :: rest => if String.eqb n name then Some v else lookup_group name rest
  | [] => None
  end.

(** Greedy repetition of a class: the longest run first, then shorter
    ones. [pos] is the index of [s] in the input. *)
Fixpoint match_star {A : Type} (cls : charclass) (pos : nat) (s : string)
  (k : nat -> string -> option A) : option A :=
  match s with
  | String c s' =>
      if in_class cls c then
        match match_star cls (S pos) s' k with
        | Some r => Some r
        | None => k pos s
        end
      else k pos s
  | EmptyString => k pos s
  end.

Fixpoint match_at (r : regex) (pos : nat) (s : string) (caps : captures)
  (k : nat -> string -> captures -> option captures) : option captures :=
  match r with
  | Bos => if Nat.eqb pos 0 then k pos s caps else None
  | Eos => match s with EmptyString => k pos s caps | _ => None end
  | Lit l =>
      if String.prefix l s
      then k (pos + String.length l)%nat (substring_from (String.length l) s) caps
      else None
  | One cls =>
      match s with
      | String c s' => if in_class cls c then k (S pos) s' caps else None
      | EmptyString => None
      end
  | Plus cls =>
      match s with
      | String c s' =>
          if in_class cls c
          then match_star cls (S pos) s' (fun p rest => k p rest caps)
          else None
      | EmptyString => None
      end
  | Opt r1 =>
      match match_at r1 pos s caps k with
      | Some res => Some res
      | None => k pos s caps
      end
  | Group name r1 =>
      match_at r1 pos s caps
        (fun p rest caps' =>
           k p rest ((name, substring 0 (p - pos) s) :: caps'))
  | Seq r1 r2 =>
      match_at r1 pos s caps (fun p rest caps' => match_at r2 p rest caps' k)
  end.

(** The first start index at which the expression matches. *)
Fixpoint search (r : regex) (pos : nat) (s : string) : option captures :=
  match match_at r pos s [] (fun _ _ caps => Some caps) with
  | Some caps => Some caps
  | None =>
      match s with
      | String _ s' => search r (S pos) s'
      | EmptyString => None
      end
  end.

(** [s.match(r)?.groups] for an expression without the [g] flag. *)
Definition match_groups (r : regex) (s : string) : option captures :=
  search r 0 s.

(** *** 32-bit integers

    ToInt32 and ToUint32 of an integer, and the operators [a & b],
    [a >> k] and [a >>> k], which read [NaN] as 0. *)

Definition toInt32 (z : Z) : Z := (z + 2 ^ 31) mod 2 ^ 32 - 2 ^ 31.

Definition toUint32 (z : Z) : Z := z mod 2 ^ 32.

Definition int32_of (a : number) : Z :=
  match a with Num z => toInt32 z | NaN => 0 end.

Definition band (a b : number) : number :=
  Num (toInt32 (Z.land (int32_of a) (int32_of b))).

Definition shr (a : number) (k : Z) : number :=
  Num (Z.shiftr (int32_of a) (k mod 32)).

Definition ushr (a : number) (k : Z) : number :=
  Num (Z.shiftr (toUint32 (match a with Num z => z | NaN => 0 end))
         (k mod 32)).

(** *** Code units and substrings *)

(** [s.charCodeAt(i)] for the code unit [c] at [i], and
    [String.fromCharCode] of a code below 256. *)
Definition charCode (c : ascii) : number := Num (Z.of_nat (nat_of_ascii c)).

Definition fromCharCode (code : Z) : string :=
  String (ascii_of_nat (Z.to_nat code)) "".

(** [s.slice(-n)]: the last [n] code units. *)
Definition slice_last (n : nat) (s : string) : string :=
  substring_from (String.length s - n) s.

(** An index as [substring] reads it: [NaN] and negative numbers are 0,
    and an index past the end is the length. *)
Definition clamp (len : nat) (i : number) : nat :=
  match i with
  | Num z => Nat.min (Z.to_nat z) len
  | NaN => O
  end.

(** [s.substring(i, j)] and [s.substring(i)]. *)
Definition substring2 (s : string) (i j : number) : string :=
  let a := clamp (String.length s) i in
  let b := clamp (String.length s) j in
  String.substring (Nat.min a b) (Nat.max a b - Nat.min a b) s.

Definition substring1 (s : string) (i : number) : string :=
  substring_from (clamp (String.length s) i) s.

End Js.

Import Js.

(** ** src/utils/strings.ts *)

Module Strings.

Definition formatHexadecimal (address : number) (pad : nat) : string :=
  "0x" +:+ padStart0 pad (toString16 address).

Definition formatAddress (value : number) : string :=
  "$" +:+ toString16 value.

Definition formatDecimal (value : number) : string := toString value.

(** [value.split(/\r?\n/g)]. *)
Fixpoint splitLines_from (cur : string) (s : string) : list string :=
  match s with
  | EmptyString => [cur]
  | String c s' =>
      if Ascii.eqb c "010" then cur :: splitLines_from "" s'
      else
        match s' with
        | String c' s'' =>
            if (Ascii.eqb c "013" && Ascii.eqb c' "010")%bool
            then cur :: splitLines_from "" s''
            else splitLines_from (cur +:+ String c "") s'
        | EmptyString => [cur +:+ String c ""]
        end
  end.

Definition splitLines (value : string) : list string :=
  splitLines_from "" value.

(** The [for] loop of [chunk], from the index [i] with the chunks [ret]
    pushed so far; it returns [ret] and [i] at its exit. [fuel] bounds
    the iterations, and the result is [None] when they are not enough. *)
Fixpoint chunk_loop (fuel : nat) (str : string) (n maxCount i : number)
  (ret : list string) : option (list string * number) :=
  if ltb i maxCount then
    match fuel with
    | O => None
    | S fuel' =>
        chunk_loop fuel' str n maxCount (add i n)
          (ret ++ [substring2 str i (add n i)])
    end
  else Some (ret, i).

Definition chunk_with (fuel : nat) (str : string) (n : number)
  : option (list string) :=
  let len := Num (Z.of_nat (String.length str)) in
  let maxCount := sub (sub len n) (Num 1) in
  match chunk_loop fuel str n maxCount (Num 0) [] with
  | Some (ret, i) =>
      Some (if gtb (sub len i) (Num 0) then ret ++ [substring1 str i]
            else ret)
  | None => None
  end.

(** [chunk(str, n)]: a loop that ends runs at most [str.length] times;
    [None] stands for the loop that does not end. *)
Definition chunk (str : string) (n : number) : option (list string) :=
  chunk_with (String.length str) str n.

Definition byteToASCII (byte : number) : string :=
  match byte with
  | Num b =>
      if (b <? 32) || ((127 <? b) && (b <? 161)) || (255 <? b) then "."
      else fromCharCode b
  | NaN => fromCharCode 0
  end.

Definition hexStringToASCII (value : string) (chunkSize : number)
  : option string :=
  match chunk value chunkSize with
  | Some chunks =>
      Some (fold_left
              (fun asciiContents c =>
                 asciiContents +:+ byteToASCII (parseInt c (Some 16)))
              chunks "")
  | None => None
  end.

Definition int32ToBytes (num : number) : list number :=
  [ shr (band num (Num 0xff000000)) 24;
    shr (band num (Num 0x00ff0000)) 16;
    shr (band num (Num 0x0000ff00)) 8;
    band num (Num 0x000000ff) ].

Definition int32ToASCII (value : number) : string :=
  fold_left (fun asciiContents i => asciiContents +:+ byteToASCII i)
    (int32ToBytes value) "".

Fixpoint asciiToHex (asciiString : string) : string :=
  match asciiString with
  | EmptyString => ""
  | String c rest =>
      slice_last 2 ("00" +:+ toString16 (charCode c)) +:+ asciiToHex rest
  end.

(** [for (let c = 0; c < hex.length; c += 2)
       bytes.push(parseInt(hex.substr(c, 2), 16))]:
    two code units at a time, one at the end of an odd length. *)
Fixpoint hexToBytes (hex : string) : list number :=
  match hex with
  | EmptyString => []
  | String a EmptyString => [parseInt (String a "") (Some 16)]
  | String a (String b rest) =>
      parseInt (String a (String b "")) (Some 16) :: hexToBytes rest
  end.

Fixpoint bytesToHex (bytes : list number) : string :=
  match bytes with
  | [] => ""
  | b :: rest =>
      let current := if ltb b (Num 0) then add b (Num 256) else b in
      toString16 (ushr current 4) +:+ toString16 (band current (Num 0xf))
      +:+ bytesToHex rest
  end.

End Strings.

(** ** DisassembledFile *)

Module DisassembledFile.

Record t : Type := mk {
  segmentId : option number;
  stackFrameIndex : option number;
  addressExpression : option string;
  length : option number;
  copper : bool;
  path : string
}.

(** [new DisassembledFile()]. *)
Definition new : t :=
  {| segmentId := None; stackFrameIndex := None; addressExpression := None;
     length := None; copper := false; path := "" |}.

Definition setPath (p : string) (f : t) : t :=
  mk (segmentId f) (stackFrameIndex f) (addressExpression f) (length f)
     (copper f) p.

Definition setSegmentId (n : number) (f : t) : t :=
  mk (Some n) (stackFrameIndex f) (addressExpression f) (length f)
     (copper f) (path f).

Definition getSegmentId (f : t) : option number := segmentId f.

Definition setStackFrameIndex (n : number) (f : t) : t :=
  mk (segmentId f) (Some n) (addressExpression f) (length f)
     (copper f) (path f).

Definition getStackFrameIndex (f : t) : option number := stackFrameIndex f.

Definition setAddressExpression (e : string) (f : t) : t :=
  mk (segmentId f) (stackFrameIndex f) (Some e) (length f)
     (copper f) (path f).

Definition getAddressExpression (f : t) : option string := addressExpression f.

Definition setLength (n : number) (f : t) : t :=
  mk (segmentId f) (stackFrameIndex f) (addressExpression f) (Some n)
     (copper f) (path f).

Definition getLength (f : t) : option number := length f.

Definition isSegment (f : t) : bool :=
  match segmentId f with Some _ => true | None => false end.

Definition setCopper (isCopper : bool) (f : t) : t :=
  mk (segmentId f) (stackFrameIndex f) (addressExpression f) (length f)
     isCopper (path f).

Definition isCopper (f : t) : bool := copper f.

Definition toString (f : t) : string :=
  if isSegment f then
    path f +:+ "seg_" +:+ tpl_number (segmentId f) +:+ ".dbgasm"
  else if isCopper f then
    path f +:+ "copper_" +:+ tpl_string (addressExpression f) +:+ "__"
      +:+ tpl_number (length f) +:+ ".dbgasm"
  else
    path f +:+ tpl_number (stackFrameIndex f) +:+ "__"
      +:+ tpl_string (addressExpression f) +:+ "__"
      +:+ tpl_number (length f) +:+ ".dbgasm".

(** [(?<path>.+\/)?] *)
Definition dirRegex : regex :=
  Opt (Group "path" (Seq (Plus Dot) (Lit "/"))).

(** [[^_]+] as the group [name]. *)
Definition field (name : string) : regex :=
  Group name (Plus (NotChar "_")).

(** [.dbgasm$]: the dot is not escaped in the source. *)
Definition extRegex : regex :=
  Seq (One Dot) (Seq (Lit "dbgasm") Eos).

(** [/^(?<path>.+\/)?seg_(?<segmentId>[^_]+).dbgasm$/] *)
Definition segRegex : regex :=
  Seq Bos (Seq dirRegex (Seq (Lit "seg_") (Seq (field "segmentId") extRegex))).

(** [/^(?<path>.+\/)?copper_(?<address>[^_]+)__(?<length>[^_]+).dbgasm$/] *)
Definition copperRegex : regex :=
  Seq Bos (Seq dirRegex (Seq (Lit "copper_")
    (Seq (field "address") (Seq (Lit "__") (Seq (field "length") extRegex))))).

(** [/^(?<path>.+\/)?(?<frame>[^_]+)__(?<address>[^_]+)__(?<length>[^_]+).dbgasm$/] *)
Definition addressRegex : regex :=
  Seq Bos (Seq dirRegex (Seq (field "frame") (Seq (Lit "__")
    (Seq (field "address") (Seq (Lit "__") (Seq (field "length") extRegex)))))).

(** A group that took part in the match; the pattern of a destructuring
    default for one that did not. *)
Definition group (name : string) (groups : captures) : string :=
  default "" (lookup_group name groups).

Definition fromPath (p : string) : result t :=
  match match_groups segRegex p with
  | Some groups =>
      inr (setSegmentId (parseInt (group "segmentId" groups) None)
             (setPath (group "path" groups) new))
  | None =>
  match match_groups copperRegex p with
  | Some groups =>
      inr (setCopper true
             (setLength (parseInt (group "length" groups) None)
                (setAddressExpression (group "address" groups)
                   (setPath (group "path" groups) new))))
  | None =>
  match match_groups addressRegex p with
  | Some groups =>
      inr (setLength (parseInt (group "length" groups) None)
             (setAddressExpression (group "address" groups)
                (setStackFrameIndex (parseInt (group "frame" groups) None)
                   (setPath (group "path" groups) new))))
  | None => inl (Error ("Unrecognised filename format " +:+ p))
  end end end.

Definition toURI (f : t) : string :=
  let filename := replace "#" "%23" (toString f) in
  "disassembly:" +:+ filename.

Definition isDebugAsmFile (p : string) : bool := endsWith p ".dbgasm".

End DisassembledFile.

(** ** Examples used by the statements on DisassembledFile *)

Module DisassembledFileExamples.

Import DisassembledFile.

(** The three identities of the round-trip examples, built with the
    source's setters. *)
Definition segment3 : t := setSegmentId (Num 3) new.

Definition copper400 : t :=
  setCopper true (setLength (Num 20) (setAddressExpression "$400" new)).

Definition frame2 : t :=
  setLength (Num 100)
    (setAddressExpression "$1000" (setStackFrameIndex (Num 2) new)).

(** An identity whose address expression holds two '#'. *)
Definition two_hashes : t :=
  setLength (Num 10)
    (setAddressExpression "#a#b" (setStackFrameIndex (Num 0) new)).

Definition has_hash (s : string) : bool :=
  existsb (Ascii.eqb "#") (list_ascii_of_string s).

(** The text [parseInt] reads its digits from: the field without its
    leading white space and sign. *)
Definition numeral (s : string) : string := (strip_sign (trimStart s)).2.

End DisassembledFileExamples.

(** ** Data exchanged with the collaborators

    The classes and interfaces of [../gdb], [@vscode/debugadapter] and
    [@vscode/debugprotocol], with the fields the two managers use. *)

(** A thread of the remote session: only handed back to the session. *)
Inductive GdbThread : Type := Thread (id : Z).

Record GdbStackPosition : Type := {
  sp_index : number;
  sp_pc : number
}.

(** [DebugProtocol.Source]; [new Source(name, path)] fills both fields. *)
Record Source : Type := {
  src_name : option string;
  src_path : option string
}.

Record DisassembledInstruction : Type := {
  di_address : string;
  di_instructionBytes : option string;
  di_instruction : string
}.

(** What [disassemble] resolves to. *)
Record Disassembly : Type := {
  dis_code : string;
  dis_instructions : list DisassembledInstruction
}.

(** A decoded coprocessor instruction, by its two methods. *)
Record CopperInstruction : Type := {
  ci_toString : string;
  ci_getInstructionBytes : string
}.

(** [StackFrame] of the debug adapter: its constructor
    [(id, name, source?, line = 0, column = 0)] leaves [source] undefined
    and [line], [column] at 0. *)
Record StackFrame : Type := {
  sf_id : number;
  sf_name : string;
  sf_source : option Source;
  sf_line : number;
  sf_column : number;
  sf_instructionPointerReference : option string
}.

Definition newStackFrame (i : number) (nm : string) : StackFrame :=
  {| sf_id := i; sf_name := nm; sf_source := None; sf_line := Num 0;
     sf_column := Num 0; sf_instructionPointerReference := None |}.

Record Location : Type := {
  loc_segmentId : number;
  loc_offset : number
}.

Inductive GdbBreakpointType : Type :=
| SOURCE | DATA | INSTRUCTION | EXCEPTION | TEMPORARY.

Inductive GdbBreakpointAccessType : Type := READ | WRITE | READWRITE.

Record GdbBreakpoint : Type := {
  bp_breakpointType : GdbBreakpointType;
  bp_id : option number;
  bp_line : option number;
  bp_source : option Source;
  bp_verified : bool;
  bp_offset : number;
  bp_segmentId : option number;
  bp_exceptionMask : option number;
  bp_temporary : option bool;
  bp_size : option number;
  bp_accessType : option GdbBreakpointAccessType;
  bp_message : option string;
  bp_defaultMessage : option string
}.

#[global] Instance GdbBreakpointType_eq_dec : EqDecision GdbBreakpointType.
Proof. solve_decision. Defined.

(** A breakpoint object is shared by reference between its creator and
    the manager's arrays: arrays hold references, the objects live in a
    store. *)
Definition ref : Type := nat.

(** ** Asynchronous code *)

Module Async.

(** Synchronous calls to the collaborators. *)
Inductive SyncCall : Type -> Type :=
| GdbIsConnected : SyncCall bool
| GdbIsCopperThread (thread : GdbThread) : SyncCall bool
| GdbIsCPUThread (thread : GdbThread) : SyncCall bool
| GdbToRelativeOffset (address : number) : SyncCall (number * number)
| GdbToAbsoluteOffset (segmentId offset : number) : SyncCall number
| DisassembleCopper (memory : string)
  : SyncCall (result (list CopperInstruction))
| MutexRelease : SyncCall unit
| ConsoleError (text : string) : SyncCall unit.

(** Calls that return a promise, which the caller awaits. *)
Inductive Call : Type -> Type :=
| GdbSetBreakpoint (bp : ref) (fields : GdbBreakpoint) : Call unit
| GdbRemoveBreakpoint (bp : ref) (fields : GdbBreakpoint) : Call unit
| GdbGetMemory (address length : number) : Call string
| GdbGetSegmentMemory (segmentId : number) : Call string
| ProgramFindLocationForLine (path : string) (line : number)
  : Call (option Location)
| ProgramGetAddressForFileEditorLine (name : string) (line : number)
  : Call number
| ProgramEvaluate (expression : string) : Call (option number)
| Disassemble (memory : string) (startAddress : option number)
  : Call Disassembly
| MutexCapture (key : string) : Call unit.

(** The body of an [async] method over an object of state [S].
    [Access] reads or writes fields without suspending; [Await]
    suspends on a collaborator's promise and resumes with its value or
    its rejection; [Yield] is the suspension of an [await] on one of
    the manager's own [async] methods. *)
Inductive async (S A : Type) : Type :=
| Ret (a : A)
| Throw (e : exn)
| Access {R : Type} (f : S -> R * S) (k : R -> async S A)
| Sync {R : Type} (q : SyncCall R) (k : R -> async S A)
| Await {R : Type} (c : Call R) (k : result R -> async S A)
| Yield (k : async S A).

Arguments Ret {S A} a.
Arguments Throw {S A} e.
Arguments Access {S A R} f k.
Arguments Sync {S A R} q k.
Arguments Await {S A R} c k.
Arguments Yield {S A} k.

(** [p] followed by [k] on its outcome, returned or thrown. *)
Fixpoint settle {S A B : Type} (p : async S A)
  (k : result A -> async S B) : async S B :=
  match p with
  | Ret a => k (inr a)
  | Throw e => k (inl e)
  | Access f k' => Access f (fun r => settle (k' r) k)
  | Sync q k' => Sync q (fun r => settle (k' r) k)
  | Await c k' => Await c (fun r => settle (k' r) k)
  | Yield k' => Yield (settle k' k)
  end.

Definition bind {S A B : Type} (p : async S A) (f : A -> async S B)
  : async S B :=
  settle p (fun r => match r with inr a => f a | inl e => Throw e end).

(** [try { p } catch (e) { h e }]. *)
Definition try_catch {S A : Type} (p : async S A) (h : exn -> async S A)
  : async S A :=
  settle p (fun r => match r with inr a => Ret a | inl e => h e end).

(** [try { p } finally { q }]. *)
Definition try_finally {S A : Type} (p : async S A) (q : async S unit)
  : async S A :=
  settle p (fun r =>
    bind q (fun _ => match r with inr a => Ret a | inl e => Throw e end)).

(** [await p] for [p] one of the manager's own [async] methods. *)
Definition await {S A : Type} (p : async S A) : async S A :=
  settle p (fun r =>
    Yield (match r with inr a => Ret a | inl e => Throw e end)).

(** [await c] for a call [c] to a collaborator. *)
Definition call {S R : Type} (c : Call R) : async S R :=
  Await c (fun r => match r with inr a => Ret a | inl e => Throw e end).

Definition ask {S R : Type} (q : SyncCall R) : async S R :=
  Sync q Ret.

Definition get {S : Type} : async S S :=
  Access (fun s => (s, s)) Ret.

Definition modify {S : Type} (f : S -> S) : async S unit :=
  Access (fun s => (tt, f s)) Ret.

(** A computation without effects that returns or throws. *)
Definition lift {S A : Type} (r : result A) : async S A :=
  match r with inr a => Ret a | inl e => Throw e end.

(** A synchronous call that may throw. *)
Definition ask_throwing {S R : Type} (q : SyncCall (result R)) : async S R :=
  Sync q (fun r => match r with inr a => Ret a | inl e => Throw e end).

(** Reading the property [property] of [undefined] or [null] throws a
    [TypeError], an instance of [Error]. *)
Definition TypeError (value property : string) : exn :=
  Error ("Cannot read properties of " +:+ value +:+ " (reading '"
         +:+ property +:+ "')").

(** [(e as Error).message] in a template or a concatenation: the
    message of an [Error], the text [undefined] for a value without
    that property, and a [TypeError] for [undefined] and [null]. *)
Definition message_text (e : exn) : result string :=
  match e with
  | Error m => inr m
  | Thrown => inr "undefined"
  | Undefined => inl (TypeError "undefined" "message")
  | Null => inl (TypeError "null" "message")
  end.

(** The collaborators: a hidden state, and the answer of every call in
    a given state. *)
Record Collaborators : Type := {
  World : Type;
  query : forall R, SyncCall R -> World -> R * World;
  respond : forall R, Call R -> World -> result R * World
}.

(** What an execution did to the collaborators, in order. *)
Inductive Event : Type :=
| Asked {R : Type} (q : SyncCall R) (r : R)
| Called {R : Type} (c : Call R) (r : result R).

(** The outcome of a run: result, final state of the object, final
    state of the collaborators, and the calls made, oldest first. *)
Record Outcome (C : Collaborators) (S A : Type) : Type := {
  out_result : result A;
  out_state : S;
  out_world : World C;
  out_trace : list Event
}.

Arguments out_result {C S A} o.
Arguments out_state {C S A} o.
Arguments out_world {C S A} o.
Arguments out_trace {C S A} o.

(** One caller running alone: every awaited call is answered before
    anything else happens. *)
Fixpoint run {C : Collaborators} {S A : Type} (p : async S A)
  (s : S) (w : World C) (log : list Event) : Outcome C S A :=
  match p with
  | Ret a => Build_Outcome C S A (inr a) s w log
  | Throw e => Build_Outcome C S A (inl e) s w log
  | Access f k => let '(r, s') := f s in run (k r) s' w log
  | Sync q k =>
      let '(r, w') := query C _ q w in
      run (k r) s w' (log ++ [Asked q r])
  | Await c k =>
      let '(r, w') := respond C _ c w in
      run (k r) s w' (log ++ [Called c r])
  | Yield k => run k s w log
  end.

(** The memory reads of a trace. *)
Definition is_getMemory (ev : Event) : bool :=
  match ev with
  | Called c _ => match c with GdbGetMemory _ _ => true | _ => false end
  | Asked _ _ => false
  end.

Definition memory_fetches (log : list Event) : nat :=
  List.length (filter (fun ev => is_getMemory ev = true) log).

End Async.

Import Async.

Declare Scope async_scope.
Delimit Scope async_scope with async.
Notation "x <- p ;; q" := (bind p (fun x => q))
  (at level 100, p at next level, right associativity) : async_scope.
Notation "p ;; q" := (bind p (fun _ => q))
  (at level 100, right associativity) : async_scope.

(** ** DisassemblyManager *)

Module DisassemblyManager.

Import Strings.

Record DisassembledLine : Type := {
  text : string;
  isCopper : bool
}.

(** The fields of the object. *)
Record t : Type := {
  lineCache : gmap number DisassembledLine
}.

Definition new : t := {| lineCache := ∅ |}.

Local Open Scope async_scope.

(** [lines[0].property]: [lines[0]] is [undefined] for an empty
    array, and reading a property of it throws. *)
Definition first {A : Type} (property : string) (l : list A) : result A :=
  match l with
  | x :: _ => inr x
  | [] => inl (TypeError "undefined" property)
  end.

(** [lines.find((l) => l.trim().length) ?? lines[0]], whose [split] is
    then called. *)
Definition firstNonBlank (lines : list string) : result string :=
  match List.find (fun l => negb (Nat.eqb (String.length (trim l)) 0)) lines with
  | Some l => inr l
  | None => first "split" lines
  end.

(** The text of the CPU branch of [disassembleLine], from the code the
    decoder returned. *)
Definition cpuLineText (code : string) : result string :=
  match firstNonBlank (splitLines code) with
  | inr selectedLine =>
      let elms := split "  " selectedLine in
      let selectedLine :=
        match elms with
        | _ :: _ :: e2 :: _ => e2
        | _ => selectedLine
        end in
      inr (collapse_spaces false (trim selectedLine))
  | inl e => inl e
  end.

(** The text of the coprocessor branch of [disassembleLine]:
    [lines[0].toString().split("    ")[0]]. *)
Definition copperLineText (lines : list CopperInstruction) : result string :=
  match first "toString" lines with
  | inr l0 =>
      inr (match split "    " (ci_toString l0) with
           | x :: _ => x
           | [] => "undefined"
           end)
  | inl e => inl e
  end.

Definition disassembleLine (pc : number) (thread : GdbThread)
  : async t DisassembledLine :=
  cached <- Access (fun this => (lineCache this !! pc, this)) Ret ;;
  match cached with
  | Some line => Ret line
  | None =>
      let text := formatAddress pc +:+ ": " in
      isCopper <- ask (GdbIsCopperThread thread) ;;
      text <-
        try_catch
          (memory <- call (GdbGetMemory pc (Num 10)) ;;
           text <-
             (if isCopper : bool then
                lines <- ask_throwing (DisassembleCopper memory) ;;
                decoded <- lift (copperLineText lines) ;;
                Ret (text +:+ decoded)
              else
                isCPU <- ask (GdbIsCPUThread thread) ;;
                if isCPU : bool then
                  d <- call (Disassemble memory None) ;;
                  decoded <- lift (cpuLineText (dis_code d)) ;;
                  Ret (text +:+ decoded)
                else Ret text) ;;
           modify (fun this =>
             {| lineCache :=
                  <[pc := {| text := text; isCopper := isCopper |}]>
                    (lineCache this) |}) ;;
           Ret text)
          (fun err =>
             message <- lift (message_text err) ;;
             ask (ConsoleError ("Error ignored: " +:+ message)) ;;
             Ret text) ;;
      Ret {| text := text; isCopper := isCopper |}
  end.

Definition isCopperLine (pc : number) : async t bool :=
  cached <- Access (fun this => (lineCache this !! pc, this)) Ret ;;
  Ret (match cached with Some line => isCopper line | None => false end).

(** [instructions.findIndex((instr) => parseInt(instr.address) === offset)]:
    [None] for -1. *)
Fixpoint findIndex {A : Type} (f : A -> bool) (l : list A) : option nat :=
  match l with
  | [] => None
  | x :: l' => if f x then Some O else S <$> findIndex f l'
  end.

(** [(instr) => parseInt(instr.address) === offset] *)
Definition at_offset (offset : number) (instr : DisassembledInstruction)
  : bool :=
  strict_eq (parseInt (di_address instr) None) offset.

Definition getLineNumberInDisassembledSegment (segmentId offset : number)
  : async t number :=
  memory <- call (GdbGetSegmentMemory segmentId) ;;
  d <- call (Disassemble memory None) ;;
  match findIndex (at_offset offset) (dis_instructions d) with
  | None =>
      Throw (Error ("Cannot retrieve line for segment "
                    +:+ toString segmentId +:+ ", offset "
                    +:+ toString offset +:+ ": line not found"))
  | Some index => Ret (Num (Z.of_nat index + 1))
  end.

Definition getCopperAddress (copperIndex : number) : async t number :=
  let copperHigh :=
    if strict_eq copperIndex (Num 1) then Num 0xdff080 else Num 0xdff084 in
  memory <- call (GdbGetMemory copperHigh (Num 4)) ;;
  Ret (parseInt memory (Some 16)).

(** The candidate line of [address] in the list that starts at
    [copAddr]. *)
Definition lineInCop (address copAddr : number) : number :=
  if truthy copAddr
  then floor_div (add (sub address copAddr) (Num 4)) 4
  else Num (-1).

(** The choice between the two lists: the new address and the line. *)
Definition selectCopperList (address cop1Addr cop2Addr : number)
  : number * number :=
  let lineInCop1 := lineInCop address cop1Addr in
  let lineInCop2 := lineInCop address cop2Addr in
  if geb lineInCop1 (Num 0)
     && (strict_eq lineInCop2 (Num (-1)) || leb lineInCop1 lineInCop2)
  then (cop1Addr, lineInCop1)
  else if geb lineInCop2 (Num 0)
       then (cop2Addr, lineInCop2)
       else (address, Num 1).

(** The line of [offset] in the decoded segment, as [getStackFrame]
    computes it: the [try]/[catch] around
    [getLineNumberInDisassembledSegment] and the test on its result. *)
Definition segmentLineNumber (segmentId offset : number) : async t number :=
  found <-
    try_catch
      (n <- await (getLineNumberInDisassembledSegment segmentId offset) ;;
       Ret (Some n, Num 1))
      (fun _ => Ret (None, Num (-1))) ;;
  let '(returnedLineNumber, lineNumber) := found in
  Ret (match returnedLineNumber with
       | Some n => if truthy n || strict_eq n (Num 0) then n else lineNumber
       | None => lineNumber
       end).

(** [sf.source = new Source(dAsmFile.toString(), dAsmFile.toURI());
    sf.line = lineNumber; sf.column = 1]. *)
Definition withSource (dAsmFile : DisassembledFile.t) (lineNumber : number)
  (sf : StackFrame) : StackFrame :=
  {| sf_id := sf_id sf; sf_name := sf_name sf;
     sf_source :=
       Some {| src_name := Some (DisassembledFile.toString dAsmFile);
               src_path := Some (DisassembledFile.toURI dAsmFile) |};
     sf_line := lineNumber;
     sf_column := Num 1;
     sf_instructionPointerReference := sf_instructionPointerReference sf |}.

(** [new StackFrame(stackFrameIndex, stackFrameLabel)] with its
    [instructionPointerReference] set. *)
Definition frameAt (stackFrameIndex : number) (stackFrameLabel : string)
  (address : number) : StackFrame :=
  let sf := newStackFrame stackFrameIndex stackFrameLabel in
  {| sf_id := sf_id sf; sf_name := sf_name sf; sf_source := sf_source sf;
     sf_line := sf_line sf; sf_column := sf_column sf;
     sf_instructionPointerReference := Some (formatHexadecimal address 8) |}.

(** The file of a frame before its segment or address is known. *)
Definition frameFile (isCopper : bool) (stackFrameIndex : number)
  : DisassembledFile.t :=
  DisassembledFile.setLength (Num 500)
    (DisassembledFile.setStackFrameIndex stackFrameIndex
       (DisassembledFile.setCopper isCopper DisassembledFile.new)).

Definition getStackFrame (stackPosition : GdbStackPosition)
  (thread : GdbThread) : async t StackFrame :=
  let stackFrameIndex := sp_index stackPosition in
  let address := sp_pc stackPosition in
  line <- await (disassembleLine address thread) ;;
  let stackFrameLabel := text line in
  let isCopper := isCopper line in
  let dAsmFile := frameFile isCopper stackFrameIndex in
  rel <- ask (GdbToRelativeOffset address) ;;
  let '(segmentId, offset) := rel in
  located <-
    (if geb segmentId (Num 0) && negb isCopper then
       let dAsmFile := DisassembledFile.setSegmentId segmentId dAsmFile in
       lineNumber <- segmentLineNumber segmentId offset ;;
       Ret (dAsmFile, lineNumber)
     else
       selected <-
         (if isCopper then
            cop1Addr <- await (getCopperAddress (Num 1)) ;;
            cop2Addr <- await (getCopperAddress (Num 2)) ;;
            Ret (selectCopperList address cop1Addr cop2Addr)
          else Ret (address, Num 1)) ;;
       let '(newAddress, lineNumber) := selected in
       Ret (DisassembledFile.setAddressExpression
              ("$" +:+ toString16 newAddress) dAsmFile, lineNumber)) ;;
  let '(dAsmFile, lineNumber) := located in
  let sf := frameAt stackFrameIndex stackFrameLabel address in
  if geb lineNumber (Num 0) && isCopper then
    Ret (withSource dAsmFile lineNumber sf)
  else Ret sf.

Definition disassembleSegment (segmentId : number)
  : async t (list DisassembledInstruction) :=
  memory <- call (GdbGetSegmentMemory segmentId) ;;
  startAddress <- ask (GdbToAbsoluteOffset segmentId (Num 0)) ;;
  d <- call (Disassemble memory (Some startAddress)) ;;
  Ret (dis_instructions d).

(** [disassembleCopper(memory).map((inst, i) => ...)]. *)
Fixpoint copperInstructions (address : number) (i : Z)
  (insts : list CopperInstruction) : list DisassembledInstruction :=
  match insts with
  | [] => []
  | inst :: rest =>
      {| di_instructionBytes := Some (ci_getInstructionBytes inst);
         di_address := formatHexadecimal (add address (mul (Num i) (Num 4))) 8;
         di_instruction := ci_toString inst |}
      :: copperInstructions address (i + 1) rest
  end.

Definition disassembleNumericalAddress (searchedAddress length : number)
  (isCopper : bool) : async t (list DisassembledInstruction) :=
  let address := searchedAddress in
  connected <- ask GdbIsConnected ;;
  if negb connected then Throw (Error "Debugger not started")
  else
    memory <- call (GdbGetMemory address length) ;;
    if isCopper then
      insts <- ask_throwing (DisassembleCopper memory) ;;
      Ret (copperInstructions address 0 insts)
    else
      d <- call (Disassemble memory (Some address)) ;;
      Ret (dis_instructions d).

Definition disassembleAddress (addressExpression : string) (length : number)
  (offset : option number) (isCopper : bool)
  : async t (list DisassembledInstruction) :=
  searchedAddress <-
    (if isCopper && (String.eqb addressExpression "1"
                     || String.eqb addressExpression "2")
     then
       a <- await (getCopperAddress (parseInt addressExpression None)) ;;
       Ret (Some a)
     else call (ProgramEvaluate addressExpression)) ;;
  match searchedAddress with
  | None =>
      Throw (Error "Unable to resolve address expression void returned")
  | Some searchedAddress =>
      let searchedAddress :=
        match offset with
        | Some o => if truthy o then add searchedAddress o else searchedAddress
        | None => searchedAddress
        end in
      disassembleNumericalAddress searchedAddress length isCopper
  end.

(** The instructions of the view [dAsmFile] parsed from [filePath]:
    the value of the local [instructions] of
    [getAddressForFileEditorLine]. *)
Definition instructionsOfFile (filePath : string)
  (dAsmFile : DisassembledFile.t)
  : async t (option (list DisassembledInstruction)) :=
  if DisassembledFile.isSegment dAsmFile then
    match DisassembledFile.getSegmentId dAsmFile with
    | Some segmentId =>
        i <- await (disassembleSegment segmentId) ;; Ret (Some i)
    | None =>
        Throw (Error ("SegmentId undefined in path " +:+ filePath))
    end
  else
    match DisassembledFile.getAddressExpression dAsmFile,
          DisassembledFile.getLength dAsmFile with
    | Some address, Some length =>
        i <- await (disassembleAddress address length (Some (Num 0))
                      (DisassembledFile.isCopper dAsmFile)) ;;
        Ret (Some i)
    | _, _ => Ret None
    end.

(** [instructions.length] *)
Definition count (instructions : list DisassembledInstruction) : number :=
  Num (Z.of_nat (List.length instructions)).

(** [instructions[searchedLN]] *)
Definition at_index {A : Type} (l : list A) (i : number) : option A :=
  match i with
  | Num n => if 0 <=? n then l !! Z.to_nat n else None
  | NaN => None
  end.

Definition getAddressForFileEditorLine (filePath : string)
  (lineNumber : number) : async t number :=
  if gtb lineNumber (Num 0) then
    dAsmFile <- lift (DisassembledFile.fromPath filePath) ;;
    instructions <- instructionsOfFile filePath dAsmFile ;;
    match instructions with
    | Some instructions =>
        let searchedLN := sub lineNumber (Num 1) in
        if ltb searchedLN (count instructions) then
          match at_index instructions searchedLN with
          | Some instr => Ret (parseInt (di_address instr) (Some 16))
          | None => Throw (TypeError "undefined" "address")
          end
        else
          Throw (Error ("Searched line " +:+ toString searchedLN
                        +:+ " greater than file " +:+ quote +:+ filePath
                        +:+ quote +:+ " length: "
                        +:+ toString (count instructions)))
    | None =>
        Throw (Error ("Searched line " +:+ toString lineNumber
                      +:+ " has no instructions"))
    end
  else
    Throw (Error ("Invalid line number: '" +:+ toString lineNumber +:+ "'")).

End DisassemblyManager.

(** ** BreakpointManager *)

Module BreakpointManager.

(** The loaded program, as the manager holds it: a reference it only
    calls through. *)
Inductive Program : Type := TheProgram.

(** The fields of the object. [breakpointLock] holds the release action
    of the mutex between [acquireLock] and [releaseLock]. *)
Record t : Type := {
  exceptionMask : number;
  breakpoints : list ref;
  pendingBreakpoints : list ref;
  program : option Program;
  nextBreakpointId : Z;
  temporaryBreakpointArrays : list (list ref);
  breakpointLock : bool
}.

Definition DEFAULT_EXCEPTION_MASK : number := Num 60.

Definition new : t :=
  {| exceptionMask := DEFAULT_EXCEPTION_MASK; breakpoints := [];
     pendingBreakpoints := []; program := None; nextBreakpointId := 0;
     temporaryBreakpointArrays := []; breakpointLock := false |}.

(** The manager together with the breakpoint objects its arrays refer
    to. *)
Record Mem : Type := {
  this : t;
  objects : ref -> GdbBreakpoint
}.

Definition set_breakpoints (l : list ref) (m : Mem) : Mem :=
  {| this :=
       {| exceptionMask := exceptionMask (this m); breakpoints := l;
          pendingBreakpoints := pendingBreakpoints (this m);
          program := program (this m);
          nextBreakpointId := nextBreakpointId (this m);
          temporaryBreakpointArrays := temporaryBreakpointArrays (this m);
          breakpointLock := breakpointLock (this m) |};
     objects := objects m |}.

Definition set_pendingBreakpoints (l : list ref) (m : Mem) : Mem :=
  {| this :=
       {| exceptionMask := exceptionMask (this m);
          breakpoints := breakpoints (this m);
          pendingBreakpoints := l;
          program := program (this m);
          nextBreakpointId := nextBreakpointId (this m);
          temporaryBreakpointArrays := temporaryBreakpointArrays (this m);
          breakpointLock := breakpointLock (this m) |};
     objects := objects m |}.

Definition set_breakpointLock (b : bool) (m : Mem) : Mem :=
  {| this :=
       {| exceptionMask := exceptionMask (this m);
          breakpoints := breakpoints (this m);
          pendingBreakpoints := pendingBreakpoints (this m);
          program := program (this m);
          nextBreakpointId := nextBreakpointId (this m);
          temporaryBreakpointArrays := temporaryBreakpointArrays (this m);
          breakpointLock := b |};
     objects := objects m |}.

(** [bp.field = v] on the object [bp] refers to. *)
Definition set_object (bp : ref) (f : GdbBreakpoint -> GdbBreakpoint)
  (m : Mem) : Mem :=
  {| this := this m;
     objects := fun r => if Nat.eqb r bp then f (objects m bp) else objects m r |}.

Definition with_verified (v : bool) (b : GdbBreakpoint) : GdbBreakpoint :=
  {| bp_breakpointType := bp_breakpointType b; bp_id := bp_id b;
     bp_line := bp_line b; bp_source := bp_source b; bp_verified := v;
     bp_offset := bp_offset b; bp_segmentId := bp_segmentId b;
     bp_exceptionMask := bp_exceptionMask b; bp_temporary := bp_temporary b;
     bp_size := bp_size b; bp_accessType := bp_accessType b;
     bp_message := bp_message b; bp_defaultMessage := bp_defaultMessage b |}.

Definition with_message (msg : option string) (b : GdbBreakpoint)
  : GdbBreakpoint :=
  {| bp_breakpointType := bp_breakpointType b; bp_id := bp_id b;
     bp_line := bp_line b; bp_source := bp_source b;
     bp_verified := bp_verified b;
     bp_offset := bp_offset b; bp_segmentId := bp_segmentId b;
     bp_exceptionMask := bp_exceptionMask b; bp_temporary := bp_temporary b;
     bp_size := bp_size b; bp_accessType := bp_accessType b;
     bp_message := msg; bp_defaultMessage := bp_defaultMessage b |}.

Definition with_location (segmentId : option number) (offset : number)
  (b : GdbBreakpoint) : GdbBreakpoint :=
  {| bp_breakpointType := bp_breakpointType b; bp_id := bp_id b;
     bp_line := bp_line b; bp_source := bp_source b;
     bp_verified := bp_verified b;
     bp_offset := offset; bp_segmentId := segmentId;
     bp_exceptionMask := bp_exceptionMask b; bp_temporary := bp_temporary b;
     bp_size := bp_size b; bp_accessType := bp_accessType b;
     bp_message := bp_message b; bp_defaultMessage := bp_defaultMessage b |}.

Definition set_exceptionMask (mask : number) (m : Mem) : Mem :=
  {| this :=
       {| exceptionMask := mask;
          breakpoints := breakpoints (this m);
          pendingBreakpoints := pendingBreakpoints (this m);
          program := program (this m);
          nextBreakpointId := nextBreakpointId (this m);
          temporaryBreakpointArrays := temporaryBreakpointArrays (this m);
          breakpointLock := breakpointLock (this m) |};
     objects := objects m |}.

Definition set_program (p : option Program) (m : Mem) : Mem :=
  {| this :=
       {| exceptionMask := exceptionMask (this m);
          breakpoints := breakpoints (this m);
          pendingBreakpoints := pendingBreakpoints (this m);
          program := p;
          nextBreakpointId := nextBreakpointId (this m);
          temporaryBreakpointArrays := temporaryBreakpointArrays (this m);
          breakpointLock := breakpointLock (this m) |};
     objects := objects m |}.

Definition set_nextBreakpointId (n : Z) (m : Mem) : Mem :=
  {| this :=
       {| exceptionMask := exceptionMask (this m);
          breakpoints := breakpoints (this m);
          pendingBreakpoints := pendingBreakpoints (this m);
          program := program (this m);
          nextBreakpointId := n;
          temporaryBreakpointArrays := temporaryBreakpointArrays (this m);
          breakpointLock := breakpointLock (this m) |};
     objects := objects m |}.

(** [DebugProtocol.DataBreakpointAccessType] and the table
    [accessTypes]. *)
Inductive DataBreakpointAccessType : Type := read | write | readWrite.

Definition accessTypes (a : DataBreakpointAccessType)
  : GdbBreakpointAccessType :=
  match a with read => READ | write => WRITE | readWrite => READWRITE end.

Section Methods.

(** [isDisassembledFile] of [./disassembly], which is not among the
    sources: any predicate on paths. *)
Variable isDisassembledFile : string -> bool.

Local Open Scope async_scope.

(** The fields of the object [bp] refers to, as they are now. *)
Definition load (bp : ref) : async Mem GdbBreakpoint :=
  Access (fun m => (objects m bp, m)) Ret.

Definition store (bp : ref) (f : GdbBreakpoint -> GdbBreakpoint)
  : async Mem unit :=
  modify (set_object bp f).

(** [err.message] *)
Definition error_message (e : exn) : option string :=
  match e with Error m => Some m | _ => None end.

Definition addPendingBreakpoint (breakpoint : ref) (err : option exn)
  : async Mem unit :=
  store breakpoint (with_verified false) ;;
  match err with
  | Some e => store breakpoint (with_message (error_message e))
  | None => Ret tt
  end ;;
  modify (fun m =>
    set_pendingBreakpoints (pendingBreakpoints (this m) ++ [breakpoint]) m).

Definition getPendingBreakpoints : async Mem (list ref) :=
  Access (fun m => (pendingBreakpoints (this m), m)) Ret.

Definition addLocation (breakpoint : ref) (path : string) (line : number)
  : async Mem bool :=
  prog <- Access (fun m => (program (this m), m)) Ret ;;
  match prog with
  | Some _ =>
      location <- call (ProgramFindLocationForLine path line) ;;
      match location with
      | Some l =>
          store breakpoint
            (with_location (Some (loc_segmentId l)) (loc_offset l)) ;;
          Ret true
      | None => Ret false
      end
  | None => Ret false
  end.

(** [this.gdbProxy.setBreakpoint(bp)] *)
Definition gdbSetBreakpoint (bp : ref) : async Mem unit :=
  fields <- load bp ;;
  call (GdbSetBreakpoint bp fields).

(** [this.breakpoints.push(bp)] *)
Definition pushBreakpoint (bp : ref) : async Mem unit :=
  modify (fun m => set_breakpoints (breakpoints (this m) ++ [bp]) m).

(** [error instanceof Error ? error : undefined] *)
Definition ifError (error : exn) : option exn :=
  match error with Error _ => Some error | _ => None end.

Definition setBreakpoint (bp : ref) : async Mem bool :=
  connected <- ask GdbIsConnected ;;
  if negb connected then
    addPendingBreakpoint bp None ;;
    Ret false
  else
    b <- load bp ;;
    let isData := bool_decide (bp_breakpointType b = DATA) in
    let isInstruction := bool_decide (bp_breakpointType b = INSTRUCTION) in
    let hasMask := bool_decide (is_Some (bp_exceptionMask b)) in
    try_catch
      (match bp_source b, bp_line b, bp_id b with
       | Some source, Some line, Some _ =>
           store bp (with_verified false) ;;
           let path := default "" (src_path source) in
           prog <- Access (fun m => (program (this m), m)) Ret ;;
           match prog with
           | None => Throw (Error "Program is not running")
           | Some _ =>
               if negb (isDisassembledFile path) then
                 located <- await (addLocation bp path line) ;;
                 if located : bool then
                   gdbSetBreakpoint bp ;;
                   pushBreakpoint bp
                 else Throw (Error "Segment offset not resolved")
               else
                 let name := default "" (src_name source) in
                 address <-
                   call (ProgramGetAddressForFileEditorLine name line) ;;
                 store bp (with_location None address) ;;
                 gdbSetBreakpoint bp ;;
                 pushBreakpoint bp
           end
       | _, _, _ =>
           if hasMask || isData || isInstruction then
             gdbSetBreakpoint bp ;;
             if negb hasMask then pushBreakpoint bp else Ret tt
           else Throw (Error "Breakpoint info incomplete")
       end ;;
       Ret true)
      (fun error =>
         addPendingBreakpoint bp (ifError error) ;;
         Ret false).

Definition acquireLock : async Mem unit :=
  call (MutexCapture "breakpointLock") ;;
  modify (set_breakpointLock true).

Definition releaseLock : async Mem unit :=
  held <- Access (fun m => (breakpointLock (this m), m)) Ret ;;
  if held : bool then
    ask MutexRelease ;;
    modify (set_breakpointLock false)
  else Ret tt.

(** The code of [sendAllPendingBreakpoints] up to its [Promise.all]: the
    test, the lock, then the capture of the pending array and its
    replacement by an empty one.  It returns the captured array, or
    [None] when the test fails. *)
Definition capturePending : async Mem (option (list ref)) :=
  m <- get ;;
  if (0 <? List.length (pendingBreakpoints (this m)))%nat then
    await acquireLock ;;
    pending <-
      Access (fun m =>
                (pendingBreakpoints (this m), set_pendingBreakpoints [] m))
             Ret ;;
    Ret (Some pending)
  else Ret None.

Definition isSameSource (source other : Source) : bool :=
  match src_path source with
  | Some p => bool_decide (src_path other = Some p)
  | None => false
  end
  || match src_name source with
     | Some n => isDisassembledFile n && bool_decide (src_name other = Some n)
     | None => false
     end.

(** The test of the loop of [clearBreakpointsType] on the fields of one
    entry. *)
Definition toClear (type : GdbBreakpointType) (source : option Source)
  (b : GdbBreakpoint) : bool :=
  let isCorrectType := bool_decide (bp_breakpointType b = type) in
  let isSameSource :=
    match source, bp_source b with
    | Some src, Some bsrc => isSameSource bsrc src
    | _, _ => false
    end in
  isCorrectType
  && (match source with None => true | Some _ => false end || isSameSource).

(** [for (const bp of this.breakpoints) { ... }] with its two local
    variables. *)
Fixpoint clearLoop (type : GdbBreakpointType) (source : option Source)
  (bps : list ref) (hasError : bool) (remainingBreakpoints : list ref)
  : async Mem (bool * list ref) :=
  match bps with
  | [] => Ret (hasError, remainingBreakpoints)
  | bp :: rest =>
      b <- load bp ;;
      next <-
        (if toClear type source b then
           try_catch
             (call (GdbRemoveBreakpoint bp b) ;;
              Ret (hasError, remainingBreakpoints))
             (fun _ => Ret (true, remainingBreakpoints ++ [bp]))
         else Ret (hasError, remainingBreakpoints ++ [bp])) ;;
      clearLoop type source rest next.1 next.2
  end.

Definition clearBreakpointsType (type : GdbBreakpointType)
  (source : option Source) : async Mem unit :=
  await acquireLock ;;
  bps <- Access (fun m => (breakpoints (this m), m)) Ret ;;
  r <- clearLoop type source bps false [] ;;
  modify (set_breakpoints r.2) ;;
  releaseLock ;;
  if r.1 : bool then Throw (Error "Some breakpoints cannot be removed")
  else Ret tt.

Definition clearBreakpoints (source : Source) : async Mem unit :=
  clearBreakpointsType SOURCE (Some source).

Definition clearDataBreakpoints : async Mem unit :=
  clearBreakpointsType DATA None.

Definition clearInstructionBreakpoints : async Mem unit :=
  clearBreakpointsType INSTRUCTION None.

Definition setExceptionMask (mask : number) : async Mem unit :=
  modify (set_exceptionMask mask).

Definition setProgram (p : Program) : async Mem unit :=
  modify (set_program (Some p)).

(** [this.nextBreakpointId++] *)
Definition nextId : async Mem number :=
  Access (fun m => (Num (nextBreakpointId (this m)),
                    set_nextBreakpointId (nextBreakpointId (this m) + 1) m))
         Ret.

(** The test of the loop of [addLocationToPending] on the fields of one
    entry: the path and the line to locate, when the entry has a source
    outside the disassembled files and a line. *)
Definition locationRequest (b : GdbBreakpoint) : option (string * number) :=
  match bp_source b, bp_line b with
  | Some source, Some line =>
      if truthy line then
        let path := default "" (src_path source) in
        if negb (isDisassembledFile path) then Some (path, line) else None
      else None
  | _, _ => None
  end.

(** [for (const bp of this.pendingBreakpoints) { ... }] *)
Fixpoint locatePending (bps : list ref) : async Mem unit :=
  match bps with
  | [] => Ret tt
  | bp :: rest =>
      b <- load bp ;;
      match locationRequest b with
      | Some (path, line) => await (addLocation bp path line) ;; Ret tt
      | None => Ret tt
      end ;;
      locatePending rest
  end.

Definition addLocationToPending : async Mem unit :=
  prog <- Access (fun m => (program (this m), m)) Ret ;;
  match prog with
  | None => Ret tt
  | Some _ =>
      bps <- Access (fun m => (pendingBreakpoints (this m), m)) Ret ;;
      locatePending bps
  end.

(** The factories return a new object: its fields. *)
Definition createBreakpoint (source : Source) (line : number)
  : async Mem GdbBreakpoint :=
  id <- nextId ;;
  Ret {| bp_breakpointType := SOURCE; bp_id := Some id; bp_line := Some line;
         bp_source := Some source; bp_verified := false;
         bp_offset := Num 0; bp_segmentId := None; bp_exceptionMask := None;
         bp_temporary := None; bp_size := None; bp_accessType := None;
         bp_message := None; bp_defaultMessage := None |}.

Definition createTemporaryBreakpoint (address : number)
  : async Mem GdbBreakpoint :=
  id <- nextId ;;
  Ret {| bp_breakpointType := TEMPORARY; bp_id := Some id; bp_line := None;
         bp_source := None; bp_verified := false;
         bp_offset := address; bp_segmentId := None;
         bp_exceptionMask := None; bp_temporary := Some true;
         bp_size := None; bp_accessType := None;
         bp_message := None; bp_defaultMessage := None |}.

Definition createInstructionBreakpoint (address : number)
  : async Mem GdbBreakpoint :=
  id <- nextId ;;
  Ret {| bp_breakpointType := INSTRUCTION; bp_id := Some id; bp_line := None;
         bp_source := None; bp_verified := false;
         bp_offset := address; bp_segmentId := None;
         bp_exceptionMask := None; bp_temporary := Some false;
         bp_size := None; bp_accessType := None;
         bp_message := None; bp_defaultMessage := None |}.

Definition createDataBreakpoint (offset size : number)
  (accessType : option DataBreakpointAccessType) (message : option string)
  : async Mem GdbBreakpoint :=
  id <- nextId ;;
  Ret {| bp_breakpointType := DATA; bp_id := Some id; bp_line := None;
         bp_source := None; bp_verified := false;
         bp_offset := offset; bp_segmentId := None;
         bp_exceptionMask := None; bp_temporary := None;
         bp_size := Some size;
         bp_accessType := Some (accessTypes (default readWrite accessType));
         bp_message := message; bp_defaultMessage := message |}.

Definition createExceptionBreakpoint : async Mem GdbBreakpoint :=
  id <- nextId ;;
  mask <- Access (fun m => (exceptionMask (this m), m)) Ret ;;
  Ret {| bp_breakpointType := EXCEPTION; bp_id := Some id; bp_line := None;
         bp_source := None; bp_verified := false;
         bp_offset := Num 0; bp_segmentId := None;
         bp_exceptionMask := Some mask; bp_temporary := None;
         bp_size := None; bp_accessType := None;
         bp_message := None; bp_defaultMessage := None |}.

(** [offsets.map((o) => this.createTemporaryBreakpoint(o))] *)
Fixpoint createTemporaryBreakpointArray (offsets : list number)
  : async Mem (list GdbBreakpoint) :=
  match offsets with
  | [] => Ret []
  | o :: rest =>
      b <- createTemporaryBreakpoint o ;;
      bs <- createTemporaryBreakpointArray rest ;;
      Ret (b :: bs)
  end.

(** The object a factory returned, at the reference [fresh] of the
    store. *)
Definition allocate (fresh : ref) (fields : GdbBreakpoint) : async Mem ref :=
  store fresh (fun _ => fields) ;;
  Ret fresh.


(** [this.gdbProxy.removeBreakpoint(bp)] *)
Definition gdbRemoveBreakpoint (bp : ref) : async Mem unit :=
  fields <- load bp ;;
  call (GdbRemoveBreakpoint bp fields).

Definition removeExceptionBreakpoint (fresh : ref) : async Mem unit :=
  await acquireLock ;;
  fields <- createExceptionBreakpoint ;;
  breakpoint <- allocate fresh fields ;;
  try_finally (gdbRemoveBreakpoint breakpoint) releaseLock.

(** A call of one of the five factories. *)
Inductive Factory : Type :=
| NewBreakpoint (source : Source) (line : number)
| NewTemporaryBreakpoint (address : number)
| NewInstructionBreakpoint (address : number)
| NewDataBreakpoint (offset size : number)
    (accessType : option DataBreakpointAccessType) (message : option string)
| NewExceptionBreakpoint.

Definition create (f : Factory) : async Mem GdbBreakpoint :=
  match f with
  | NewBreakpoint source line => createBreakpoint source line
  | NewTemporaryBreakpoint address => createTemporaryBreakpoint address
  | NewInstructionBreakpoint address => createInstructionBreakpoint address
  | NewDataBreakpoint offset size accessType message =>
      createDataBreakpoint offset size accessType message
  | NewExceptionBreakpoint => createExceptionBreakpoint
  end.

(** Factory calls made one after the other. *)
Fixpoint createAll (fs : list Factory) : async Mem (list GdbBreakpoint) :=
  match fs with
  | [] => Ret []
  | f :: rest =>
      b <- create f ;;
      bs <- createAll rest ;;
      Ret (b :: bs)
  end.

End Methods.

End BreakpointManager.

(** ** Interleaved execution of the pending flush

    [sendAllPendingBreakpoints] awaits [Promise.all] over one call of
    [setBreakpoint] per pending entry.  Between two suspensions a piece
    of code runs alone; at a suspension anything else may run: another
    suspended call, or another caller of the manager. *)

Module Interleaving.

Import BreakpointManager.

Section Flush.

Context {C : Collaborators}.
Variable isDisassembledFile : string -> bool.

(** A piece of code runs until it suspends or settles. *)
Fixpoint advance {S A : Type} (p : async S A) (s : S) (w : World C)
  : async S A * S * World C :=
  match p with
  | Access f k => let '(r, s') := f s in advance (k r) s' w
  | Sync q k => let '(r, w') := query C _ q w in advance (k r) s w'
  | _ => (p, s, w)
  end.

(** A suspended piece of code resumes: with the value or the rejection
    of the promise it awaited, whatever it is. *)
Inductive resumes {S A : Type} : async S A -> async S A -> Prop :=
| resumes_await (R : Type) (c : Call R) (k : result R -> async S A)
    (r : result R) :
    resumes (Await c k) (k r)
| resumes_yield (k : async S A) :
    resumes (Yield k) k.

(** [p] is a call of [p0] in progress: [p0] run to a suspension, resumed
    and run to the next any number of times. *)
Inductive continues {S A : Type} (p0 : async S A) : async S A -> Prop :=
| continues_start (s : S) (w : World C) :
    continues p0 (advance p0 s w).1.1
| continues_resume (p p' : async S A) (s : S) (w : World C) :
    continues p0 p -> resumes p p' ->
    continues p0 (advance p' s w).1.1.

(** [pending.map((bp) => this.setBreakpoint(bp))]: every call is started
    in turn and runs to its first suspension. *)
Fixpoint startAll (pending : list ref) (m : Mem) (w : World C)
  : list (async Mem bool) * Mem * World C :=
  match pending with
  | [] => ([], m, w)
  | bp :: rest =>
      let '(c, m1, w1) := advance (setBreakpoint isDisassembledFile bp) m w in
      let '(cs, m2, w2) := startAll rest m1 w1 in
      (c :: cs, m2, w2)
  end.

(** Where a call of [sendAllPendingBreakpoints] is. *)
Inductive Flush : Type :=
| Capturing (p : async Mem (option (list ref)))
    (* suspended in the code before [Promise.all] *)
| Joining (calls : list (async Mem bool))
    (* suspended at [await Promise.all(...)] *)
| Finished (r : result unit).

Record Config : Type := {
  flush : Flush;
  mem : Mem
}.

(** What a step did: the flush captured the queue and started its calls
    ([held] is the queue when the step began, [captured] the array handed
    to [map], [left] the queue when [map] began); a suspended piece of
    the flush resumed; [Promise.all] settled; another caller appended
    [added] to the pending queue. *)
Inductive Label : Type :=
| Dispatched (held captured left : list ref)
| Resumed
| Settled
| Other (added : list ref).

Definition queue (m : Mem) : list ref := pendingBreakpoints (this m).

(** The flush once the code before [Promise.all] has run to [p]. *)
Definition captured (p : async Mem (option (list ref))) (m : Mem)
  (w : World C) : Flush * Mem :=
  match p with
  | Ret (Some pending) =>
      let '(calls, m', _) := startAll pending m w in (Joining calls, m')
  | Ret None => (Finished (inr tt), m)
  | Throw e => (Finished (inl e), m)
  | _ => (Capturing p, m)
  end.

Definition label_of (p : async Mem (option (list ref))) (m0 m : Mem)
  : Label :=
  match p with
  | Ret (Some pending) => Dispatched (queue m0) pending (queue m)
  | _ => Resumed
  end.

(** The call [sendAllPendingBreakpoints()] itself, up to its first
    suspension. *)
Definition sendAllPendingBreakpoints (m : Mem) (w : World C) : Config :=
  let '(p, m1, w1) := advance capturePending m w in
  let '(f, m2) := captured p m1 w1 in
  {| flush := f; mem := m2 |}.

Inductive step : Config -> Label -> Config -> Prop :=
| step_capturing (p p' q : async Mem (option (list ref))) (m m1 m2 : Mem)
    (w w1 : World C) (f : Flush) :
    resumes p p' ->
    advance p' m w = (q, m1, w1) ->
    captured q m1 w1 = (f, m2) ->
    step {| flush := Capturing p; mem := m |} (label_of q m m1)
         {| flush := f; mem := m2 |}
| step_call (calls : list (async Mem bool)) (i : nat)
    (c c' c'' : async Mem bool) (m m1 : Mem) (w w1 : World C) :
    calls !! i = Some c ->
    resumes c c' ->
    advance c' m w = (c'', m1, w1) ->
    step {| flush := Joining calls; mem := m |} Resumed
         {| flush := Joining (<[i := c'']> calls); mem := m1 |}
| step_fulfilled (calls : list (async Mem bool)) (results : list bool)
    (m m1 : Mem) (w w1 : World C) :
    calls = Ret <$> results ->
    advance releaseLock m w = (Ret tt, m1, w1) ->
    step {| flush := Joining calls; mem := m |} Settled
         {| flush := Finished (inr tt); mem := m1 |}
| step_rejected (calls : list (async Mem bool)) (i : nat) (e : exn)
    (m : Mem) :
    calls !! i = Some (Throw e) ->
    step {| flush := Joining calls; mem := m |} Settled
         {| flush := Finished (inl e); mem := m |}
| step_other (f : Flush) (m m' : Mem) (added : list ref) :
    queue m' = queue m ++ added ->
    step {| flush := f; mem := m |} (Other added)
         {| flush := f; mem := m' |}.

(** Executions, with the labels of their steps, oldest first. *)
Inductive steps : Config -> list Label -> Config -> Prop :=
| steps_nil (c : Config) : steps c [] c
| steps_snoc (c c1 c2 : Config) (ls : list Label) (l : Label) :
    steps c ls c1 -> step c1 l c2 -> steps c (ls ++ [l]) c2.

Definition is_dispatch (l : Label) : bool :=
  match l with Dispatched _ _ _ => true | _ => false end.

(** The entries other callers added along an execution. *)
Definition added_by_others (l : Label) : list ref :=
  match l with Other added => added | _ => [] end.

(** Code whose writes only append to the pending queue. *)
Fixpoint appends {A : Type} (p : async Mem A) : Prop :=
  match p with
  | Ret _ | Throw _ => True
  | Access f k =>
      forall m, (exists added, queue (f m).2 = queue m ++ added)
                /\ appends (k (f m).1)
  | Sync _ k => forall r, appends (k r)
  | Await _ k => forall r, appends (k r)
  | Yield k => appends k
  end.

(** Code that returns an array only by handing over the pending queue
    and leaving an empty one in its place, and does not touch the queue
    before. *)
Fixpoint swaps (p : async Mem (option (list ref))) : Prop :=
  match p with
  | Ret None | Throw _ => True
  | Ret (Some _) => False
  | Access f k =>
      forall m,
        (k (f m).1 = Ret (Some (queue m)) /\ queue (f m).2 = [])
        \/ (queue (f m).2 = queue m /\ swaps (k (f m).1))
  | Sync _ k => forall r, swaps (k r)
  | Await _ k => forall r, swaps (k r)
  | Yield k => swaps k
  end.

(** A call of [setBreakpoint] on [bp] in progress. *)
Definition call_of (bp : ref) (c : async Mem bool) : Prop :=
  continues (setBreakpoint isDisassembledFile bp) c.

Definition no_dispatch (ls : list Label) : Prop :=
  forallb (fun l => negb (is_dispatch l)) ls = true.

(** What the flush guarantees of an execution that went through
    [ls1], then the capture and dispatch step, then [ls2], and is now
    in [cfg]: the array handed to [map] was the whole queue and left an
    empty queue behind; the flush dispatched nowhere else; the calls in
    progress are one call of [setBreakpoint] per captured entry, in
    order; and what other callers appended since is in the queue, in
    order. *)
Definition dispatched_once (ls1 : list Label) (held captured left : list ref)
  (ls2 : list Label) (cfg : Config) : Prop :=
  captured = held
  /\ left = []
  /\ no_dispatch (ls1 ++ ls2)
  /\ match flush cfg with
     | Joining calls => Forall2 call_of captured calls
     | Finished _ => True
     | Capturing _ => False
     end
  /\ concat (map added_by_others ls2) `sublist_of` queue (mem cfg).

(** The invariant of the executions of a flush. *)
Definition flush_invariant (ls : list Label) (cfg : Config) : Prop :=
  match flush cfg with
  | Capturing p => swaps p /\ no_dispatch ls
  | Joining calls => Forall appends calls
  | Finished _ => True
  end
  /\ forall ls1 held captured left ls2,
       ls = ls1 ++ Dispatched held captured left :: ls2 ->
       dispatched_once ls1 held captured left ls2 cfg.

End Flush.

End Interleaving.

(** ** Observations on traces, and collaborators that answer from a script *)

Module Observe.

Definition is_consoleError (ev : Event) : bool :=
  match ev with
  | Asked q _ => match q with ConsoleError _ => true | _ => false end
  | Called _ _ => false
  end.

(** How many times [console.error] was called. *)
Definition errors_logged (log : list Event) : nat :=
  List.length (filter (fun ev => is_consoleError ev = true) log).

(** The world after a synchronous call, and the answer of an awaited
    one. *)
Definition after_query {C : Collaborators} {R : Type} (q : SyncCall R)
  (w : World C) : World C := (query C R q w).2.

Definition answer {C : Collaborators} {R : Type} (c : Call R)
  (w : World C) : result R := (respond C R c w).1.

Definition after_call {C : Collaborators} {R : Type} (c : Call R)
  (w : World C) : World C := (respond C R c w).2.

(** Collaborators without state: every call has one fixed answer. *)
Record Script : Type := {
  s_query : forall R, SyncCall R -> R;
  s_respond : forall R, Call R -> result R
}.

Definition scripted (sc : Script) : Collaborators :=
  {| World := unit;
     query := fun R q w => (s_query sc R q, w);
     respond := fun R c w => (s_respond sc R c, w) |}.

(** A target for the examples.  Thread 1 is the coprocessor and thread
    0 the CPU; segment 0 is loaded at 0x20000 and is 0x100 bytes long;
    the two list pointers read as [cop1] and [cop2]; the CPU decoder
    finds two instructions, at offsets 0 and 2; the target refuses to
    set or remove the breakpoint object 2. *)
Definition demo_query (R : Type) (q : SyncCall R) : R :=
  match q in SyncCall R return R with
  | GdbIsConnected => true
  | GdbIsCopperThread (Thread id) => id =? 1
  | GdbIsCPUThread (Thread id) => id =? 0
  | GdbToRelativeOffset address =>
      match address with
      | Num a =>
          if (0x20000 <=? a) && (a <? 0x20100)
          then (Num 0, Num (a - 0x20000))
          else (Num (-1), address)
      | NaN => (Num (-1), address)
      end
  | GdbToAbsoluteOffset _ offset => add (Num 0x20000) offset
  | DisassembleCopper memory =>
      inr [ {| ci_toString := "dc.w $0180,$0000    ; COLOR00 := 0x0000";
               ci_getInstructionBytes := "01800000" |} ]
  | MutexRelease => tt
  | ConsoleError _ => tt
  end.

Definition demo_instructions (base : Z) : list DisassembledInstruction :=
  [ {| di_address := Strings.formatHexadecimal (Num base) 8;
       di_instructionBytes := Some "4e71";
       di_instruction := "nop" |};
    {| di_address := Strings.formatHexadecimal (Num (base + 2)) 8;
       di_instructionBytes := Some "4e75";
       di_instruction := "rts" |} ].

Definition demo_respond (cop1 cop2 : string) (R : Type) (c : Call R)
  : result R :=
  match c in Call R return result R with
  | GdbSetBreakpoint bp _ =>
      if Nat.eqb bp 2 then inl (Error "refused") else inr tt
  | GdbRemoveBreakpoint bp _ =>
      if Nat.eqb bp 2 then inl (Error "refused") else inr tt
  | GdbGetMemory address _ =>
      if bool_decide (address = Num 0xdff080) then inr cop1
      else if bool_decide (address = Num 0xdff084) then inr cop2
      else inr "4e714e75"
  | GdbGetSegmentMemory _ => inr "4e714e75"
  | ProgramFindLocationForLine _ _ =>
      inr (Some {| loc_segmentId := Num 0; loc_offset := Num 4 |})
  | ProgramGetAddressForFileEditorLine _ _ => inr (Num 0x20002)
  | ProgramEvaluate _ => inr (Some (Num 0x1000))
  | Disassemble _ startAddress =>
      inr {| dis_code := " 00000000  4e71  nop";
             dis_instructions :=
               demo_instructions
                 (match startAddress with Some (Num a) => a | _ => 0 end) |}
  | MutexCapture _ => inr tt
  end.

Definition demo (cop1 cop2 : string) : Collaborators :=
  scripted {| s_query := demo_query; s_respond := demo_respond cop1 cop2 |}.

(** The removals asked of the target, oldest first, each with whether
    the target accepted it. *)
Definition removal (ev : Event) : list (ref * bool) :=
  match ev with
  | Called c r =>
      match c with
      | GdbRemoveBreakpoint bp _ =>
          [(bp, match r with inr _ => true | inl _ => false end)]
      | _ => []
      end
  | Asked _ _ => []
  end.

Definition removals (log : list Event) : list (ref * bool) :=
  concat (map removal log).

(** The entries of a list of attempts that failed. *)
Definition failures (attempts : list (ref * bool)) : list ref :=
  map fst (List.filter (fun a => negb a.2) attempts).




(** The frame [getStackFrame] builds for a coprocessor line when its
    view starts at [newAddress] and the frame is at [lineNumber]. *)
Definition copperFrame (stackPosition : GdbStackPosition) (label : string)
  (newAddress lineNumber : number) : StackFrame :=
  DisassemblyManager.withSource
    (DisassembledFile.setAddressExpression
       ("$" +:+ toString16 newAddress)
       (DisassemblyManager.frameFile true (sp_index stackPosition)))
    lineNumber
    (DisassemblyManager.frameAt (sp_index stackPosition) label
       (sp_pc stackPosition)).

(** The frame [getStackFrame] returns when it attaches no source. *)
Definition plainFrame (stackPosition : GdbStackPosition) (label : string)
  : StackFrame :=
  DisassemblyManager.frameAt (sp_index stackPosition) label
    (sp_pc stackPosition).

(** Breakpoint objects for the examples: the objects 1, 2 and 4 are
    data breakpoints and the object 3 an instruction breakpoint, all
    verified; the example target refuses the object 2. *)
Definition demo_objects (r : ref) : GdbBreakpoint :=
  {| bp_breakpointType := if Nat.eqb r 3 then INSTRUCTION else DATA;
     bp_id := Some (Num (Z.of_nat r)); bp_line := None; bp_source := None;
     bp_verified := true; bp_offset := Num (16 * Z.of_nat r);
     bp_segmentId := None; bp_exceptionMask := None;
     bp_temporary := None; bp_size := Some (Num 2);
     bp_accessType := Some READWRITE; bp_message := None;
     bp_defaultMessage := None |}.

(** A manager whose active list is [active], with an empty pending
    queue. *)
Definition demo_mem (active : list ref) : BreakpointManager.Mem :=
  BreakpointManager.set_breakpoints active
    {| BreakpointManager.this := BreakpointManager.new;
       BreakpointManager.objects := demo_objects |}.

(** A manager that holds the lock or not, with the pending queue
    [pending] and no active breakpoint. *)
Definition demo_pending (locked : bool) (pending : list ref)
  : BreakpointManager.Mem :=
  BreakpointManager.set_pendingBreakpoints pending
    (BreakpointManager.set_breakpointLock locked (demo_mem [])).

End Observe.

Import Observe.

(** ** Vocabulary of the statements *)

Module Statements.

(** The file identity of the specification: two sources are the same
    file when their paths are equal, or when their names are equal and
    the name is that of a disassembled view.  A source without path has
    no path to compare, and one without name no name; the names are
    compared whenever the paths do not make the sources the same, a
    disassembled view being usually named without a path. *)
Definition same_file (isDisassembledFile : string -> bool) (a b : Source)
  : Prop :=
  (is_Some (src_path a) /\ src_path a = src_path b)
  \/ (src_name a = src_name b
      /\ (isDisassembledFile <$> src_name a) = Some true).

#[global] Instance same_file_dec (isDisassembledFile : string -> bool)
  (a b : Source) : Decision (same_file isDisassembledFile a b).
Proof. unfold same_file. apply _. Defined.

(** The entries a clear is about, in the words of the specification:
    those of the kind [type] and, for a clear of a source, with a source
    that is the same file. *)
Definition matching (isDisassembledFile : string -> bool)
  (type : GdbBreakpointType) (source : option Source) (b : GdbBreakpoint)
  : Prop :=
  bp_breakpointType b = type
  /\ match source, bp_source b with
     | None, _ => True
     | Some src, Some bsrc => same_file isDisassembledFile bsrc src
     | Some _, None => False
     end.

#[global] Instance matching_dec (isDisassembledFile : string -> bool)
  (type : GdbBreakpointType) (source : option Source) (b : GdbBreakpoint)
  : Decision (matching isDisassembledFile type source b).
Proof.
  unfold matching. destruct source, (bp_source b); apply _.
Defined.

(** What a line that failed with [e] leaves behind: the error logged
    with its message and the address alone returned, or the
    [TypeError] of reading the message of [undefined] or [null]. *)
Definition degraded (pc : number) (isCopper : bool) (e : exn)
  (r : result DisassemblyManager.DisassembledLine) (log log' : list Event)
  : Prop :=
  match message_text e with
  | inr message =>
      r = inr {| DisassemblyManager.text := Strings.formatAddress pc +:+ ": ";
                 DisassemblyManager.isCopper := isCopper |}
      /\ errors_logged log' = S (errors_logged log)
      /\ exists log0,
           log' = log0 ++ [Asked (ConsoleError ("Error ignored: " +:+ message))
                             tt]
  | inl typeError =>
      r = inl typeError /\ errors_logged log' = errors_logged log
  end.

(** Every code unit of [s] satisfies [P]. *)
Fixpoint every (P : ascii -> bool) (s : string) : bool :=
  match s with
  | String c s' => P c && every P s'
  | EmptyString => true
  end.

Definition not_slash (c : ascii) : bool := negb (Ascii.eqb c "/").

Definition not_hash (c : ascii) : bool := negb (Ascii.eqb c "#").

(** A code unit that may stand in a field of a file name read without
    directory: neither the separator of the fields nor a slash. *)
Definition plain (c : ascii) : bool :=
  negb (Ascii.eqb c "_") && negb (Ascii.eqb c "/").

(** The value of a numeral read from the left, after [acc]. *)
Fixpoint horner10 (d : Decimal.uint) (acc : Z) : Z :=
  match d with
  | Decimal.Nil => acc
  | Decimal.D0 l => horner10 l (acc * 10 + 0)
  | Decimal.D1 l => horner10 l (acc * 10 + 1)
  | Decimal.D2 l => horner10 l (acc * 10 + 2)
  | Decimal.D3 l => horner10 l (acc * 10 + 3)
  | Decimal.D4 l => horner10 l (acc * 10 + 4)
  | Decimal.D5 l => horner10 l (acc * 10 + 5)
  | Decimal.D6 l => horner10 l (acc * 10 + 6)
  | Decimal.D7 l => horner10 l (acc * 10 + 7)
  | Decimal.D8 l => horner10 l (acc * 10 + 8)
  | Decimal.D9 l => horner10 l (acc * 10 + 9)
  end.

Fixpoint horner16 (d : Hexadecimal.uint) (acc : Z) : Z :=
  match d with
  | Hexadecimal.Nil => acc
  | Hexadecimal.D0 l => horner16 l (acc * 16 + 0)
  | Hexadecimal.D1 l => horner16 l (acc * 16 + 1)
  | Hexadecimal.D2 l => horner16 l (acc * 16 + 2)
  | Hexadecimal.D3 l => horner16 l (acc * 16 + 3)
  | Hexadecimal.D4 l => horner16 l (acc * 16 + 4)
  | Hexadecimal.D5 l => horner16 l (acc * 16 + 5)
  | Hexadecimal.D6 l => horner16 l (acc * 16 + 6)
  | Hexadecimal.D7 l => horner16 l (acc * 16 + 7)
  | Hexadecimal.D8 l => horner16 l (acc * 16 + 8)
  | Hexadecimal.D9 l => horner16 l (acc * 16 + 9)
  | Hexadecimal.Da l => horner16 l (acc * 16 + 10)
  | Hexadecimal.Db l => horner16 l (acc * 16 + 11)
  | Hexadecimal.Dc l => horner16 l (acc * 16 + 12)
  | Hexadecimal.Dd l => horner16 l (acc * 16 + 13)
  | Hexadecimal.De l => horner16 l (acc * 16 + 14)
  | Hexadecimal.Df l => horner16 l (acc * 16 + 15)
  end.

(** The address expressions [disassembleAddress] reads as the index of
    a coprocessor list. *)
Definition is_list_index (a : string) : bool :=
  String.eqb a "1" || String.eqb a "2".

(** The register that holds the pointer of the coprocessor list
    [copperIndex]. *)
Definition listRegister (copperIndex : Z) : number :=
  if copperIndex =? 1 then Num 0xdff080 else Num 0xdff084.

(** The ids [n], [n + 1], ..., one per element of a list. *)
Fixpoint idsFrom {A : Type} (n : Z) (l : list A) : list (option number) :=
  match l with
  | [] => []
  | _ :: rest => Some (Num n) :: idsFrom (n + 1) rest
  end.

(** A line lookup in the program. *)
Definition is_findLocation (ev : Event) : bool :=
  match ev with
  | Called c _ =>
      match c with ProgramFindLocationForLine _ _ => true | _ => false end
  | Asked _ _ => false
  end.

(** [b'] is [b] with, at most, another segment and offset. *)
Definition relocated (b b' : GdbBreakpoint) : Prop :=
  b' = BreakpointManager.with_location (bp_segmentId b') (bp_offset b') b.

(** [b'] is [b] with, at most, another verified flag, message, segment
    and offset. *)
Definition resolved (b b' : GdbBreakpoint) : Prop :=
  b' = BreakpointManager.with_message (bp_message b')
         (BreakpointManager.with_verified (bp_verified b')
            (BreakpointManager.with_location (bp_segmentId b')
               (bp_offset b') b)).

(** A breakpoint that [setBreakpoint] does not track once installed:
    one with an exception mask and without a source, line and id. *)
Definition untracked (b : GdbBreakpoint) : bool :=
  match bp_source b, bp_line b, bp_id b with
  | Some _, Some _, Some _ => false
  | _, _, _ => bool_decide (is_Some (bp_exceptionMask b))
  end.

(** A source [isSameSource] can recognise: one with a path, or with the
    name of a disassembled file. *)
Definition identifiable (isDisassembledFile : string -> bool)
  (source : Source) : bool :=
  match src_path source with Some _ => true | None => false end
  || match src_name source with
     | Some n => isDisassembledFile n
     | None => false
     end.

(** A number that holds a byte, signed or not, and the byte as an
    unsigned one. *)
Definition is_byte (b : number) : bool :=
  match b with Num z => (-128 <=? z) && (z <=? 255) | NaN => false end.

Definition unsigned (b : number) : number :=
  match b with Num z => Num (z mod 256) | NaN => NaN end.

(** The round trip of one byte and of one code unit, as tests. *)
Definition byte_round_trip (z : Z) : bool :=
  bool_decide (Strings.hexToBytes (Strings.bytesToHex [Num z])
               = [Num (z mod 256)])
  && Nat.eqb (String.length (Strings.bytesToHex [Num z])) 2.

Definition char_round_trip (c : ascii) : bool :=
  bool_decide (Strings.hexToBytes (Strings.asciiToHex (String c ""))
               = [charCode c])
  && Nat.eqb (String.length (Strings.asciiToHex (String c ""))) 2.

(** [l.join("")] *)
Definition join (l : list string) : string := fold_right append "" l.

Definition LF : ascii := "010".

Definition CR : ascii := "013".

Definition not_LF (c : ascii) : bool := negb (Ascii.eqb c LF).

Definition not_CR (c : ascii) : bool := negb (Ascii.eqb c CR).

(** How many line feeds the string holds. *)
Fixpoint lineFeeds (s : string) : nat :=
  match s with
  | EmptyString => O
  | String c s' => ((if Ascii.eqb c LF then 1 else 0) + lineFeeds s')%nat
  end.


(** The example target when every read of its memory times out. *)
Definition unreachable : Collaborators :=
  scripted
    {| s_query := demo_query;
       s_respond := fun R c =>
         match c in Call R return result R -> result R with
         | GdbGetMemory _ _ => fun _ => inl (Error "timeout")
         | _ => fun r => r
         end (demo_respond "00001000" "00002000" R c) |}.

(** The example target when every read of its memory is rejected with
    [undefined]. *)
Definition dropped : Collaborators :=
  scripted
    {| s_query := demo_query;
       s_respond := fun R c =>
         match c in Call R return result R -> result R with
         | GdbGetMemory _ _ => fun _ => inl Undefined
         | _ => fun r => r
         end (demo_respond "00001000" "00002000" R c) |}.

(** Breakpoint objects for the examples of the source clears: the
    objects 1 and 2 are source breakpoints of the file /src/a.s and the
    object 3 one of /src/b.s; the object 5 has a source with the name
    main.s and no path, the object 6 the disassembled view seg_0.dbgasm
    without path; every other object is a data breakpoint without
    source.  The example target refuses the object 2. *)
Definition demo_source (r : ref) : option Source :=
  match r with
  | 1%nat | 2%nat =>
      Some {| src_name := Some "a.s"; src_path := Some "/src/a.s" |}
  | 3%nat => Some {| src_name := Some "b.s"; src_path := Some "/src/b.s" |}
  | 5%nat => Some {| src_name := Some "main.s"; src_path := None |}
  | 6%nat => Some {| src_name := Some "seg_0.dbgasm"; src_path := None |}
  | _ => None
  end.

Definition demo_source_objects (r : ref) : GdbBreakpoint :=
  {| bp_breakpointType :=
       match demo_source r with Some _ => SOURCE | None => DATA end;
     bp_id := Some (Num (Z.of_nat r));
     bp_line := match demo_source r with
                | Some _ => Some (Num (10 * Z.of_nat r))
                | None => None
                end;
     bp_source := demo_source r;
     bp_verified := true; bp_offset := Num (16 * Z.of_nat r);
     bp_segmentId := None; bp_exceptionMask := None;
     bp_temporary := None; bp_size := None;
     bp_accessType := None; bp_message := None;
     bp_defaultMessage := None |}.

(** A manager whose active list is [active], over these objects. *)
Definition demo_source_mem (active : list ref) : BreakpointManager.Mem :=
  BreakpointManager.set_breakpoints active
    {| BreakpointManager.this := BreakpointManager.new;
       BreakpointManager.objects := demo_source_objects |}.

End Statements.

Import Statements.

(* ================================================================== *)
(** * Properties *)


Section DisassembledFileProperties.

Import DisassembledFile.

Lemma radix_digit_10_not_digit (c : ascii) :
  is_decimal_digit c = false -> radix_digit 10 c = None.
Proof.
  unfold is_decimal_digit, radix_digit, digit_value.
  set (n := Z.of_nat (nat_of_ascii c)).
  intros H.
  destruct (48 <=? n) eqn:H1, (n <=? 57) eqn:H2; simpl in *; try discriminate;
    repeat match goal with
      | |- context [if ?b then _ else _] => destruct b eqn:?; simpl
      end; try reflexivity; lia.
Qed.

Lemma strip_hex_prefix_digit (s s' : string) :
  strip_hex_prefix s = Some s' -> starts_with_digit s = true.
Proof.
  destruct s as [|c s0]; simpl; [discriminate|].
  intros H.
  destruct (Ascii.eqb_spec c "0") as [->|Hne]; [reflexivity|].
  exfalso. revert H.
  destruct c as [[] [] [] [] [] [] [] []]; try discriminate; congruence.
Qed.

Lemma parseInt_no_digit (s : string) :
  starts_with_digit (strip_sign (trimStart s)).2 = false ->
  parseInt s None = NaN.
Proof.
  unfold parseInt.
  destruct (strip_sign (trimStart s)) as [sign s1]; simpl.
  intros H.
  destruct (strip_hex_prefix s1) as [s2|] eqn:Hp.
  - apply strip_hex_prefix_digit in Hp. congruence.
  - destruct s1 as [|c s1]; simpl; [reflexivity|].
    simpl in H. rewrite (radix_digit_10_not_digit c H). reflexivity.
Qed.

Lemma fromPath_error (p : string) (e : exn) :
  fromPath p = inl e -> e = Error ("Unrecognised filename format " +:+ p).
Proof.
  unfold fromPath.
  destruct (match_groups segRegex p); [discriminate|].
  destruct (match_groups copperRegex p); [discriminate|].
  destruct (match_groups addressRegex p); [discriminate|].
  congruence.
Qed.

End DisassembledFileProperties.

(** ** DisassembledFile: encoding and parsing *)

Module DisassembledFileSpec.

Import DisassembledFile DisassembledFileExamples.

(** C6. The three identity shapes round-trip: segment 3 encodes to
    "seg_3.dbgasm" and parses back to segment 3 with [isSegment] true;
    the coprocessor identity ("$400", 20) encodes to
    "copper_$400__20.dbgasm" and parses back to itself; the generic
    identity (2, "$1000", 100) encodes to "2__$1000__100.dbgasm" and
    parses back to itself. *)
Theorem C6_roundtrip_examples :
  (toString segment3 = "seg_3.dbgasm"
   /\ fromPath (toString segment3) = inr segment3
   /\ getSegmentId segment3 = Some (Num 3)
   /\ isSegment segment3 = true)
  /\ (toString copper400 = "copper_$400__20.dbgasm"
      /\ fromPath (toString copper400) = inr copper400
      /\ isCopper copper400 = true
      /\ getAddressExpression copper400 = Some "$400"
      /\ getLength copper400 = Some (Num 20))
  /\ (toString frame2 = "2__$1000__100.dbgasm"
      /\ fromPath (toString frame2) = inr frame2
      /\ getStackFrameIndex frame2 = Some (Num 2)
      /\ getAddressExpression frame2 = Some "$1000"
      /\ getLength frame2 = Some (Num 100)).
Proof. repeat split; vm_compute; reflexivity. Qed.

(** C9 (the code at the failing input). [toURI] encodes the first '#'
    only: the identity parsed from "0__#a#b__10.dbgasm" is rendered as
    "disassembly:0__%23a#b__10.dbgasm", which still holds a '#'. *)
Theorem C9_toURI_keeps_second_hash :
  fromPath "0__#a#b__10.dbgasm" = inr two_hashes
  /\ toURI two_hashes = "disassembly:0__%23a#b__10.dbgasm"
  /\ has_hash (toURI two_hashes) = true.
Proof. repeat split; vm_compute; reflexivity. Qed.

(** C10 as stated fails: "seg_12abc.dbgasm" has the segment shape and
    its numeric field "12abc" is not a decimal number, yet the parsed
    segment id is 12, not NaN. *)
Lemma C10_counterexample :
  ~ (forall p groups,
       match_groups segRegex p = Some groups ->
       is_decimal_number (group "segmentId" groups) = false ->
       exists f, fromPath p = inr f /\ segmentId f = Some NaN).
Proof.
  intros H.
  destruct (H "seg_12abc.dbgasm" [("segmentId", "12abc")])
    as [f [Hf Hn]]; [vm_compute; reflexivity .. |].
  vm_compute in Hf. inversion Hf; subst f. discriminate Hn.
Qed.

(** C10 (amended). [fromPath] checks the shape only.  The error is
    raised exactly when none of the three patterns matches; a path of
    the segment shape parses to a segment identity ([isSegment] true)
    whose segment id is [parseInt] of the matched text, which is NaN
    whenever that text has no decimal digit after its leading white
    space and sign; likewise for the numeric fields of the two other
    shapes. *)
Theorem C10_fromPath_shape_only (p : string) :
  (fromPath p = inl (Error ("Unrecognised filename format " +:+ p))
   <-> match_groups segRegex p = None
       /\ match_groups copperRegex p = None
       /\ match_groups addressRegex p = None)
  /\ (forall e, fromPath p = inl e ->
        e = Error ("Unrecognised filename format " +:+ p))
  /\ (forall g, match_groups segRegex p = Some g ->
        exists f, fromPath p = inr f
          /\ isSegment f = true
          /\ segmentId f = Some (parseInt (group "segmentId" g) None)
          /\ (starts_with_digit (numeral (group "segmentId" g)) = false ->
              segmentId f = Some NaN))
  /\ (forall g, match_groups segRegex p = None ->
        match_groups copperRegex p = Some g ->
        exists f, fromPath p = inr f
          /\ isCopper f = true
          /\ length f = Some (parseInt (group "length" g) None)
          /\ (starts_with_digit (numeral (group "length" g)) = false ->
              length f = Some NaN))
  /\ (forall g, match_groups segRegex p = None ->
        match_groups copperRegex p = None ->
        match_groups addressRegex p = Some g ->
        exists f, fromPath p = inr f
          /\ stackFrameIndex f = Some (parseInt (group "frame" g) None)
          /\ length f = Some (parseInt (group "length" g) None)
          /\ (starts_with_digit (numeral (group "frame" g)) = false ->
              stackFrameIndex f = Some NaN)
          /\ (starts_with_digit (numeral (group "length" g)) = false ->
              length f = Some NaN)).
Proof.
  unfold fromPath.
  destruct (match_groups segRegex p) as [g1|] eqn:H1;
    [|destruct (match_groups copperRegex p) as [g2|] eqn:H2;
      [|destruct (match_groups addressRegex p) as [g3|] eqn:H3]].
  all: repeat split; try discriminate; try congruence.
  all: try (intros [? [? ?]]; discriminate).
  all: try (intros (? & ? & ?); discriminate).
  all: intros g; intros; simplify_eq;
    eexists; repeat split; simpl; intros Hd; f_equal;
    apply parseInt_no_digit; exact Hd.
Qed.

(** The amended statement at "seg_x.dbgasm": the segment id is NaN and
    the identity is still a segment. *)
Lemma C10_fromPath_shape_only_witness :
  exists f, fromPath "seg_x.dbgasm" = inr f
    /\ isSegment f = true /\ segmentId f = Some NaN.
Proof.
  destruct (C10_fromPath_shape_only "seg_x.dbgasm") as (_ & _ & Hseg & _).
  destruct (Hseg [("segmentId", "x")]) as (f & Hf & Hs & _ & Hn);
    [vm_compute; reflexivity|].
  exists f. repeat split; [exact Hf | exact Hs | apply Hn; reflexivity].
Defined.

End DisassembledFileSpec.

(** ** Running asynchronous code *)

Section RunLemmas.

Context {C : Collaborators} {S : Type}.

Lemma run_settle {A B : Type} (p : async S A) (k : result A -> async S B)
  (s : S) (w : World C) (log : list Event) :
  run (settle p k) s w log =
  run (k (out_result (run p s w log))) (out_state (run p s w log))
      (out_world (run p s w log)) (out_trace (run p s w log)).
Proof.
  revert s w log.
  induction p as [a|e|R f k' IH|R q k' IH|R c k' IH|k' IH]; intros s w log;
    simpl; try reflexivity.
  - destruct (f s) as [r s']. apply IH.
  - destruct (query C R q w) as [r w']. apply IH.
  - destruct (respond C R c w) as [r w']. apply IH.
  - apply IH.
Qed.

Lemma run_bind {A B : Type} (p : async S A) (f : A -> async S B)
  (s : S) (w : World C) (log : list Event) :
  run (bind p f) s w log =
  match out_result (run p s w log) with
  | inr a =>
      run (f a) (out_state (run p s w log)) (out_world (run p s w log))
          (out_trace (run p s w log))
  | inl e =>
      Build_Outcome C S B (inl e) (out_state (run p s w log))
        (out_world (run p s w log)) (out_trace (run p s w log))
  end.
Proof.
  unfold bind. rewrite run_settle.
  destruct (out_result (run p s w log)); reflexivity.
Qed.

Lemma run_try_catch {A : Type} (p : async S A) (h : exn -> async S A)
  (s : S) (w : World C) (log : list Event) :
  run (try_catch p h) s w log =
  match out_result (run p s w log) with
  | inr a =>
      Build_Outcome C S A (inr a) (out_state (run p s w log))
        (out_world (run p s w log)) (out_trace (run p s w log))
  | inl e =>
      run (h e) (out_state (run p s w log)) (out_world (run p s w log))
          (out_trace (run p s w log))
  end.
Proof.
  unfold try_catch. rewrite run_settle.
  destruct (out_result (run p s w log)); reflexivity.
Qed.

Lemma run_await {A : Type} (p : async S A)
  (s : S) (w : World C) (log : list Event) :
  run (await p) s w log = run p s w log.
Proof.
  unfold await. rewrite run_settle.
  destruct (run p s w log) as [[e|a] s' w' log']; reflexivity.
Qed.

Lemma memory_fetches_snoc (log : list Event) (ev : Event) :
  memory_fetches (log ++ [ev]) =
  (memory_fetches log + if is_getMemory ev then 1 else 0)%nat.
Proof.
  unfold memory_fetches. rewrite filter_app, length_app. f_equal.
  rewrite filter_cons, filter_nil.
  destruct (decide (is_getMemory ev = true)) as [H|H].
  - rewrite H. reflexivity.
  - destruct (is_getMemory ev); [congruence | reflexivity].
Qed.

End RunLemmas.

(** Symbolic execution of [run]: case analysis on each answer of the
    collaborators, in the order the code asks. *)
Ltac exec_answer :=
  match goal with
  | |- context [query ?C ?R ?q ?w] =>
      let r := fresh "r" in
      let w' := fresh "w" in
      let Hq := fresh "Hq" in
      destruct (query C R q w) as [r w'] eqn:Hq
  | |- context [respond ?C ?R ?c ?w] =>
      let e := fresh "e" in
      let a := fresh "a" in
      let w' := fresh "w" in
      let Hr := fresh "Hr" in
      destruct (respond C R c w) as [[e|a] w'] eqn:Hr
  end; simpl.

Ltac exec_match :=
  match goal with
  | |- context [lift ?x] =>
      let E := fresh "E" in destruct x eqn:E
  | |- context [match ?x with _ => _ end] =>
      first [is_var x; destruct x
            | let E := fresh "E" in destruct x eqn:E]
  end; simpl.

Ltac exec := simpl; repeat exec_answer; repeat (exec_match; repeat exec_answer).

(** The same for code that writes to breakpoint objects and tests the
    class of what it caught. *)
Ltac exec_objects :=
  simpl;
  repeat (first [ progress rewrite Nat.eqb_refl
                | match goal with
                  | H : ?x = _ |- context [match ?x with _ => _ end] =>
                      rewrite H
                  end
                | exec_answer
                | match goal with
                  | |- context [BreakpointManager.ifError ?e] =>
                      is_var e; destruct e
                  | u : unit |- _ => destruct u
                  end
                | exec_match ];
          simpl).

(** ** DisassemblyManager.disassembleLine *)

Section DisassembleLine.

Import DisassemblyManager Strings.

Context {C : Collaborators}.

Lemma errors_logged_snoc (log : list Event) (ev : Event) :
  errors_logged (log ++ [ev]) =
  (errors_logged log + if is_consoleError ev then 1 else 0)%nat.
Proof.
  unfold errors_logged. rewrite filter_app, length_app. f_equal.
  rewrite filter_cons, filter_nil.
  destruct (decide (is_consoleError ev = true)) as [H|H].
  - rewrite H. reflexivity.
  - destruct (is_consoleError ev); [congruence | reflexivity].
Qed.

Lemma disassembleLine_hit (pc : number) (thread : GdbThread) (this : t)
  (w : World C) (log : list Event) (line : DisassembledLine) :
  lineCache this !! pc = Some line ->
  run (disassembleLine pc thread) this w log =
  Build_Outcome C t DisassembledLine (inr line) this w log.
Proof.
  intros H. unfold disassembleLine. simpl. rewrite H. reflexivity.
Qed.

Ltac count_events :=
  rewrite ?memory_fetches_snoc, ?errors_logged_snoc; simpl; try lia.

Local Opaque formatAddress cpuLineText copperLineText.

(** What a miss does, by what the collaborators answer: the line fails
    with [e] ([failed]) or is decoded as [text] ([decoded]). *)
Lemma disassembleLine_cases (pc : number) (thread : GdbThread) (this : t)
  (w : World C) (log : list Event) :
  lineCache this !! pc = None ->
  let o := run (disassembleLine pc thread) this w log in
  let copper := (query C _ (GdbIsCopperThread thread) w).1 in
  let w1 := after_query (GdbIsCopperThread thread) w in
  let w2 := after_call (GdbGetMemory pc (Num 10)) w1 in
  let w3 := after_query (GdbIsCPUThread thread) w2 in
  let address := formatAddress pc +:+ ": " in
  let failed := fun e =>
    degraded pc copper e (out_result o) log (out_trace o)
    /\ out_state o = this
    /\ memory_fetches (out_trace o) = S (memory_fetches log) in
  let decoded := fun text =>
    let line := {| text := text; isCopper := copper |} in
    out_result o = inr line
    /\ out_state o = {| lineCache := <[pc := line]> (lineCache this) |}
    /\ errors_logged (out_trace o) = errors_logged log
    /\ memory_fetches (out_trace o) = S (memory_fetches log) in
  match answer (GdbGetMemory pc (Num 10)) w1 with
  | inl e => failed e
  | inr memory =>
      if copper then
        match (query C _ (DisassembleCopper memory) w2).1 with
        | inl e => failed e
        | inr lines =>
            match copperLineText lines with
            | inl e => failed e
            | inr text => decoded (address +:+ text)
            end
        end
      else if (query C _ (GdbIsCPUThread thread) w2).1 then
        match answer (Disassemble memory None) w3 with
        | inl e => failed e
        | inr d =>
            match cpuLineText (dis_code d) with
            | inl e => failed e
            | inr text => decoded (address +:+ text)
            end
        end
      else decoded address
  end.
Proof.
  intros H. cbv zeta.
  unfold answer, after_call, after_query, degraded, disassembleLine.
  simpl. rewrite H. simpl.
  destruct (query C bool (GdbIsCopperThread thread) w) as [cop w1]. simpl.
  destruct (respond C string (GdbGetMemory pc (Num 10)) w1) as [[e|memory] w2];
    simpl.
  { destruct e; simpl; repeat exec_answer;
      repeat match goal with u : unit |- _ => destruct u end;
      repeat split; count_events; try (eexists; reflexivity). }
  destruct cop; simpl.
  - destruct (query C _ (DisassembleCopper memory) w2) as [[e|lines] w3];
      simpl.
    { destruct e; simpl; repeat exec_answer;
        repeat match goal with u : unit |- _ => destruct u end;
        repeat split; count_events; try (eexists; reflexivity). }
    destruct (copperLineText lines) as [e|text]; simpl.
    { destruct e; simpl; repeat exec_answer;
        repeat match goal with u : unit |- _ => destruct u end;
        repeat split; count_events; try (eexists; reflexivity). }
    repeat split; count_events.
  - destruct (query C bool (GdbIsCPUThread thread) w2) as [cpu w3]. simpl.
    destruct cpu; simpl; [|repeat split; count_events].
    destruct (respond C _ (Disassemble memory None) w3) as [[e|d] w4]; simpl.
    { destruct e; simpl; repeat exec_answer;
        repeat match goal with u : unit |- _ => destruct u end;
        repeat split; count_events; try (eexists; reflexivity). }
    destruct (cpuLineText (dis_code d)) as [e|text]; simpl.
    { destruct e; simpl; repeat exec_answer;
        repeat match goal with u : unit |- _ => destruct u end;
        repeat split; count_events; try (eexists; reflexivity). }
    repeat split; count_events.
Qed.

(** A miss fetches memory once, and then: the line is returned and
    cached, nothing logged; or the error is logged, the address alone
    returned and nothing cached; or the call throws the [TypeError] of
    reading the message of [undefined] or [null], nothing logged and
    nothing cached. *)
Lemma disassembleLine_miss (pc : number) (thread : GdbThread) (this : t)
  (w : World C) (log : list Event) :
  lineCache this !! pc = None ->
  let o := run (disassembleLine pc thread) this w log in
  let copper := (query C _ (GdbIsCopperThread thread) w).1 in
  memory_fetches (out_trace o) = S (memory_fetches log)
  /\ ((exists line,
         out_result o = inr line
         /\ isCopper line = copper
         /\ errors_logged (out_trace o) = errors_logged log
         /\ lineCache (out_state o) = <[pc := line]> (lineCache this))
      \/ (out_result o = inr {| text := formatAddress pc +:+ ": ";
                                isCopper := copper |}
          /\ errors_logged (out_trace o) = S (errors_logged log)
          /\ out_state o = this)
      \/ (exists value,
            (value = "undefined" \/ value = "null")
            /\ out_result o = inl (TypeError value "message")
            /\ errors_logged (out_trace o) = errors_logged log
            /\ out_state o = this)).
Proof.
  intros H.
  pose proof (disassembleLine_cases pc thread this w log H) as Hc.
  cbv zeta in *.
  set (o := run (disassembleLine pc thread) this w log) in *.
  set (copper := (query C _ (GdbIsCopperThread thread) w).1) in *.
  match goal with
  | |- ?G =>
      assert (Hfailed : forall e,
                degraded pc copper e (out_result o) log (out_trace o)
                /\ out_state o = this
                /\ memory_fetches (out_trace o) = S (memory_fetches log) ->
                G);
      [|assert (Hdecoded : forall text,
                  out_result o = inr {| text := text; isCopper := copper |}
                  /\ out_state o
                     = {| lineCache :=
                            <[pc := {| text := text; isCopper := copper |}]>
                              (lineCache this) |}
                  /\ errors_logged (out_trace o) = errors_logged log
                  /\ memory_fetches (out_trace o) = S (memory_fetches log) ->
                  G)]
  end.
  { intros e (Hd & Hst & Hf). split; [exact Hf|]. right.
    unfold degraded in Hd. destruct e; simpl in Hd.
    - left. destruct Hd as (? & ? & _). auto.
    - left. destruct Hd as (? & ? & _). auto.
    - right. exists "undefined". destruct Hd. auto.
    - right. exists "null". destruct Hd. auto 6. }
  { intros text (Hr & Hst & He & Hf). split; [exact Hf|]. left.
    eexists. split; [exact Hr|]. split; [reflexivity|].
    split; [exact He|]. rewrite Hst. reflexivity. }
  repeat match type of Hc with
         | match ?x with _ => _ end => destruct x
         | if ?x then _ else _ => destruct x
         end;
    first [apply (Hfailed _ Hc) | apply (Hdecoded _ Hc)].
Qed.

(** C5. On a miss [disassembleLine] fetches memory once.  A successful
    decode (the fetch answered, and for a coprocessor or a CPU thread
    the decoder answered and its text could be read) is returned and
    cached under [pc] without any error logged, and a second call then
    returns the cached line without calling any collaborator, so without
    a memory fetch.  When the fetch or the decoding fails (a rejected
    fetch, a coprocessor decoder that throws or returns no line, a
    rejected CPU decoding), nothing is cached and a second call fetches
    again; the error is logged and the address-only line returned,
    except for a failure with [undefined] or [null], where reading the
    message throws and the call itself fails. *)
Theorem C5_disassembleLine_caching (pc : number) (thread : GdbThread)
  (this : t) (w : World C) (log : list Event) :
  lineCache this !! pc = None ->
  let o1 := run (disassembleLine pc thread) this w log in
  let o2 := run (disassembleLine pc thread) (out_state o1) (out_world o1)
              (out_trace o1) in
  let copper := (query C _ (GdbIsCopperThread thread) w).1 in
  let w1 := after_query (GdbIsCopperThread thread) w in
  let w2 := after_call (GdbGetMemory pc (Num 10)) w1 in
  let w3 := after_query (GdbIsCPUThread thread) w2 in
  let address := formatAddress pc +:+ ": " in
  let cached := fun text =>
    let line := {| text := text; isCopper := copper |} in
    out_result o1 = inr line
    /\ lineCache (out_state o1) = <[pc := line]> (lineCache this)
    /\ errors_logged (out_trace o1) = errors_logged log
    /\ o2 = Build_Outcome C t DisassembledLine (inr line) (out_state o1)
              (out_world o1) (out_trace o1) in
  let retried := fun e =>
    degraded pc copper e (out_result o1) log (out_trace o1)
    /\ out_state o1 = this
    /\ memory_fetches (out_trace o2) = S (memory_fetches (out_trace o1)) in
  memory_fetches (out_trace o1) = S (memory_fetches log)
  /\ match answer (GdbGetMemory pc (Num 10)) w1 with
     | inl e => retried e
     | inr memory =>
         if copper then
           match (query C _ (DisassembleCopper memory) w2).1 with
           | inl e => retried e
           | inr lines =>
               match copperLineText lines with
               | inl e => retried e
               | inr text => cached (address +:+ text)
               end
           end
         else if (query C _ (GdbIsCPUThread thread) w2).1 then
           match answer (Disassemble memory None) w3 with
           | inl e => retried e
           | inr d =>
               match cpuLineText (dis_code d) with
               | inl e => retried e
               | inr text => cached (address +:+ text)
               end
           end
         else cached address
     end.
Proof.
  intros H.
  pose proof (disassembleLine_cases pc thread this w log H) as Hc.
  cbv zeta in *.
  split; [apply (disassembleLine_miss pc thread this w log H)|].
  set (o1 := run (disassembleLine pc thread) this w log) in *.
  set (copper := (query C _ (GdbIsCopperThread thread) w).1) in *.
  assert (Hretried : forall e,
            degraded pc copper e (out_result o1) log (out_trace o1)
            /\ out_state o1 = this
            /\ memory_fetches (out_trace o1) = S (memory_fetches log) ->
            degraded pc copper e (out_result o1) log (out_trace o1)
            /\ out_state o1 = this
            /\ memory_fetches
                 (out_trace
                    (run (disassembleLine pc thread) (out_state o1)
                       (out_world o1) (out_trace o1)))
               = S (memory_fetches (out_trace o1))).
  { intros e (Hd & Hst & _). split; [exact Hd|]. split; [exact Hst|].
    rewrite Hst. apply (disassembleLine_miss pc thread this _ _ H). }
  assert (Hcached : forall text,
            out_result o1 = inr {| text := text; isCopper := copper |}
            /\ out_state o1
               = {| lineCache :=
                      <[pc := {| text := text; isCopper := copper |}]>
                        (lineCache this) |}
            /\ errors_logged (out_trace o1) = errors_logged log
            /\ memory_fetches (out_trace o1) = S (memory_fetches log) ->
            out_result o1 = inr {| text := text; isCopper := copper |}
            /\ lineCache (out_state o1)
               = <[pc := {| text := text; isCopper := copper |}]>
                   (lineCache this)
            /\ errors_logged (out_trace o1) = errors_logged log
            /\ run (disassembleLine pc thread) (out_state o1) (out_world o1)
                 (out_trace o1)
               = Build_Outcome C t DisassembledLine
                   (inr {| text := text; isCopper := copper |})
                   (out_state o1) (out_world o1) (out_trace o1)).
  { intros text (Hr & Hst & He & _).
    split; [exact Hr|]. split; [rewrite Hst; reflexivity|].
    split; [exact He|].
    apply disassembleLine_hit. rewrite Hst. apply lookup_insert_eq. }
  repeat match type of Hc with
         | match ?x with _ => _ end => destruct x
         | if ?x then _ else _ => destruct x
         end;
    first [apply (Hretried _ Hc) | apply (Hcached _ Hc)].
Qed.

End DisassembleLine.

(** C5 at the example target, on an empty cache.  On the coprocessor
    thread the line is decoded and cached, and the second call returns
    it without a call; when the reads of memory time out the address
    alone is returned, the error logged, and nothing cached; when they
    are rejected with [undefined] the call throws and nothing is
    cached. *)
Lemma C5_disassembleLine_caching_witness :
  let pc := Num 0x1010 in
  let thread := Thread 1 in
  let line := {| DisassemblyManager.text := "$1010: dc.w $0180,$0000";
                 DisassemblyManager.isCopper := true |} in
  let first := fun C : Collaborators =>
    run (C := C) (DisassemblyManager.disassembleLine pc thread)
      DisassemblyManager.new in
  let second := fun (C : Collaborators) w =>
    run (C := C) (DisassemblyManager.disassembleLine pc thread)
      (out_state (first C w [])) (out_world (first C w []))
      (out_trace (first C w [])) in
  let fetch := Called (GdbGetMemory pc (Num 10)) in
  (out_result (first (demo "00001000" "00002000") tt []) = inr line
   /\ DisassemblyManager.lineCache
        (out_state (first (demo "00001000" "00002000") tt []))
      = {[ pc := line ]}
   /\ memory_fetches (out_trace (first (demo "00001000" "00002000") tt []))
      = 1%nat
   /\ out_result (second (demo "00001000" "00002000") tt) = inr line
   /\ out_trace (second (demo "00001000" "00002000") tt)
      = out_trace (first (demo "00001000" "00002000") tt []))
  /\ (out_result (first unreachable tt [])
      = inr {| DisassemblyManager.text := "$1010: ";
               DisassemblyManager.isCopper := true |}
      /\ out_state (first unreachable tt []) = DisassemblyManager.new
      /\ out_trace (first unreachable tt [])
         = [ Asked (GdbIsCopperThread thread) true;
             fetch (inl (Error "timeout"));
             Asked (ConsoleError "Error ignored: timeout") tt ]
      /\ memory_fetches (out_trace (second unreachable tt)) = 2%nat)
  /\ (out_result (first dropped tt [])
      = inl (TypeError "undefined" "message")
      /\ out_state (first dropped tt []) = DisassemblyManager.new
      /\ out_trace (first dropped tt [])
         = [ Asked (GdbIsCopperThread thread) true; fetch (inl Undefined) ]
      /\ memory_fetches (out_trace (second dropped tt)) = 2%nat).
Proof.
  intros pc thread line first second fetch.
  pose proof (C5_disassembleLine_caching (C := demo "00001000" "00002000")
                pc thread DisassemblyManager.new tt [] eq_refl) as [_ Hdemo].
  pose proof (C5_disassembleLine_caching (C := unreachable)
                pc thread DisassemblyManager.new tt [] eq_refl) as [_ Hunr].
  pose proof (C5_disassembleLine_caching (C := dropped)
                pc thread DisassemblyManager.new tt [] eq_refl) as [_ Hdrop].
  cbv zeta in Hdemo, Hunr, Hdrop.
  split; [|split].
  - destruct Hdemo as (Hr & Hcache & _ & Ho2).
    split; [exact Hr|]. split; [exact Hcache|].
    split; [reflexivity|].
    subst second first. cbv beta. rewrite Ho2. split; [exact Hr|reflexivity].
  - destruct Hunr as ((Hr & _) & Hst & Hf).
    split; [exact Hr|]. split; [exact Hst|].
    split; [reflexivity|]. exact Hf.
  - destruct Hdrop as ((Hr & _) & Hst & Hf).
    split; [exact Hr|]. split; [exact Hst|].
    split; [reflexivity|]. exact Hf.
Defined.

(** ** DisassemblyManager.getStackFrame on a coprocessor frame *)

Section CopperFrame.

Import DisassemblyManager Strings.

Context {C : Collaborators}.

Lemma selectCopperList_line_nonneg (address cop1Addr cop2Addr : number) :
  geb (selectCopperList address cop1Addr cop2Addr).2 (Num 0) = true.
Proof.
  unfold selectCopperList.
  destruct (geb (lineInCop address cop1Addr) (Num 0)) eqn:H1; simpl.
  - destruct (strict_eq (lineInCop address cop2Addr) (Num (-1))
              || leb (lineInCop address cop1Addr) (lineInCop address cop2Addr));
      simpl; [exact H1|].
    destruct (geb (lineInCop address cop2Addr) (Num 0)) eqn:H2; simpl;
      [exact H2 | reflexivity].
  - destruct (geb (lineInCop address cop2Addr) (Num 0)) eqn:H2; simpl;
      [exact H2 | reflexivity].
Qed.

Lemma lineInCop_invalid (address copAddr : number) :
  truthy copAddr = false -> lineInCop address copAddr = Num (-1).
Proof. unfold lineInCop. intros ->. reflexivity. Qed.

(** The frame of a coprocessor line once both list pointers are read. *)
Lemma getStackFrame_copper (stackPosition : GdbStackPosition)
  (thread : GdbThread) (this : t) (w : World C) (log : list Event)
  (line : DisassembledLine) (m1 m2 : string) :
  let address := sp_pc stackPosition in
  let o0 := run (disassembleLine address thread) this w log in
  let w1 := after_query (GdbToRelativeOffset address) (out_world o0) in
  let w2 := after_call (GdbGetMemory (Num 0xdff080) (Num 4)) w1 in
  out_result o0 = inr line ->
  isCopper line = true ->
  answer (GdbGetMemory (Num 0xdff080) (Num 4)) w1 = inr m1 ->
  answer (GdbGetMemory (Num 0xdff084) (Num 4)) w2 = inr m2 ->
  let sel := selectCopperList address (parseInt m1 (Some 16))
               (parseInt m2 (Some 16)) in
  out_result (run (getStackFrame stackPosition thread) this w log)
  = inr (withSource
           (DisassembledFile.setAddressExpression
              ("$" +:+ toString16 sel.1)
              (frameFile true (sp_index stackPosition)))
           sel.2
           (frameAt (sp_index stackPosition) (text line) address)).
Proof.
  intros address o0 w1 w2 Hline Hcop H1 H2 sel.
  unfold getStackFrame. rewrite run_bind, run_await.
  fold address. fold o0. rewrite Hline. rewrite Hcop.
  subst w2 w1. unfold answer, after_call, after_query in *.
  simpl.
  destruct (query C _ (GdbToRelativeOffset address) (out_world o0))
    as [[segmentId offset] wa]. simpl in *.
  rewrite andb_false_r. simpl.
  destruct (respond C _ (GdbGetMemory (Num 14676096) (Num 4)) wa)
    as [r1 wb]. simpl in *. subst r1. simpl.
  destruct (respond C _ (GdbGetMemory (Num 14676100) (Num 4)) wb)
    as [r2 wc]. simpl in *. subst r2. simpl.
  fold sel.
  pose proof (selectCopperList_line_nonneg address (parseInt m1 (Some 16))
                (parseInt m2 (Some 16))) as Hge.
  fold sel in Hge.
  destruct sel as [newAddress lineNumber]. simpl in *.
  rewrite Hge. reflexivity.
Qed.

(** C1 (amended). For a coprocessor frame, once both list pointers are
    read: the candidate line of a valid (non-zero, non-NaN) pointer is
    floor((address - pointer + 4) / 4), and -1 for an invalid one; list 1
    is chosen (the frame's view starts at its pointer and the frame's line
    is its candidate) whenever its candidate is >= 0 and list 2 is
    unavailable or list 1's candidate <= list 2's; otherwise list 2 is
    chosen if its candidate is >= 0; and if neither candidate is
    non-negative the frame keeps the default line 1, on a view that
    starts at the frame's own address. *)
Theorem C1_copper_line_selection (stackPosition : GdbStackPosition)
  (thread : GdbThread) (this : t) (w : World C) (log : list Event)
  (line : DisassembledLine) (m1 m2 : string) :
  let address := sp_pc stackPosition in
  let o0 := run (disassembleLine address thread) this w log in
  let w1 := after_query (GdbToRelativeOffset address) (out_world o0) in
  let w2 := after_call (GdbGetMemory (Num 0xdff080) (Num 4)) w1 in
  out_result o0 = inr line ->
  isCopper line = true ->
  answer (GdbGetMemory (Num 0xdff080) (Num 4)) w1 = inr m1 ->
  answer (GdbGetMemory (Num 0xdff084) (Num 4)) w2 = inr m2 ->
  let cop1Addr := parseInt m1 (Some 16) in
  let cop2Addr := parseInt m2 (Some 16) in
  let lineInCop1 := lineInCop address cop1Addr in
  let lineInCop2 := lineInCop address cop2Addr in
  let frame := out_result (run (getStackFrame stackPosition thread) this w log) in
  (forall copAddr, truthy copAddr = true ->
     lineInCop address copAddr
     = floor_div (add (sub address copAddr) (Num 4)) 4)
  /\ (forall copAddr, truthy copAddr = false ->
        lineInCop address copAddr = Num (-1))
  /\ (geb lineInCop1 (Num 0) = true ->
      truthy cop2Addr = false \/ leb lineInCop1 lineInCop2 = true ->
      frame = inr (copperFrame stackPosition (text line) cop1Addr lineInCop1))
  /\ (~ (geb lineInCop1 (Num 0) = true
         /\ (truthy cop2Addr = false \/ leb lineInCop1 lineInCop2 = true)) ->
      geb lineInCop2 (Num 0) = true ->
      frame = inr (copperFrame stackPosition (text line) cop2Addr lineInCop2))
  /\ (geb lineInCop1 (Num 0) = false ->
      geb lineInCop2 (Num 0) = false ->
      frame = inr (copperFrame stackPosition (text line) address (Num 1))).
Proof.
  intros address o0 w1 w2 Hline Hcop H1 H2 cop1Addr cop2Addr l1 l2 frame.
  pose proof (getStackFrame_copper stackPosition thread this w log line
                m1 m2 Hline Hcop H1 H2) as Hframe.
  cbv zeta in Hframe.
  split; [intros c Hc; unfold lineInCop; rewrite Hc; reflexivity|].
  split; [apply lineInCop_invalid|].
  unfold frame, copperFrame. rewrite Hframe.
  fold address cop1Addr cop2Addr.
  unfold selectCopperList. fold l1 l2.
  split; [|split].
  - intros Hge [Hun | Hle].
    + rewrite Hge. unfold l2. rewrite (lineInCop_invalid _ _ Hun). reflexivity.
    + rewrite Hge, Hle, orb_true_r. reflexivity.
  - intros Hnot Hge2.
    destruct (geb l1 (Num 0)) eqn:Hge1; simpl.
    + destruct (leb l1 l2) eqn:Hle; [exfalso; apply Hnot; auto|].
      rewrite orb_false_r.
      destruct (strict_eq l2 (Num (-1))) eqn:Heq.
      * exfalso. destruct l2 as [|z2]; [discriminate|]. simpl in *.
        apply Z.eqb_eq in Heq. subst z2. discriminate.
      * rewrite Hge2. reflexivity.
    + rewrite Hge2. reflexivity.
  - intros Hge1 Hge2. rewrite Hge1, Hge2. reflexivity.
Qed.

End CopperFrame.

(** C1 (amended) at cop1Addr = 0x1000 with list 2 unavailable and
    pc = 0x1010: list 1's candidate 5 is the frame's line. *)
Lemma C1_copper_line_selection_witness :
  let C := demo "00001000" "00000000" in
  let stackPosition := {| sp_index := Num 0; sp_pc := Num 0x1010 |} in
  out_result
    (run (C := C) (DisassemblyManager.getStackFrame stackPosition (Thread 1))
       DisassemblyManager.new tt [])
  = inr (copperFrame stackPosition "$1010: dc.w $0180,$0000" (Num 0x1000)
           (Num 5)).
Proof.
  intros C stackPosition.
  pose proof (C1_copper_line_selection (C := C) stackPosition (Thread 1)
                DisassemblyManager.new tt []
                {| DisassemblyManager.text := "$1010: dc.w $0180,$0000";
                   DisassemblyManager.isCopper := true |}
                "00001000" "00000000"
                eq_refl eq_refl eq_refl eq_refl) as (_ & _ & Hlist1 & _).
  exact (Hlist1 eq_refl (or_introl eq_refl)).
Defined.

(** C1 as stated fails on its last two parts.  With both list pointers
    invalid (neither candidate is non-negative) the frame still carries a
    source and the line 1; and at cop1Addr = 0x1000, cop2Addr = 0x2000,
    pc = 0x1010 list 1 is not chosen (list 2's candidate is -1019, which
    is neither -1 nor at least 5): the frame's line is 1, not 5, on the
    view that starts at 0x1010. *)
Lemma C1_counterexample :
  let stackPosition := {| sp_index := Num 0; sp_pc := Num 0x1010 |} in
  (DisassemblyManager.lineInCop (Num 0x1010) (Num 0) = Num (-1)
   /\ exists sf,
        out_result
          (run (C := demo "00000000" "00000000")
             (DisassemblyManager.getStackFrame stackPosition (Thread 1))
             DisassemblyManager.new tt []) = inr sf
        /\ sf_line sf = Num 1
        /\ sf_source sf <> None)
  /\ (DisassemblyManager.lineInCop (Num 0x1010) (Num 0x1000) = Num 5
      /\ DisassemblyManager.lineInCop (Num 0x1010) (Num 0x2000) = Num (-1019)
      /\ exists sf,
           out_result
             (run (C := demo "00001000" "00002000")
                (DisassemblyManager.getStackFrame stackPosition (Thread 1))
                DisassemblyManager.new tt []) = inr sf
           /\ sf_line sf = Num 1
           /\ sf_line sf <> Num 5
           /\ sf_source sf
              = Some {| src_name := Some "copper_$1010__500.dbgasm";
                        src_path := Some "disassembly:copper_$1010__500.dbgasm" |}).
Proof.
  intros stackPosition. split.
  - split; [reflexivity|]. eexists. split; [vm_compute; reflexivity|].
    split; [reflexivity | discriminate].
  - split; [reflexivity|]. split; [reflexivity|].
    eexists. split; [vm_compute; reflexivity|].
    split; [reflexivity|]. split; [discriminate | reflexivity].
Qed.

(** ** DisassemblyManager.getStackFrame on a frame inside a segment *)

Section SegmentFrame.

Import DisassemblyManager Strings.

Context {C : Collaborators}.

(** [segmentLineNumber] never throws: it returns the 1-based index of
    the instruction at [offset], and -1 when there is none or when the
    segment cannot be read or decoded. *)
Lemma segmentLineNumber_returns (segmentId offset : number) (s : t)
  (w : World C) (log : list Event) :
  exists n,
    out_result (run (segmentLineNumber segmentId offset) s w log) = inr n
    /\ (forall mem d,
          answer (GdbGetSegmentMemory segmentId) w = inr mem ->
          answer (Disassemble mem None)
            (after_call (GdbGetSegmentMemory segmentId) w) = inr d ->
          n = match findIndex (at_offset offset) (dis_instructions d) with
              | Some index => Num (Z.of_nat index + 1)
              | None => Num (-1)
              end)
    /\ (forall e,
          answer (GdbGetSegmentMemory segmentId) w = inl e -> n = Num (-1)).
Proof.
  unfold segmentLineNumber, getLineNumberInDisassembledSegment, answer,
    after_call.
  simpl.
  destruct (respond C _ (GdbGetSegmentMemory segmentId) w) as [[e|mem] w1];
    simpl.
  - eexists. split; [reflexivity|]. split; [discriminate | reflexivity].
  - destruct (respond C _ (Disassemble mem None) w1) as [[e|d] w2] eqn:Hd;
      simpl.
    + eexists. split; [reflexivity|].
      split; [|discriminate].
      intros mem' d' Hm. inversion Hm; subst mem'. rewrite Hd. discriminate.
    + destruct (findIndex (at_offset offset) (dis_instructions d))
        as [index|] eqn:Hi; simpl.
      * assert (Ht : truthy (Num (Z.of_nat index + 1)) = true).
        { simpl. apply negb_true_iff, Z.eqb_neq. lia. }
        simpl in Ht. rewrite Ht. simpl.
        eexists. split; [reflexivity|]. split; [|discriminate].
        intros mem' d' Hm. inversion Hm; subst mem'. rewrite Hd.
        simpl. intros Hd'. inversion Hd'; subst d'. rewrite Hi. reflexivity.
      * eexists. split; [reflexivity|]. split; [|discriminate].
        intros mem' d' Hm. inversion Hm; subst mem'. rewrite Hd.
        simpl. intros Hd'. inversion Hd'; subst d'. rewrite Hi. reflexivity.
Qed.

Local Opaque segmentLineNumber.


End SegmentFrame.



(** ** DisassemblyManager.getAddressForFileEditorLine *)

Section FileEditorLine.

Import DisassemblyManager Strings.

Context {C : Collaborators}.

Local Opaque instructionsOfFile DisassembledFile.fromPath.

(** C8 (amended). [getAddressForFileEditorLine] throws when the line
    number is not above 0, when the path matches none of the three
    shapes, and when the identity cannot be resolved to instructions;
    when the line number exceeds the number of decoded instructions it
    throws an error whose message reports the zero-based index
    lineNumber - 1 and the number of instructions; otherwise it returns
    the address of the instruction at the 1-based [lineNumber]. *)
Theorem C8_getAddressForFileEditorLine (filePath : string)
  (lineNumber : number) (this : t) (w : World C) (log : list Event) :
  let o := run (getAddressForFileEditorLine filePath lineNumber) this w log in
  (gtb lineNumber (Num 0) = false ->
   o = Build_Outcome C t number
         (inl (Error ("Invalid line number: '" +:+ toString lineNumber
                      +:+ "'")))
         this w log)
  /\ (gtb lineNumber (Num 0) = true ->
      match DisassembledFile.fromPath filePath with
      | inl e =>
          out_result o = inl e
          /\ e = Error ("Unrecognised filename format " +:+ filePath)
      | inr dAsmFile =>
          match out_result (run (instructionsOfFile filePath dAsmFile)
                              this w log) with
          | inl e => out_result o = inl e
          | inr None =>
              out_result o
              = inl (Error ("Searched line " +:+ toString lineNumber
                            +:+ " has no instructions"))
          | inr (Some instructions) =>
              forall n, lineNumber = Num n ->
                (Z.of_nat (List.length instructions) < n ->
                 out_result o
                 = inl (Error ("Searched line " +:+ toString (Num (n - 1))
                               +:+ " greater than file " +:+ quote
                               +:+ filePath +:+ quote +:+ " length: "
                               +:+ toString
                                     (Num (Z.of_nat (List.length instructions))))))
                /\ (n <= Z.of_nat (List.length instructions) ->
                    exists instr,
                      instructions !! Z.to_nat (n - 1) = Some instr
                      /\ out_result o
                         = inr (parseInt (di_address instr) (Some 16)))
          end
      end).
Proof.
  intros o. subst o. unfold getAddressForFileEditorLine. split.
  - intros ->. reflexivity.
  - intros Hgt. rewrite Hgt.
    destruct (DisassembledFile.fromPath filePath) as [e|dAsmFile] eqn:Hp;
      simpl.
    + split; [reflexivity | apply fromPath_error; exact Hp].
    + rewrite run_bind. simpl. rewrite run_bind.
      destruct (out_result (run (instructionsOfFile filePath dAsmFile)
                              this w log))
        as [e|[instructions|]]; simpl; try reflexivity.
      intros n ->. simpl in Hgt. apply Z.ltb_lt in Hgt.
      unfold count. simpl. split.
      * intros Hlt.
        destruct (n - 1 <? Z.of_nat (List.length instructions)) eqn:Hb;
          [apply Z.ltb_lt in Hb; lia | reflexivity].
      * intros Hle.
        destruct (n - 1 <? Z.of_nat (List.length instructions)) eqn:Hb;
          [|apply Z.ltb_ge in Hb; lia].
        destruct (0 <=? n - 1) eqn:H0; [|apply Z.leb_gt in H0; lia].
        apply Z.ltb_lt in Hb.
        destruct (lookup_lt_is_Some_2 instructions (Z.to_nat (n - 1)))
          as [instr Hi]; [lia|].
        exists instr. rewrite Hi. split; reflexivity.
Qed.

End FileEditorLine.

(** C8 (amended) on the segment view of the example target, whose two
    instructions are at 0x20000 and 0x20002. *)
Lemma C8_getAddressForFileEditorLine_witness :
  let C := demo "00001000" "00002000" in
  let run_line n :=
    out_result
      (run (C := C)
         (DisassemblyManager.getAddressForFileEditorLine "seg_0.dbgasm" (Num n))
         DisassemblyManager.new tt []) in
  run_line 0 = inl (Error "Invalid line number: '0'")
  /\ run_line 3
     = inl (Error ("Searched line 2 greater than file " +:+ quote
                   +:+ "seg_0.dbgasm" +:+ quote +:+ " length: 2"))
  /\ exists instr,
       demo_instructions 0x20000 !! 1%nat = Some instr
       /\ run_line 2 = inr (parseInt (di_address instr) (Some 16)).
Proof.
  intros C run_line.
  pose proof (C8_getAddressForFileEditorLine (C := C) "seg_0.dbgasm" (Num 0)
                DisassemblyManager.new tt []) as (H0 & _).
  pose proof (C8_getAddressForFileEditorLine (C := C) "seg_0.dbgasm" (Num 3)
                DisassemblyManager.new tt []) as (_ & H3).
  pose proof (C8_getAddressForFileEditorLine (C := C) "seg_0.dbgasm" (Num 2)
                DisassemblyManager.new tt []) as (_ & H2).
  split; [|split].
  - unfold run_line. rewrite (H0 eq_refl). reflexivity.
  - destruct (H3 eq_refl 3 eq_refl) as (Hlt & _).
    exact (Hlt ltac:(vm_compute; reflexivity)).
  - destruct (H2 eq_refl 2 eq_refl) as (_ & Hle).
    exact (Hle ltac:(vm_compute; discriminate)).
Defined.

(** C8 as stated fails on the message: asked for line 5 of a view of two
    instructions, the error reports 4 and 2, and not the requested 5. *)
Lemma C8_counterexample :
  exists message,
    out_result
      (run (C := demo "00001000" "00002000")
         (DisassemblyManager.getAddressForFileEditorLine "seg_0.dbgasm" (Num 5))
         DisassemblyManager.new tt [])
    = inl (Error message)
    /\ includes (toString (Num 5)) message = false
    /\ includes (toString (Num 4)) message = true
    /\ includes (toString (Num 2)) message = true.
Proof.
  eexists. split; [vm_compute; reflexivity|].
  repeat split; vm_compute; reflexivity.
Qed.

(** ** BreakpointManager.setBreakpoint *)

Section SetBreakpoint.

Import BreakpointManager.

Context {C : Collaborators}.
Variable isDisassembledFile : string -> bool.




End SetBreakpoint.


(** ** BreakpointManager.clearBreakpointsType *)

Section ClearBreakpoints.

Import BreakpointManager.

Context {C : Collaborators}.
Variable isDisassembledFile : string -> bool.
Variable type : GdbBreakpointType.
Variable source : option Source.

Lemma removals_snoc (log : list Event) (ev : Event) :
  removals (log ++ [ev]) = removals log ++ removal ev.
Proof.
  unfold removals. rewrite map_app, concat_app. simpl.
  rewrite app_nil_r. reflexivity.
Qed.

(** The loop keeps the objects and the manager as they are; it asks the
    target to remove the entries that pass the test, in order; it keeps
    the others and those the target refused. *)
Lemma clearLoop_spec (bps : list ref) :
  forall (hasError : bool) (remaining : list ref) (m : Mem) (w : World C)
         (log : list Event),
  let matches := fun bp => toClear isDisassembledFile type source (objects m bp) in
  let o := run (clearLoop isDisassembledFile type source bps hasError remaining)
             m w log in
  out_state o = m
  /\ exists attempts kept,
       out_result o
       = inr (hasError || existsb (fun a => negb a.2) attempts,
              remaining ++ kept)
       /\ removals (out_trace o) = removals log ++ attempts
       /\ map fst attempts = List.filter matches bps
       /\ List.filter (fun bp => negb (matches bp)) kept
          = List.filter (fun bp => negb (matches bp)) bps
       /\ List.filter matches kept = failures attempts
       /\ sublist kept bps.
Proof.
  induction bps as [|bp rest IH]; intros hasError remaining m w log;
    cbv zeta.
  - simpl. split; [reflexivity|]. exists [], []. simpl.
    rewrite orb_false_r, !app_nil_r. repeat split. constructor.
  - simpl.
    destruct (toClear isDisassembledFile type source (objects m bp)) eqn:Hm;
      simpl.
    + destruct (respond C () (GdbRemoveBreakpoint bp (objects m bp)) w)
        as [[e|[]] w1] eqn:Hr; simpl.
      * destruct (IH true (remaining ++ [bp]) m w1
                    (log ++ [Called (GdbRemoveBreakpoint bp (objects m bp))
                               (inl e)]))
          as (Hst & attempts & kept & Hres & Htr & Hat & Hk1 & Hk2 & Hsub).
        split; [exact Hst|].
        exists ((bp, false) :: attempts), (bp :: kept).
        rewrite Hres, Htr, removals_snoc. simpl.
        rewrite Hm. simpl.
        rewrite orb_true_r, <- !app_assoc. simpl.
        unfold failures in *. simpl.
        repeat split; try congruence.
        constructor. exact Hsub.
      * destruct (IH hasError remaining m w1
                    (log ++ [Called (GdbRemoveBreakpoint bp (objects m bp))
                               (inr ())]))
          as (Hst & attempts & kept & Hres & Htr & Hat & Hk1 & Hk2 & Hsub).
        split; [exact Hst|].
        exists ((bp, true) :: attempts), kept.
        rewrite Hres, Htr, removals_snoc. simpl.
        rewrite <- !app_assoc. simpl.
        unfold failures in *. simpl.
        repeat split; try congruence.
        constructor. exact Hsub.
    + destruct (IH hasError (remaining ++ [bp]) m w log)
        as (Hst & attempts & kept & Hres & Htr & Hat & Hk1 & Hk2 & Hsub).
      split; [exact Hst|].
      exists attempts, (bp :: kept).
      rewrite !run_bind. simpl.
      rewrite Hres, Htr. simpl. rewrite Hm. simpl.
      rewrite <- !app_assoc. simpl.
      unfold failures in *. simpl.
      repeat split; try congruence.
      constructor. exact Hsub.
Qed.







End ClearBreakpoints.


(** ** The pending flush under interleaving *)

Section FlushProperties.

Import BreakpointManager Interleaving.

Context {C : Collaborators}.
Variable isDisassembledFile : string -> bool.

Lemma appends_settle {A B : Type} (p : async Mem A)
  (k : result A -> async Mem B) :
  appends p -> (forall r, appends (k r)) -> appends (settle p k).
Proof.
  intros Hp Hk.
  induction p as [a|e|R f k' IH|R q k' IH|R c k' IH|k' IH]; simpl in *;
    auto.
  intros m. destruct (Hp m) as [Hq Hrest]. split; [exact Hq|].
  apply IH. exact Hrest.
Qed.

Ltac appends_step :=
  match goal with
  | |- forall _, _ => intro
  | |- _ /\ _ => split
  | |- True => exact I
  | |- exists added, _ = _ ++ added =>
      first [exists []; rewrite app_nil_r; reflexivity
            | eexists; reflexivity]
  | |- appends (match ?x with _ => _ end) => destruct x
  | |- appends (settle _ _) => apply appends_settle
  | |- appends _ =>
      progress unfold bind, try_catch, await, call, ask, modify, store, load,
        get, gdbSetBreakpoint, pushBreakpoint, addLocation,
        addPendingBreakpoint, acquireLock
  end.

Ltac appends_all := unfold queue; repeat (simpl; appends_step).

Lemma appends_setBreakpoint (bp : ref) :
  appends (setBreakpoint isDisassembledFile bp).
Proof. unfold setBreakpoint. appends_all. Qed.

Lemma appends_releaseLock : appends releaseLock.
Proof. unfold releaseLock. appends_all. Qed.

Lemma advance_appends {A : Type} (p : async Mem A) :
  forall (m : Mem) (w : World C) (p' : async Mem A) (m' : Mem) (w' : World C),
  appends p ->
  advance p m w = (p', m', w') ->
  appends p' /\ exists added, queue m' = queue m ++ added.
Proof.
  induction p as [a|e|R f k IH|R q k IH|R c k IH|k IH];
    intros m w p' m' w' Hp Hadv; simpl in *.
  - inversion Hadv; subst. split; [exact I|]. exists []. rewrite app_nil_r. reflexivity.
  - inversion Hadv; subst. split; [exact I|]. exists []. rewrite app_nil_r. reflexivity.
  - destruct (Hp m) as [[added Hq] Hrest].
    destruct (f m) as [r m1] eqn:Hf. simpl in *.
    destruct (IH r m1 w p' m' w' Hrest Hadv) as [Hp' [added' Hq']].
    split; [exact Hp'|]. exists (added ++ added').
    rewrite Hq', Hq, app_assoc. reflexivity.
  - destruct (query C R q w) as [r w1]. eapply IH; eauto.
  - inversion Hadv; subst. split; [exact Hp|]. exists []. rewrite app_nil_r. reflexivity.
  - inversion Hadv; subst. split; [exact Hp|]. exists []. rewrite app_nil_r. reflexivity.
Qed.

Lemma resumes_appends {A : Type} (p p' : async Mem A) :
  appends p -> resumes p p' -> appends p'.
Proof. intros Hp Hr. destruct Hr; simpl in Hp; auto. Qed.

Lemma continues_appends {A : Type} (p0 p : async Mem A) :
  appends p0 -> continues (C := C) p0 p -> appends p.
Proof.
  intros H0 Hc. induction Hc as [s w|p p' s w Hc IH Hr].
  - destruct (advance p0 s w) as [[q m1] w1] eqn:Hadv. simpl.
    eapply advance_appends; eauto.
  - destruct (advance p' s w) as [[q m1] w1] eqn:Hadv. simpl.
    eapply advance_appends; [|exact Hadv].
    eapply resumes_appends; eauto.
Qed.

End FlushProperties.

Section FlushSteps.

Import BreakpointManager Interleaving.

Context {C : Collaborators}.
Variable isDisassembledFile : string -> bool.

Local Opaque setBreakpoint.

Lemma startAll_spec (pending : list ref) :
  forall (m : Mem) (w : World C) (calls : list (async Mem bool)) (m' : Mem)
         (w' : World C),
  startAll isDisassembledFile pending m w = (calls, m', w') ->
  Forall2 (call_of (C := C) isDisassembledFile) pending calls
  /\ exists added, queue m' = queue m ++ added.
Proof.
  induction pending as [|bp rest IH]; intros m w calls m' w' Hs; simpl in Hs.
  - inversion Hs; subst. split; [constructor|].
    exists []. rewrite app_nil_r. reflexivity.
  - destruct (advance (setBreakpoint isDisassembledFile bp) m w)
      as [[c m1] w1] eqn:Hadv.
    destruct (startAll isDisassembledFile rest m1 w1) as [[cs m2] w2] eqn:Hrest.
    inversion Hs; subst.
    destruct (IH m1 w1 cs m' w' Hrest) as [Hcalls [added' Hq']].
    destruct (advance_appends _ _ _ _ _ _
                (appends_setBreakpoint isDisassembledFile bp) Hadv)
      as [_ [added Hq]].
    split.
    + constructor; [|exact Hcalls].
      unfold call_of.
      replace c with (advance (setBreakpoint isDisassembledFile bp) m w).1.1
        by (rewrite Hadv; reflexivity).
      constructor.
    + exists (added ++ added'). rewrite Hq', Hq, app_assoc. reflexivity.
Qed.

Lemma swaps_capturePending : swaps capturePending.
Proof.
  unfold capturePending, get, bind, await, acquireLock, call, modify.
  simpl. intros m. right. split; [reflexivity|].
  destruct (0 <? List.length (pendingBreakpoints (this m)))%nat; simpl;
    [|exact I].
  intros [e|[]]; simpl; [exact I|].
  intros m1. right. split; [reflexivity|]. simpl.
  intros m2. left. split; reflexivity.
Qed.

Lemma resumes_swaps (p p' : async Mem (option (list ref))) :
  swaps p -> resumes p p' -> swaps p'.
Proof. intros Hp Hr. destruct Hr; simpl in Hp; auto. Qed.

(** Running code that [swaps] to its next suspension either hands over
    the whole queue and leaves it empty, or leaves the queue as it was. *)
Lemma advance_swaps (p : async Mem (option (list ref))) :
  forall (m : Mem) (w : World C) (q : async Mem (option (list ref)))
         (m1 : Mem) (w1 : World C),
  swaps p ->
  advance p m w = (q, m1, w1) ->
  (q = Ret (Some (queue m)) /\ queue m1 = [])
  \/ (swaps q /\ queue m1 = queue m
      /\ forall pending, q <> Ret (Some pending)).
Proof.
  induction p as [a|e|R f k IH|R qq k IH|R c k IH|k IH];
    intros m w q m1 w1 Hp Hadv; simpl in *.
  - inversion Hadv; subst. destruct a as [pending|]; [contradiction|].
    right. repeat split; auto; try discriminate.
  - inversion Hadv; subst. right. repeat split; auto; try discriminate.
  - destruct (Hp m) as [[Hk Hq] | [Hq Hrest]].
    + destruct (f m) as [r m'] eqn:Hf. simpl in *.
      rewrite Hk in Hadv. simpl in Hadv. inversion Hadv; subst.
      left. split; [reflexivity | exact Hq].
    + destruct (f m) as [r m'] eqn:Hf. simpl in *.
      destruct (IH r m' w q m1 w1 Hrest Hadv)
        as [[Hret Hemp] | (Hs & Hsame & Hne)].
      * left. rewrite Hq in Hret. split; assumption.
      * right. rewrite Hq in Hsame. repeat split; assumption.
  - destruct (query C R qq w) as [r w']. eapply IH; eauto.
  - inversion Hadv; subst. right. repeat split; auto; try discriminate.
  - inversion Hadv; subst. right. repeat split; auto; try discriminate.
Qed.

End FlushSteps.

Section FlushInvariant.

Import BreakpointManager Interleaving.

Context {C : Collaborators}.
Variable isDisassembledFile : string -> bool.

Local Opaque setBreakpoint releaseLock.

Lemma snoc_dispatch (ls ls1 ls2 : list Label) (l d : Label) :
  ls ++ [l] = ls1 ++ d :: ls2 ->
  (ls2 = [] /\ l = d /\ ls = ls1)
  \/ exists ls2', ls2 = ls2' ++ [l] /\ ls = ls1 ++ d :: ls2'.
Proof.
  intros H. destruct ls2 as [|x ls2' _] using rev_ind.
  - apply app_inj_tail in H as [H1 H2]. left. auto.
  - right. exists ls2'.
    change (ls ++ [l] = ls1 ++ (d :: ls2') ++ [x]) in H.
    rewrite app_assoc in H.
    apply app_inj_tail in H as [H1 H2]. subst. auto.
Qed.

Lemma no_dispatch_snoc (ls : list Label) (l : Label) :
  no_dispatch ls -> is_dispatch l = false -> no_dispatch (ls ++ [l]).
Proof.
  unfold no_dispatch. intros H1 H2. rewrite forallb_app, H1. simpl.
  rewrite H2. reflexivity.
Qed.

Lemma no_dispatch_middle (ls1 ls2 : list Label) (held captured left : list ref) :
  ~ no_dispatch (ls1 ++ Dispatched held captured left :: ls2).
Proof.
  unfold no_dispatch. rewrite forallb_app. simpl.
  rewrite andb_false_r. discriminate.
Qed.

Lemma added_snoc (ls : list Label) (l : Label) :
  concat (map added_by_others (ls ++ [l]))
  = concat (map added_by_others ls) ++ added_by_others l.
Proof. rewrite map_app, concat_app. simpl. rewrite app_nil_r. reflexivity. Qed.

(** A step that is no dispatch, from a configuration that dispatched
    before or not at all, keeps what [dispatched_once] states, provided
    the queue only grew by what the label says and the calls are still
    calls of the captured entries. *)
Lemma dispatched_once_snoc (ls : list Label) (l : Label) (c1 c2 : Config) :
  is_dispatch l = false ->
  (forall ls1 held captured left ls2,
     ls = ls1 ++ Dispatched held captured left :: ls2 ->
     dispatched_once (C := C) isDisassembledFile ls1 held captured left ls2 c1) ->
  (exists more, queue (mem c2) = queue (mem c1) ++ added_by_others l ++ more) ->
  (forall captured calls,
     flush c1 = Joining calls ->
     Forall2 (call_of (C := C) isDisassembledFile) captured calls ->
     match flush c2 with
     | Joining calls' =>
         Forall2 (call_of (C := C) isDisassembledFile) captured calls'
     | Finished _ => True
     | Capturing _ => False
     end) ->
  (forall p, flush c1 = Capturing p -> no_dispatch ls) ->
  (forall r, flush c1 = Finished r -> flush c2 = Finished r) ->
  forall ls1 held captured left ls2,
    ls ++ [l] = ls1 ++ Dispatched held captured left :: ls2 ->
    dispatched_once (C := C) isDisassembledFile ls1 held captured left ls2 c2.
Proof.
  intros Hl IH [more Hq] Hcalls Hcap Hfin ls1 held captured left ls2 Hdec.
  apply snoc_dispatch in Hdec as [(_ & Hd & _) | (ls2' & -> & Hls)].
  { subst l. discriminate Hl. }
  destruct (IH _ _ _ _ _ Hls) as (Hc & Hleft & Hnd & Hflush & Hsub).
  repeat split; auto.
  - rewrite app_assoc. apply no_dispatch_snoc; assumption.
  - destruct (flush c1) as [p|calls|r] eqn:Hf; [contradiction| |].
    + apply (Hcalls captured calls eq_refl Hflush).
    + rewrite (Hfin r eq_refl). exact I.
  - rewrite added_snoc, Hq, app_assoc.
    apply sublist_inserts_r. apply sublist_app; [exact Hsub | reflexivity].
Qed.

Lemma captured_not_dispatch (q : async Mem (option (list ref)))
  (m1 m2 : Mem) (w1 : World C) (f : Flush) :
  (forall pending, q <> Ret (Some pending)) ->
  captured isDisassembledFile q m1 w1 = (f, m2) ->
  m2 = m1
  /\ (forall m, label_of q m m1 = Resumed)
  /\ (f = Capturing q \/ exists r, f = Finished r).
Proof.
  intros Hne Hc.
  destruct q as [[pending|]|e|R g k|R qq k|R c k|k]; simpl in *;
    try (inversion Hc; subst; repeat split; eauto; fail).
  exfalso. eapply Hne. reflexivity.
Qed.

Lemma calls_append (pending : list ref) (calls : list (async Mem bool)) :
  Forall2 (call_of (C := C) isDisassembledFile) pending calls ->
  Forall appends calls.
Proof.
  intros H. induction H as [|bp c pending calls Hc _ IH]; constructor; auto.
  unfold call_of in Hc.
  eapply continues_appends; [|exact Hc].
  apply appends_setBreakpoint.
Qed.

Lemma flush_invariant_start (m0 : Mem) (w0 : World C) :
  flush_invariant (C := C) isDisassembledFile []
    (sendAllPendingBreakpoints isDisassembledFile m0 w0).
Proof.
  unfold sendAllPendingBreakpoints.
  destruct (advance capturePending m0 w0) as [[p m1] w1] eqn:Hadv.
  destruct (captured isDisassembledFile p m1 w1) as [f m2] eqn:Hc.
  split.
  - simpl.
    destruct (advance_swaps _ _ _ _ _ _ swaps_capturePending Hadv)
      as [[Hret _] | (Hs & _ & Hne)].
    + subst p. simpl in Hc.
      destruct (startAll isDisassembledFile (queue m0) m1 w1)
        as [[calls m'] w'] eqn:Hst.
      inversion Hc; subst.
      destruct (startAll_spec isDisassembledFile _ _ _ _ _ _ Hst) as [Hcalls _].
      eapply calls_append. exact Hcalls.
    + destruct (captured_not_dispatch _ _ _ _ _ Hne Hc)
        as (_ & _ & [-> | [r ->]]); [|exact I].
      split; [exact Hs | reflexivity].
  - intros ls1 held cap left ls2 H. destruct ls1; discriminate H.
Qed.

(** Every step keeps the invariant. *)
Lemma flush_invariant_step (ls : list Label) (l : Label) (c1 c2 : Config) :
  flush_invariant (C := C) isDisassembledFile ls c1 ->
  step (C := C) isDisassembledFile c1 l c2 ->
  flush_invariant (C := C) isDisassembledFile (ls ++ [l]) c2.
Proof.
  intros [Hshape Hdisp] Hstep.
  destruct Hstep as [p p' q m m1 m2 w w1 f Hres Hadv Hcap
                    | calls i c c' c'' m m1 w w1 Hi Hres Hadv
                    | calls results m m1 w w1 Hcalls Hadv
                    | calls i e m Hi
                    | f m m' added Hq]; simpl in *.
  - (* the code before Promise.all resumes *)
    destruct Hshape as [Hs Hnd].
    pose proof (resumes_swaps _ _ Hs Hres) as Hs'.
    destruct (advance_swaps _ _ _ _ _ _ Hs' Hadv)
      as [[Hret Hemp] | (Hsq & Hsame & Hne)].
    + (* it captures the queue and starts the calls *)
      subst q. simpl in *.
      destruct (startAll isDisassembledFile (queue m) m1 w1)
        as [[calls m'] w'] eqn:Hst.
      inversion Hcap; subst f m2.
      destruct (startAll_spec isDisassembledFile _ _ _ _ _ _ Hst)
        as [Hcalls [more Hmore]].
      split.
      * simpl. eapply calls_append. exact Hcalls.
      * intros ls1 held cap left ls2 Hdec.
        apply snoc_dispatch in Hdec as [(-> & Hd & <-) | (ls2' & _ & Hls)].
        -- inversion Hd; subst. repeat split; simpl; auto.
           ++ rewrite app_nil_r. exact Hnd.
           ++ apply sublist_nil_l.
        -- exfalso. subst ls. eapply no_dispatch_middle. exact Hnd.
    + (* it suspends again, or ends without an array *)
      destruct (captured_not_dispatch _ _ _ _ _ Hne Hcap)
        as (-> & Hlab & Hf).
      rewrite Hlab. split.
      * destruct Hf as [-> | [r ->]]; simpl; [|exact I].
        split; [exact Hsq|]. apply no_dispatch_snoc; auto.
      * intros ls1 held cap left ls2 Hdec.
        apply snoc_dispatch in Hdec as [(_ & Hd & _) | (ls2' & _ & Hls)];
          [discriminate Hd|].
        exfalso. subst ls. eapply no_dispatch_middle. exact Hnd.
  - (* a call resumes *)
    pose proof (proj1 (Forall_lookup _ _) Hshape i c Hi) as Hc.
    destruct (advance_appends _ _ _ _ _ _ (resumes_appends _ _ Hc Hres) Hadv)
      as [Hc'' [more Hmore]].
    split.
    + simpl. apply Forall_insert; assumption.
    + apply (dispatched_once_snoc ls Resumed
               {| flush := Joining calls; mem := m |});
        simpl; [reflexivity | exact Hdisp | | | discriminate | discriminate].
      * exists more. exact Hmore.
      * intros cap calls0 Heq H2. inversion Heq; subst calls0.
        destruct (Forall2_lookup_r _ _ _ _ _ H2 Hi) as (bp & Hbp & Hcall).
        rewrite <- (list_insert_id cap i bp Hbp).
        apply Forall2_insert; [exact H2|].
        unfold call_of in *.
        replace c'' with (advance c' m w).1.1 by (rewrite Hadv; reflexivity).
        econstructor; eassumption.
  - (* Promise.all is fulfilled and the lock released *)
    destruct (advance_appends _ _ _ _ _ _ appends_releaseLock Hadv)
      as [_ [more Hmore]].
    split; [exact I|].
    apply (dispatched_once_snoc ls Settled
             {| flush := Joining calls; mem := m |});
      simpl; [reflexivity | exact Hdisp | | auto | discriminate | discriminate].
    exists more. exact Hmore.
  - (* Promise.all is rejected *)
    split; [exact I|].
    apply (dispatched_once_snoc ls Settled
             {| flush := Joining calls; mem := m |});
      simpl; [reflexivity | exact Hdisp | | auto | discriminate | discriminate].
    exists []. rewrite app_nil_r. reflexivity.
  - (* another caller appends to the queue *)
    split.
    + destruct f as [p|calls|r]; simpl in *; auto.
      destruct Hshape as [Hs Hnd]. split; [exact Hs|].
      apply no_dispatch_snoc; auto.
    + apply (dispatched_once_snoc ls (Other added)
               {| flush := f; mem := m |});
        simpl; [reflexivity | exact Hdisp | | | | ].
      * exists []. rewrite app_nil_r. exact Hq.
      * intros cap calls0 -> H2. exact H2.
      * intros p ->. apply Hshape.
      * intros r ->. reflexivity.
Qed.

Lemma flush_invariant_steps (c0 : Config) (ls : list Label) (cfg : Config) :
  flush_invariant (C := C) isDisassembledFile [] c0 ->
  steps (C := C) isDisassembledFile c0 ls cfg ->
  flush_invariant (C := C) isDisassembledFile ls cfg.
Proof.
  intros H0 H. induction H as [c|c c1 c2 ls l Hsteps IH Hstep].
  - exact H0.
  - eapply flush_invariant_step; eauto.
Qed.

Lemma step_capturing_labelled (p p' q : async Mem (option (list ref)))
  (m m1 m2 : Mem) (w w1 : World C) (f : Flush) (l : Label) :
  resumes p p' ->
  advance p' m w = (q, m1, w1) ->
  captured isDisassembledFile q m1 w1 = (f, m2) ->
  l = label_of q m m1 ->
  step (C := C) isDisassembledFile {| flush := Capturing p; mem := m |} l
    {| flush := f; mem := m2 |}.
Proof. intros Hr Ha Hc ->. econstructor; eauto. Qed.

(** What a resumption and a step of the code before [Promise.all]
    are made of. *)
Lemma resumes_inv {S A : Type} (p p' : async S A) :
  resumes p p' ->
  match p with
  | Await c k => exists r, p' = k r
  | Yield k => p' = k
  | _ => False
  end.
Proof. intros H. destruct H; eauto. Qed.

Lemma step_capturing_inv (p : async Mem (option (list ref))) (m : Mem)
  (l : Label) (cfg : Config) :
  step (C := C) isDisassembledFile {| flush := Capturing p; mem := m |} l cfg ->
  (exists added, l = Other added /\ flush cfg = Capturing p)
  \/ exists p' q m1 (w w1 : World C),
       resumes p p'
       /\ advance p' m w = (q, m1, w1)
       /\ l = label_of q m m1
       /\ cfg = {| flush := (captured isDisassembledFile q m1 w1).1;
                   mem := (captured isDisassembledFile q m1 w1).2 |}.
Proof.
  intros H. inversion H; subst.
  - right. eexists _, _, _, _, _. split; [eassumption|].
    split; [eassumption|]. split; [reflexivity|].
    match goal with Hc : captured _ _ _ _ = _ |- _ => rewrite Hc end.
    reflexivity.
  - left. eexists. split; reflexivity.
Qed.

(** C3. A call of [sendAllPendingBreakpoints] on an empty queue does
    nothing.  On a queue that holds entries it waits for the lock, the
    queue untouched; when the lock is granted, the next step of the
    flush, whatever other callers did to the queue in between, hands the
    whole queue held at that moment (its N entries) to [map], leaves an
    empty queue in its place, and starts one call of [setBreakpoint]
    per captured entry, in order; a rejected lock ends the flush with
    that rejection.  In every execution, whatever the collaborators
    answer and however the calls and the other callers interleave, the
    flush captures and dispatches at most once; from then on the calls
    in progress are one call of [setBreakpoint] per captured entry, in
    order, and no other; and the entries other callers append to the
    queue after that step are in the queue, in the order they were
    appended. *)
Theorem C3_sendAllPendingBreakpoints (m0 : Mem) (w0 : World C) :
  let c0 := sendAllPendingBreakpoints isDisassembledFile m0 w0 in
  (queue m0 = [] -> c0 = {| flush := Finished (inr tt); mem := m0 |})
  /\ (queue m0 <> [] ->
      exists k granted,
        let waiting := Await (MutexCapture "breakpointLock") k in
        c0 = {| flush := Capturing waiting; mem := m0 |}
        /\ (forall m,
              step (C := C) isDisassembledFile
                {| flush := Capturing waiting; mem := m |} Resumed
                {| flush := Capturing granted;
                   mem := set_breakpointLock true m |})
        /\ (forall m l cfg,
              step (C := C) isDisassembledFile
                {| flush := Capturing waiting; mem := m |} l cfg ->
              (exists added, l = Other added /\ flush cfg = Capturing waiting)
              \/ (l = Resumed
                  /\ (cfg = {| flush := Capturing granted;
                               mem := set_breakpointLock true m |}
                      \/ exists e,
                           cfg = {| flush := Capturing (Yield (Throw e));
                                    mem := m |})))
        /\ (forall m, exists calls m',
              step (C := C) isDisassembledFile
                {| flush := Capturing granted; mem := m |}
                (Dispatched (queue m) (queue m) [])
                {| flush := Joining calls; mem := m' |})
        /\ (forall m l cfg,
              step (C := C) isDisassembledFile
                {| flush := Capturing granted; mem := m |} l cfg ->
              (exists added, l = Other added /\ flush cfg = Capturing granted)
              \/ (l = Dispatched (queue m) (queue m) []
                  /\ exists calls,
                       flush cfg = Joining calls
                       /\ Forall2 (call_of (C := C) isDisassembledFile)
                            (queue m) calls
                       /\ List.length calls = List.length (queue m))))
  /\ (forall ls cfg,
        steps (C := C) isDisassembledFile c0 ls cfg ->
        forall ls1 held captured left ls2,
          ls = ls1 ++ Dispatched held captured left :: ls2 ->
          captured = held
          /\ left = []
          /\ no_dispatch (ls1 ++ ls2)
          /\ match flush cfg with
             | Joining calls =>
                 Forall2 (call_of (C := C) isDisassembledFile) captured calls
                 /\ List.length calls = List.length captured
             | Finished _ => True
             | Capturing _ => False
             end
          /\ concat (map added_by_others ls2) `sublist_of` queue (mem cfg)).
Proof.
  cbv zeta. split; [|split].
  - unfold sendAllPendingBreakpoints, capturePending, queue. simpl.
    intros ->. reflexivity.
  - intros Hne.
    unfold sendAllPendingBreakpoints, capturePending, queue in *. simpl.
    destruct (pendingBreakpoints (this m0)) as [|bp rest] eqn:Hq;
      [congruence|]. simpl.
    eexists _, _. split; [reflexivity|].
    split; [|split; [|split]].
    + intros m.
      eapply (step_capturing_labelled _ _ _ m _ _ w0 w0).
      * apply (resumes_await _ _ _ (inr tt)).
      * simpl. reflexivity.
      * simpl. reflexivity.
      * reflexivity.
    + intros m l cfg Hstep.
      apply step_capturing_inv in Hstep
        as [Hother | (p' & q & m1 & w & w1 & Hres & Hadv & -> & ->)];
        [left; exact Hother|].
      right. apply resumes_inv in Hres as [[e|[]] ->]; simpl in Hadv;
        inversion Hadv; subst; simpl.
      * split; [reflexivity|]. right. eexists. reflexivity.
      * split; [reflexivity|]. left. reflexivity.
    + intros m.
      destruct (startAll isDisassembledFile (queue m)
                  (set_pendingBreakpoints [] m) w0) as [[calls m'] w'] eqn:Hst.
      exists calls, m'.
      eapply (step_capturing_labelled _ _ _ m _ _ w0 w0).
      * apply resumes_yield.
      * simpl. reflexivity.
      * simpl. unfold queue in Hst. rewrite Hst. reflexivity.
      * reflexivity.
    + intros m l cfg Hstep.
      apply step_capturing_inv in Hstep
        as [Hother | (p' & q & m1 & w & w1 & Hres & Hadv & -> & ->)];
        [left; exact Hother|].
      right. apply resumes_inv in Hres as ->. simpl in Hadv.
      inversion Hadv; subst; simpl.
      split; [reflexivity|].
      destruct (startAll isDisassembledFile (pendingBreakpoints (this m))
                  (set_pendingBreakpoints [] m) w1) as [[calls m'] w'] eqn:Hst.
      simpl. exists calls. split; [reflexivity|].
      destruct (startAll_spec isDisassembledFile _ _ _ _ _ _ Hst)
        as [Hcalls _].
      split; [exact Hcalls|]. symmetry. eapply Forall2_length. exact Hcalls.
  - intros ls cfg Hsteps ls1 held captured left ls2 Hdec.
    destruct (flush_invariant_steps _ _ _ (flush_invariant_start m0 w0) Hsteps)
      as [_ Hdisp].
    destruct (Hdisp _ _ _ _ _ Hdec) as (Hc & Hl & Hnd & Hflush & Hsub).
    repeat split; auto.
    destruct (flush cfg) as [p|calls|r]; auto.
    split; [exact Hflush|]. symmetry. eapply Forall2_length. exact Hflush.
Qed.
End FlushInvariant.

(** C3 on an execution at the example target.  The queue holds the
    objects 1 and 2; the lock is granted; the flush captures both and
    starts their calls; another caller then appends the object 7; the
    target then refuses the object 2, which goes back to the queue.  The
    calls in progress are those of 1 and 2, and 7 is in the queue, not
    dispatched. *)
Lemma C3_sendAllPendingBreakpoints_witness :
  let C := demo "00001000" "00002000" in
  let isDisassembledFile := DisassembledFile.isDebugAsmFile in
  let ls := [ Interleaving.Resumed;
              Interleaving.Dispatched [1; 2]%nat [1; 2]%nat [];
              Interleaving.Other [7%nat];
              Interleaving.Resumed ] in
  exists cfg,
    Interleaving.steps (C := C) isDisassembledFile
      (Interleaving.sendAllPendingBreakpoints (C := C) isDisassembledFile
         (demo_pending false [1; 2]%nat) tt) ls cfg
    /\ (exists calls,
          Interleaving.flush cfg = Interleaving.Joining calls
          /\ Forall2 (Interleaving.call_of (C := C) isDisassembledFile)
               [1; 2]%nat calls
          /\ List.length calls = 2%nat)
    /\ [7%nat] `sublist_of` Interleaving.queue (Interleaving.mem cfg)
    /\ Interleaving.queue (Interleaving.mem cfg) = [7; 2]%nat.
Proof.
  intros C isDisassembledFile ls.
  eassert (Hsteps :
             Interleaving.steps (C := C) isDisassembledFile
               (Interleaving.sendAllPendingBreakpoints (C := C)
                  isDisassembledFile (demo_pending false [1; 2]%nat) tt)
               ls _).
  { subst ls.
    eapply (Interleaving.steps_snoc _ _ _ _
              [ Interleaving.Resumed;
                Interleaving.Dispatched [1; 2]%nat [1; 2]%nat [];
                Interleaving.Other [7%nat] ]).
    eapply (Interleaving.steps_snoc _ _ _ _
              [ Interleaving.Resumed;
                Interleaving.Dispatched [1; 2]%nat [1; 2]%nat [] ]).
    eapply (Interleaving.steps_snoc _ _ _ _ [Interleaving.Resumed]).
    eapply (Interleaving.steps_snoc _ _ _ _ []).
    - apply Interleaving.steps_nil.
    - unfold Interleaving.sendAllPendingBreakpoints. simpl.
      eapply (step_capturing_labelled (C := C) _ _ _ _ _ _ _ tt tt).
      + apply (Interleaving.resumes_await _ _ _ (inr tt)).
      + simpl. reflexivity.
      + simpl. reflexivity.
      + reflexivity.
    - simpl.
      eapply (step_capturing_labelled (C := C) _ _ _ _ _ _ _ tt tt).
      + apply Interleaving.resumes_yield.
      + simpl. reflexivity.
      + simpl. reflexivity.
      + reflexivity.
    - eapply (Interleaving.step_other (C := C) _ _ _ _ [7%nat]).
      instantiate (1 := demo_pending true [7%nat]). reflexivity.
    - eapply (Interleaving.step_call (C := C) _ _ 1%nat _ _ _ _ _ tt tt).
      + reflexivity.
      + apply (Interleaving.resumes_await _ _ _ (inl (Error "refused"))).
      + simpl. reflexivity. }
  eexists. split; [exact Hsteps|].
  destruct (C3_sendAllPendingBreakpoints (C := C) isDisassembledFile
              (demo_pending false [1; 2]%nat) tt) as (_ & _ & Hsafe).
  destruct (Hsafe _ _ Hsteps [Interleaving.Resumed] [1; 2]%nat [1; 2]%nat []
              [Interleaving.Other [7%nat]; Interleaving.Resumed] eq_refl)
    as (_ & _ & _ & Hcalls & Hsub).
  simpl in Hcalls, Hsub.
  split; [eexists; split; [reflexivity | exact Hcalls]|].
  split; [exact Hsub | reflexivity].
Defined.

(* ================================================================== *)
(** * Further properties *)

(** ** Numbers written and read back *)

Section Numerals.

Lemma every_app (P : ascii -> bool) (a b : string) :
  every P (a +:+ b) = every P a && every P b.
Proof.
  induction a as [|c a IH]; simpl; [reflexivity|].
  rewrite IH. apply andb_assoc.
Qed.

Lemma every_impl (P Q : ascii -> bool) (s : string) :
  (forall c, P c = true -> Q c = true) -> every P s = true -> every Q s = true.
Proof.
  intros H. induction s as [|c s IH]; simpl; [reflexivity|].
  intros Hs. apply andb_prop in Hs as [Hc Hs].
  rewrite (H _ Hc), (IH Hs). reflexivity.
Qed.

Lemma length_append (a b : string) :
  String.length (a +:+ b) = (String.length a + String.length b)%nat.
Proof.
  induction a as [|c a IH]; simpl; [reflexivity|]. rewrite IH. reflexivity.
Qed.

Lemma append_assoc (a b c : string) : (a +:+ b) +:+ c = a +:+ (b +:+ c).
Proof.
  induction a as [|x a IH]; [reflexivity|].
  change (String x ((a +:+ b) +:+ c) = String x (a +:+ b +:+ c)).
  rewrite IH. reflexivity.
Qed.

Lemma append_nil_r (s : string) : s +:+ "" = s.
Proof.
  induction s as [|c s IH]; [reflexivity|].
  change (String c (s +:+ "") = String c s). rewrite IH. reflexivity.
Qed.

Lemma horner10_acc (d : Decimal.uint) (acc : positive) :
  Z.pos (Pos.of_uint_acc d acc) = horner10 d (Z.pos acc).
Proof.
  revert acc. induction d; intros acc; simpl; [reflexivity|..];
    rewrite IHd; f_equal; lia.
Qed.

Lemma horner10_of_uint (d : Decimal.uint) :
  Z.of_N (Pos.of_uint d) = horner10 d 0.
Proof.
  induction d; simpl; try assumption; try reflexivity;
    rewrite horner10_acc; reflexivity.
Qed.

Lemma digits_decimal (d : Decimal.uint) (acc : option Z) :
  digits 10 acc (DecimalString.NilEmpty.string_of_uint d)
  = match d with
    | Decimal.Nil => acc
    | _ => Some (horner10 d (default 0 acc))
    end.
Proof.
  revert acc. induction d; intros acc; [reflexivity|..];
    cbn [DecimalString.NilEmpty.string_of_uint digits];
    match goal with
    | |- context [radix_digit 10 ?c] =>
        let v := eval vm_compute in (radix_digit 10 c) in
        change (radix_digit 10 c) with v
    end;
    cbv iota; rewrite IHd; destruct d; reflexivity.
Qed.

Lemma every_decimal (P : ascii -> bool) (d : Decimal.uint) :
  every P "0123456789" = true ->
  every P (DecimalString.NilEmpty.string_of_uint d) = true.
Proof.
  intros H. simpl in H.
  repeat (apply andb_prop in H; destruct H as [? H]).
  induction d; simpl; [reflexivity|..]; apply andb_true_intro; split; assumption.
Qed.

(** The code units of [n.toString()]: digits, the sign, and the letters
    of [NaN]. *)
Lemma every_toString (P : ascii -> bool) (n : number) :
  every P "0123456789-Na" = true -> every P (toString n) = true.
Proof.
  intros H.
  assert (Hd : every P "0123456789" = true).
  { change "0123456789-Na"%string with ("0123456789" +:+ "-Na") in H.
    rewrite every_app in H. apply andb_prop in H. tauto. }
  assert (Hm : P "-"%char = true).
  { simpl in H. repeat (apply andb_prop in H; destruct H as [? H]).
    assumption. }
  destruct n as [|[|p|p]]; simpl.
  - simpl in H. repeat (apply andb_prop in H; destruct H as [? H]).
    repeat (apply andb_true_intro; split; try assumption); try reflexivity.
  - simpl in Hd. repeat (apply andb_prop in Hd; destruct Hd as [? Hd]).
    apply andb_true_intro; split; [assumption|reflexivity].
  - unfold DecimalString.NilZero.string_of_uint.
    pose proof (DecimalPos.Unsigned.to_uint_nonnil p) as Hnil.
    pose proof (every_decimal P (Pos.to_uint p) Hd) as He.
    destruct (Pos.to_uint p); [congruence|exact He..].
  - unfold DecimalString.NilZero.string_of_uint.
    pose proof (DecimalPos.Unsigned.to_uint_nonnil p) as Hnil.
    pose proof (every_decimal P (Pos.to_uint p) Hd) as He.
    rewrite Hm. simpl.
    destruct (Pos.to_uint p); [congruence|exact He..].
Qed.

Lemma toString_nonempty (n : number) : toString n <> "".
Proof.
  destruct n as [|[|p|p]]; simpl; try discriminate.
  unfold DecimalString.NilZero.string_of_uint.
  pose proof (DecimalPos.Unsigned.to_uint_nonnil p) as Hnil.
  destruct (Pos.to_uint p); [congruence|discriminate..].
Qed.

Lemma parseInt_decimal (d : Decimal.uint) :
  d <> Decimal.Nil ->
  parseInt (DecimalString.NilEmpty.string_of_uint d) None
  = Num (horner10 d 0).
Proof.
  intros Hnil.
  pose proof (digits_decimal d None) as Hd.
  destruct d as [|d|d|d|d|d|d|d|d|d|d]; [congruence|..];
    try (unfold parseInt; simpl in *; rewrite Hd; f_equal;
         exact (Z.mul_1_l _)).
  destruct d; unfold parseInt; simpl in *; try reflexivity;
    rewrite Hd; f_equal; exact (Z.mul_1_l _).
Qed.

(** [parseInt] reads back what [toString] wrote. *)
Lemma parseInt_toString (n : number) : parseInt (toString n) None = n.
Proof.
  destruct n as [|[|p|p]]; try reflexivity.
  - simpl toString. unfold DecimalString.NilZero.string_of_uint.
    pose proof (DecimalPos.Unsigned.to_uint_nonnil p) as Hnil.
    pose proof (parseInt_decimal (Pos.to_uint p) Hnil) as Hp.
    pose proof (horner10_of_uint (Pos.to_uint p)) as Hv.
    rewrite DecimalPos.Unsigned.of_to in Hv. simpl in Hv.
    rewrite <- Hv in Hp.
    destruct (Pos.to_uint p); [congruence|exact Hp..].
  - simpl toString. unfold DecimalString.NilZero.string_of_uint.
    pose proof (DecimalPos.Unsigned.to_uint_nonnil p) as Hnil.
    pose proof (horner10_of_uint (Pos.to_uint p)) as Hv.
    rewrite DecimalPos.Unsigned.of_to in Hv. simpl in Hv.
    assert (Hd : digits 10 None
                   (DecimalString.NilEmpty.string_of_uint (Pos.to_uint p))
                 = Some (Z.pos p)).
    { rewrite digits_decimal, Hv.
      destruct (Pos.to_uint p); [congruence|reflexivity..]. }
    assert (Hs : DecimalString.NilEmpty.string_of_uint (Pos.to_uint p)
                 = match Pos.to_uint p with
                   | Decimal.Nil => "0"
                   | _ => DecimalString.NilEmpty.string_of_uint (Pos.to_uint p)
                   end).
    { destruct (Pos.to_uint p); [congruence|reflexivity..]. }
    rewrite <- Hs.
    unfold parseInt. simpl trimStart. simpl strip_sign. cbv iota beta.
    simpl Z.eqb. cbv iota. simpl andb. simpl orb. cbv iota.
    assert (Hx : strip_hex_prefix
                   (DecimalString.NilEmpty.string_of_uint (Pos.to_uint p))
                 = None).
    { destruct (Pos.to_uint p) as [|d|d|d|d|d|d|d|d|d|d]; try reflexivity.
      destruct d; reflexivity. }
    rewrite Hx, Hd. reflexivity.
Qed.

Lemma horner16_acc (d : Hexadecimal.uint) (acc : positive) :
  Z.pos (Pos.of_hex_uint_acc d acc) = horner16 d (Z.pos acc).
Proof.
  revert acc. induction d; intros acc; simpl; [reflexivity|..];
    rewrite IHd; f_equal; lia.
Qed.

Lemma horner16_of_uint (d : Hexadecimal.uint) :
  Z.of_N (Pos.of_hex_uint d) = horner16 d 0.
Proof.
  induction d; simpl; try assumption; try reflexivity;
    rewrite horner16_acc; reflexivity.
Qed.

Lemma digits_hexadecimal (d : Hexadecimal.uint) (acc : option Z) :
  digits 16 acc (HexadecimalString.NilEmpty.string_of_uint d)
  = match d with
    | Hexadecimal.Nil => acc
    | _ => Some (horner16 d (default 0 acc))
    end.
Proof.
  revert acc. induction d; intros acc; [reflexivity|..];
    cbn [HexadecimalString.NilEmpty.string_of_uint digits];
    match goal with
    | |- context [radix_digit 16 ?c] =>
        let v := eval vm_compute in (radix_digit 16 c) in
        change (radix_digit 16 c) with v
    end;
    cbv iota; rewrite IHd; destruct d; reflexivity.
Qed.

Lemma digits_zeros (n : nat) (s : string) :
  digits 16 (Some 0) (zeros n +:+ s) = digits 16 (Some 0) s.
Proof. induction n as [|n IH]; [reflexivity|]. simpl. exact IH. Qed.

Lemma every_hexadecimal (P : ascii -> bool) (d : Hexadecimal.uint) :
  every P "0123456789abcdef" = true ->
  every P (HexadecimalString.NilEmpty.string_of_uint d) = true.
Proof.
  intros H. simpl in H.
  repeat (apply andb_prop in H; destruct H as [? H]).
  induction d; simpl; [reflexivity|..]; apply andb_true_intro; split; assumption.
Qed.

Lemma every_toString16 (P : ascii -> bool) (n : number) :
  every P "0123456789abcdef-Na" = true -> every P (toString16 n) = true.
Proof.
  intros H.
  assert (Hd : every P "0123456789abcdef" = true).
  { change "0123456789abcdef-Na"%string with ("0123456789abcdef" +:+ "-Na") in H.
    rewrite every_app in H. apply andb_prop in H. tauto. }
  assert (Hm : P "-"%char = true).
  { simpl in H. repeat (apply andb_prop in H; destruct H as [? H]).
    assumption. }
  destruct n as [|[|p|p]]; simpl.
  - simpl in H. repeat (apply andb_prop in H; destruct H as [? H]).
    repeat (apply andb_true_intro; split; try assumption); try reflexivity.
  - simpl in Hd. repeat (apply andb_prop in Hd; destruct Hd as [? Hd]).
    apply andb_true_intro; split; [assumption|reflexivity].
  - unfold HexadecimalString.NilZero.string_of_uint.
    pose proof (HexadecimalPos.Unsigned.to_uint_nonnil p) as Hnil.
    pose proof (every_hexadecimal P (Pos.to_hex_uint p) Hd) as He.
    destruct (Pos.to_hex_uint p); [congruence|exact He..].
  - unfold HexadecimalString.NilZero.string_of_uint.
    pose proof (HexadecimalPos.Unsigned.to_uint_nonnil p) as Hnil.
    pose proof (every_hexadecimal P (Pos.to_hex_uint p) Hd) as He.
    rewrite Hm. simpl.
    destruct (Pos.to_hex_uint p); [congruence|exact He..].
Qed.

(** The digits of a non-negative number in base 16 have its value. *)
Lemma digits_toString16 (a : Z) (acc : option Z) :
  0 <= a -> default 0 acc = 0 ->
  digits 16 acc (toString16 (Num a)) = Some a.
Proof.
  intros Ha Hacc. destruct a as [|p|p]; [| |lia].
  { simpl. rewrite Hacc. reflexivity. }
  simpl toString16. unfold HexadecimalString.NilZero.string_of_uint.
  pose proof (HexadecimalPos.Unsigned.to_uint_nonnil p) as Hnil.
  pose proof (digits_hexadecimal (Pos.to_hex_uint p) acc) as Hd.
  pose proof (horner16_of_uint (Pos.to_hex_uint p)) as Hv.
  rewrite HexadecimalPos.Unsigned.of_to in Hv. simpl in Hv.
  rewrite Hacc in Hd.
  destruct (Pos.to_hex_uint p); [congruence|..]; rewrite Hd; f_equal;
    symmetry; exact Hv.
Qed.

Lemma digits_padded (a : Z) (n : nat) :
  0 <= a ->
  digits 16 None (zeros n +:+ toString16 (Num a)) = Some a.
Proof.
  intros Ha. destruct n as [|n].
  - apply digits_toString16; [exact Ha|reflexivity].
  - cbn [zeros]. change (String "0" ?x +:+ ?y) with (String "0" (x +:+ y)).
    cbn [digits]. change (radix_digit 16 "0") with (Some 0). cbv iota.
    change (Some (default 0 None * 16 + 0)) with (Some 0).
    rewrite digits_zeros. apply digits_toString16; [exact Ha|reflexivity].
Qed.

(** An address written by [formatHexadecimal] is read back by
    [parseInt(_, 16)]. *)
Lemma parseInt_formatHexadecimal (a : Z) (pad : nat) :
  0 <= a ->
  parseInt (Strings.formatHexadecimal (Num a) pad) (Some 16) = Num a.
Proof.
  intros Ha. unfold Strings.formatHexadecimal, padStart0, parseInt.
  change ("0x" +:+ ?x) with (String "0" (String "x" x)).
  cbn [trimStart].
  change (is_white_space "0") with false. cbv iota.
  cbn [strip_sign]. cbv beta iota.
  change ((16 <? 2) || (36 <? 16)) with false.
  change (negb (16 =? 0)) with true.
  change ((16 =? 0) || (16 =? 16)) with true.
  cbn [andb strip_hex_prefix]. cbv iota beta.
  rewrite digits_padded by exact Ha.
  f_equal. apply Z.mul_1_l.
Qed.

Lemma zeros_length (n : nat) : String.length (zeros n) = n.
Proof. induction n as [|n IH]; simpl; [reflexivity|]. rewrite IH. reflexivity. Qed.

(** X6. What [formatHexadecimal] writes for an address that is not
    negative, padded to any width, is read back by [parseInt(_, 16)] as
    that address; the text has the prefix [0x] and at least [pad] digits
    after it. *)
Theorem X6_parseInt_formatHexadecimal (address : Z) (pad : nat) :
  0 <= address ->
  parseInt (Strings.formatHexadecimal (Num address) pad) (Some 16)
  = Num address
  /\ String.prefix "0x" (Strings.formatHexadecimal (Num address) pad) = true
  /\ (2 + pad <= String.length (Strings.formatHexadecimal (Num address) pad))%nat.
Proof.
  intros Ha. split; [apply parseInt_formatHexadecimal; exact Ha|].
  split.
  { unfold Strings.formatHexadecimal.
    destruct (padStart0 pad (toString16 (Num address))); reflexivity. }
  unfold Strings.formatHexadecimal, padStart0.
  rewrite !length_append, zeros_length. simpl. lia.
Qed.

(** X7. What [formatDecimal] writes for [NaN] or for an integer below
    2^53 in magnitude, negative ones included, is read back by
    [parseInt] as that number. *)
Theorem X7_parseInt_formatDecimal (value : number) :
  safe value = true ->
  parseInt (Strings.formatDecimal value) None = value.
Proof. intros _. apply parseInt_toString. Qed.

End Numerals.

(** X6 at the address 0x20002 padded to 8 digits. *)
Lemma X6_parseInt_formatHexadecimal_witness :
  parseInt (Strings.formatHexadecimal (Num 0x20002) 8) (Some 16) = Num 0x20002
  /\ String.prefix "0x" (Strings.formatHexadecimal (Num 0x20002) 8) = true
  /\ (2 + 8 <= String.length (Strings.formatHexadecimal (Num 0x20002) 8))%nat.
Proof. apply (X6_parseInt_formatHexadecimal 0x20002 8). lia. Defined.

(** X7 at -42 and at the largest integer below 2^53. *)
Lemma X7_parseInt_formatDecimal_witness :
  parseInt (Strings.formatDecimal (Num (-42))) None = Num (-42)
  /\ parseInt (Strings.formatDecimal (Num 9007199254740991)) None
     = Num 9007199254740991.
Proof.
  split.
  - apply (X7_parseInt_formatDecimal (Num (-42))). reflexivity.
  - apply (X7_parseInt_formatDecimal (Num 9007199254740991)). reflexivity.
Defined.

(** ** File names of the disassembled views *)

Section Matcher.

Import DisassembledFile.

Lemma match_star_fails {A : Type} (P : ascii -> bool) (cls : charclass)
  (s : string) (pos : nat) (k : nat -> string -> option A) :
  (forall p rest, every P rest = true -> k p rest = None) ->
  every P s = true -> match_star cls pos s k = None.
Proof.
  intros Hk. revert pos.
  induction s as [|c s IH]; intros pos Hs; simpl.
  - apply Hk. reflexivity.
  - pose proof Hs as Hs'. simpl in Hs'. apply andb_prop in Hs' as [_ Hs'].
    destruct (in_class cls c); [rewrite (IH _ Hs')|]; apply Hk; exact Hs.
Qed.

Lemma match_star_app {A : Type} (cls : charclass) (a b : string) (pos : nat)
  (k : nat -> string -> option A) (r : A) :
  every (in_class cls) a = true ->
  match_star cls (pos + String.length a) b k = Some r ->
  match_star cls pos (a +:+ b) k = Some r.
Proof.
  revert pos. induction a as [|c a IH]; intros pos Ha Hb; simpl in *.
  - rewrite Nat.add_0_r in Hb. exact Hb.
  - apply andb_prop in Ha as [Hc Ha]. rewrite Hc.
    rewrite (IH (S pos) Ha); [reflexivity|].
    rewrite <- Hb. f_equal. lia.
Qed.

Lemma match_star_stop {A : Type} (cls : charclass) (c : ascii) (s : string)
  (pos : nat) (k : nat -> string -> option A) :
  in_class cls c = false ->
  match_star cls pos (String c s) k = k pos (String c s).
Proof. intros H. cbn [match_star]. rewrite H. reflexivity. Qed.

Lemma prefix_slash (rest : string) :
  every not_slash rest = true -> String.prefix "/" rest = false.
Proof.
  destruct rest as [|c rest]; [reflexivity|].
  cbn [every String.prefix].
  intros H. apply andb_prop in H as [H _].
  destruct (ascii_dec "/" c) as [<-|]; [discriminate|reflexivity].
Qed.

(** Without a slash in the input, the optional directory matches
    nothing. *)
Lemma dirRegex_skips (s : string) (pos : nat) (caps : captures)
  (k : nat -> string -> captures -> option captures) :
  every not_slash s = true ->
  match_at dirRegex pos s caps k = k pos s caps.
Proof.
  intros Hs. unfold dirRegex.
  cbn [match_at].
  destruct s as [|c s]; [reflexivity|].
  destruct (in_class Dot c); [|reflexivity].
  rewrite (match_star_fails not_slash); [reflexivity| |].
  - intros p rest Hrest. rewrite (prefix_slash _ Hrest). reflexivity.
  - simpl in Hs. apply andb_prop in Hs. tauto.
Qed.

Lemma substring_prefix (a b : string) (pos : nat) :
  substring 0 (pos + String.length a - pos) (a +:+ b) = a.
Proof.
  replace (pos + String.length a - pos)%nat with (String.length a) by lia.
  induction a as [|c a IH]; simpl.
  - destruct b; reflexivity.
  - rewrite IH. reflexivity.
Qed.

(** A field [[^_]+] takes the text [a] when what follows lets the rest of
    the expression match. *)
Lemma field_takes (name a b : string) (pos : nat) (caps r : captures)
  (k : nat -> string -> captures -> option captures) :
  a <> "" ->
  every (in_class (NotChar "_")) a = true ->
  match_star (NotChar "_") (pos + String.length a) b
    (fun p rest => k p rest ((name, substring 0 (p - pos) (a +:+ b)) :: caps))
  = Some r ->
  match_at (field name) pos (a +:+ b) caps k = Some r.
Proof.
  intros Hne Ha Hb. unfold field. cbn [match_at].
  destruct a as [|c a]; [congruence|].
  cbn [every] in Ha. apply andb_prop in Ha as [Hc Ha].
  change (String c a +:+ b) with (String c (a +:+ b)) in *.
  cbv iota. rewrite Hc.
  change (String c (a +:+ b)) with (String c a +:+ b) in *.
  apply match_star_app; [exact Ha|].
  rewrite <- Hb. cbn [String.length]. f_equal. lia.
Qed.

(** The extension [.dbgasm$] after a field. *)
Lemma field_then_ext (name a : string) (pos : nat) (caps : captures) :
  a <> "" ->
  every (in_class (NotChar "_")) a = true ->
  match_at (Seq (field name) extRegex) pos (a +:+ ".dbgasm") caps
    (fun _ _ caps => Some caps)
  = Some ((name, a) :: caps).
Proof.
  intros Hne Ha. cbn [match_at].
  apply field_takes; [exact Hne|exact Ha|].
  unfold extRegex. cbn -[substring Nat.sub Nat.add].
  rewrite substring_prefix.
  reflexivity.
Qed.

Lemma match_at_seq (r1 r2 : regex) (pos : nat) (s : string) (caps : captures)
  (k : nat -> string -> captures -> option captures) :
  match_at (Seq r1 r2) pos s caps k
  = match_at r1 pos s caps (fun p rest caps' => match_at r2 p rest caps' k).
Proof. reflexivity. Qed.

Lemma match_at_assoc (r1 r2 r3 : regex) (pos : nat) (s : string)
  (caps : captures) (k : nat -> string -> captures -> option captures) :
  match_at (Seq r1 (Seq r2 r3)) pos s caps k
  = match_at (Seq (Seq r1 r2) r3) pos s caps k.
Proof. reflexivity. Qed.

Lemma match_at_lit (l rest : string) (pos : nat) (caps : captures)
  (k : nat -> string -> captures -> option captures) :
  match_at (Lit l) pos (l +:+ rest) caps k
  = k (pos + String.length l)%nat rest caps.
Proof.
  cbn [match_at].
  assert (H : String.prefix l (l +:+ rest) = true
              /\ substring_from (String.length l) (l +:+ rest) = rest).
  { induction l as [|c l [IH1 IH2]]; simpl.
    - split; [destruct rest; reflexivity|destruct rest; reflexivity].
    - destruct (ascii_dec c c); [|congruence]. split; assumption. }
  destruct H as [-> ->]. reflexivity.
Qed.

(** A literal whose first code unit differs from the input's. *)
Lemma match_at_lit_head (P : ascii -> bool) (c : ascii) (l a b : string)
  (pos : nat) (caps : captures)
  (k : nat -> string -> captures -> option captures) :
  a <> "" -> every P a = true -> P c = false ->
  match_at (Lit (String c l)) pos (a +:+ b) caps k = None.
Proof.
  intros Hne Ha Hc. destruct a as [|x a]; [congruence|].
  cbn [every] in Ha. apply andb_prop in Ha as [Hx _].
  change (String x a +:+ b) with (String x (a +:+ b)).
  cbn [match_at String.prefix].
  destruct (ascii_dec c x) as [->|]; [congruence|reflexivity].
Qed.

(** [[^_]+__] then the rest of the expression. *)
Lemma field_then_sep (name a b : string) (pos : nat) (caps r : captures)
  (k : nat -> string -> captures -> option captures) :
  a <> "" ->
  every (in_class (NotChar "_")) a = true ->
  k (pos + String.length a + 2)%nat b ((name, a) :: caps) = Some r ->
  match_at (Seq (field name) (Lit "__")) pos (a +:+ "__" +:+ b) caps k
  = Some r.
Proof.
  intros Hne Ha Hk. rewrite match_at_seq.
  apply field_takes; [exact Hne|exact Ha|].
  change ("__" +:+ b) with (String "_" (String "_" b)) at 1.
  rewrite match_star_stop by reflexivity.
  change (String "_" (String "_" b)) with ("__" +:+ b).
  rewrite match_at_lit, substring_prefix. exact Hk.
Qed.

(** An expression anchored at the start is tried at index 0 only. *)
Lemma search_anchored_later (r : regex) (s : string) (pos : nat) :
  search (Seq Bos r) (S pos) s = None.
Proof.
  revert pos. induction s as [|c s IH]; intros pos; simpl; [reflexivity|].
  apply IH.
Qed.

Lemma match_groups_anchored (r : regex) (s : string) :
  match_groups (Seq Bos r) s
  = match_at r 0 s [] (fun _ _ caps => Some caps).
Proof.
  unfold match_groups.
  destruct s as [|c s]; cbn [search]; rewrite match_at_seq;
    cbn [match_at Nat.eqb];
    match goal with |- match ?x with _ => _ end = _ => destruct x end;
    try reflexivity.
  apply search_anchored_later.
Qed.

Lemma plain_field (c : ascii) : plain c = true -> in_class (NotChar "_") c = true.
Proof. unfold plain. intros H. apply andb_prop in H as [H _]. exact H. Qed.

Lemma plain_not_slash (c : ascii) : plain c = true -> not_slash c = true.
Proof. unfold plain. intros H. apply andb_prop in H as [_ H]. exact H. Qed.

Lemma toString_plain (n : number) : every plain (Js.toString n) = true.
Proof. apply every_toString. reflexivity. Qed.

Lemma segRegex_matches (a : string) :
  a <> "" -> every plain a = true ->
  match_groups segRegex ("seg_" +:+ a +:+ ".dbgasm")
  = Some [("segmentId"%string, a)].
Proof.
  intros Hne Ha. unfold segRegex.
  rewrite match_groups_anchored, match_at_seq, dirRegex_skips.
  - rewrite match_at_seq, match_at_lit.
    apply field_then_ext; [exact Hne|].
    exact (every_impl _ _ _ plain_field Ha).
  - rewrite !every_app, (every_impl _ _ _ plain_not_slash Ha). reflexivity.
Qed.

Lemma copperRegex_matches (a len : string) :
  a <> "" -> every plain a = true ->
  len <> "" -> every plain len = true ->
  match_groups copperRegex ("copper_" +:+ a +:+ "__" +:+ len +:+ ".dbgasm")
  = Some [("length"%string, len); ("address"%string, a)].
Proof.
  intros Hne Ha Hnl Hl. unfold copperRegex.
  rewrite match_groups_anchored, match_at_seq, dirRegex_skips.
  - rewrite match_at_seq, match_at_lit, match_at_assoc, match_at_seq.
    apply field_then_sep;
      [exact Hne|exact (every_impl _ _ _ plain_field Ha)|].
    apply field_then_ext; [exact Hnl|].
    exact (every_impl _ _ _ plain_field Hl).
  - rewrite !every_app, (every_impl _ _ _ plain_not_slash Ha),
      (every_impl _ _ _ plain_not_slash Hl). reflexivity.
Qed.

Lemma addressRegex_matches (frame a len : string) :
  frame <> "" -> every plain frame = true ->
  a <> "" -> every plain a = true ->
  len <> "" -> every plain len = true ->
  match_groups addressRegex
    (frame +:+ "__" +:+ a +:+ "__" +:+ len +:+ ".dbgasm")
  = Some [("length"%string, len); ("address"%string, a);
          ("frame"%string, frame)].
Proof.
  intros Hnf Hf Hne Ha Hnl Hl. unfold addressRegex.
  rewrite match_groups_anchored, match_at_seq, dirRegex_skips.
  - rewrite match_at_assoc, match_at_seq.
    apply field_then_sep;
      [exact Hnf|exact (every_impl _ _ _ plain_field Hf)|].
    rewrite match_at_assoc, match_at_seq.
    apply field_then_sep;
      [exact Hne|exact (every_impl _ _ _ plain_field Ha)|].
    apply field_then_ext; [exact Hnl|].
    exact (every_impl _ _ _ plain_field Hl).
  - rewrite !every_app, (every_impl _ _ _ plain_not_slash Ha),
      (every_impl _ _ _ plain_not_slash Hl),
      (every_impl _ _ _ plain_not_slash Hf). reflexivity.
Qed.

(** An input without slash that does not begin like the literal after
    the directory. *)
Lemma anchored_lit_fails (P : ascii -> bool) (c : ascii) (l a b : string)
  (r : regex) :
  a <> "" -> every P a = true -> P c = false ->
  every not_slash (a +:+ b) = true ->
  match_groups (Seq Bos (Seq dirRegex (Seq (Lit (String c l)) r))) (a +:+ b)
  = None.
Proof.
  intros Hne Ha Hc Hs.
  rewrite match_groups_anchored, match_at_seq, dirRegex_skips by exact Hs.
  rewrite match_at_seq. apply (match_at_lit_head P); assumption.
Qed.

(** The three shapes of names, read back. *)
Lemma fromPath_segment_name (n : number) :
  fromPath ("seg_" +:+ Js.toString n +:+ ".dbgasm")
  = inr (setSegmentId n new).
Proof.
  unfold fromPath.
  rewrite segRegex_matches by auto using toString_nonempty, toString_plain.
  unfold group. cbn [lookup_group String.eqb default].
  simpl. rewrite parseInt_toString. reflexivity.
Qed.

Lemma fromPath_copper_name (a : string) (len : number) :
  a <> "" -> every plain a = true ->
  fromPath ("copper_" +:+ a +:+ "__" +:+ Js.toString len +:+ ".dbgasm")
  = inr (setCopper true (setLength len (setAddressExpression a new))).
Proof.
  intros Hne Ha. unfold fromPath.
  assert (Hslash : every not_slash
            ("copper_" +:+ a +:+ "__" +:+ Js.toString len +:+ ".dbgasm") = true).
  { rewrite !every_app, (every_impl _ _ _ plain_not_slash Ha),
      (every_impl _ _ _ plain_not_slash (toString_plain len)). reflexivity. }
  unfold segRegex at 1.
  rewrite (anchored_lit_fails (fun c => negb (Ascii.eqb c "s")) "s" "eg_"
             "copper_"); [|discriminate|reflexivity|reflexivity|exact Hslash].
  rewrite copperRegex_matches by auto using toString_nonempty, toString_plain.
  unfold group. simpl. rewrite parseInt_toString. reflexivity.
Qed.

Lemma fromPath_address_name (i : number) (a : string) (len : number) :
  a <> "" -> every plain a = true ->
  fromPath (Js.toString i +:+ "__" +:+ a +:+ "__" +:+ Js.toString len
            +:+ ".dbgasm")
  = inr (setLength len (setAddressExpression a (setStackFrameIndex i new))).
Proof.
  intros Hne Ha. unfold fromPath.
  assert (Hslash : every not_slash
            (Js.toString i +:+ "__" +:+ a +:+ "__" +:+ Js.toString len
             +:+ ".dbgasm") = true).
  { rewrite !every_app, (every_impl _ _ _ plain_not_slash Ha),
      (every_impl _ _ _ plain_not_slash (toString_plain len)),
      (every_impl _ _ _ plain_not_slash (toString_plain i)). reflexivity. }
  unfold segRegex at 1.
  rewrite (anchored_lit_fails (fun c => negb (Ascii.eqb c "s")) "s" "eg_");
    [|apply toString_nonempty|apply every_toString; reflexivity|reflexivity
     |exact Hslash].
  unfold copperRegex at 1.
  rewrite (anchored_lit_fails (fun c => negb (Ascii.eqb c "c")) "c" "opper_");
    [|apply toString_nonempty|apply every_toString; reflexivity|reflexivity
     |exact Hslash].
  rewrite addressRegex_matches by auto using toString_nonempty, toString_plain.
  unfold group. simpl. rewrite !parseInt_toString. reflexivity.
Qed.

End Matcher.

Section FileNames.

Import DisassembledFile DisassembledFileExamples.

(** X1. An identity with a segment id and no directory is written by
    [toString] and read back by [fromPath] as the segment view of that
    id, for every id that is [NaN] or an integer below 2^53 in
    magnitude, negative ones included (the numbers whose decimal text
    has all their digits); the other fields of the identity are not
    part of the name. *)
Theorem X1_fromPath_toString_segment (f : t) (n : number) :
  segmentId f = Some n -> path f = "" -> safe n = true ->
  fromPath (toString f) = inr (setSegmentId n new).
Proof.
  intros Hseg Hpath _. unfold toString, isSegment. rewrite Hseg, Hpath.
  cbn [tpl_number]. change ("" +:+ ?x) with x.
  apply fromPath_segment_name.
Qed.

(** X2. An identity without segment id, with the coprocessor flag, an
    address expression that is not empty and holds neither [_] nor [/],
    a length that is [NaN] or an integer below 2^53 in magnitude, and
    no directory, is written by [toString] and read back by [fromPath]
    as the coprocessor view of that expression and length; its stack
    frame index is not part of the name. *)
Theorem X2_fromPath_toString_copper (f : t) (a : string) (len : number) :
  segmentId f = None -> copper f = true ->
  addressExpression f = Some a -> length f = Some len -> path f = "" ->
  a <> "" -> every plain a = true -> safe len = true ->
  fromPath (toString f)
  = inr (setCopper true (setLength len (setAddressExpression a new))).
Proof.
  intros Hseg Hcop Hexpr Hlen Hpath Hne Ha _.
  unfold toString, isSegment, isCopper. rewrite Hseg, Hcop, Hexpr, Hlen, Hpath.
  cbn [tpl_number tpl_string]. change ("" +:+ ?x) with x.
  apply fromPath_copper_name; assumption.
Qed.

(** X3. An identity without segment id and coprocessor flag, with a
    stack frame index and a length that are [NaN] or integers below
    2^53 in magnitude, an address expression that is not empty and
    holds neither [_] nor [/], and no directory, is written by
    [toString] and read back by [fromPath] as itself. *)
Theorem X3_fromPath_toString_address (f : t) (i : number) (a : string)
  (len : number) :
  segmentId f = None -> copper f = false -> stackFrameIndex f = Some i ->
  addressExpression f = Some a -> length f = Some len -> path f = "" ->
  a <> "" -> every plain a = true -> safe i = true -> safe len = true ->
  fromPath (toString f) = inr f.
Proof.
  intros Hseg Hcop Hidx Hexpr Hlen Hpath Hne Ha _ _.
  unfold toString, isSegment, isCopper.
  rewrite Hseg, Hcop, Hidx, Hexpr, Hlen, Hpath.
  cbn [tpl_number tpl_string]. change ("" +:+ ?x) with x.
  rewrite fromPath_address_name by assumption.
  destruct f; simpl in *; subst; reflexivity.
Qed.

Lemma substring_from_app (a b : string) :
  substring_from (String.length a) (a +:+ b) = b.
Proof. induction a as [|c a IH]; simpl; [destruct b; reflexivity|exact IH]. Qed.

Lemma endsWith_app (a b : string) : endsWith (a +:+ b) b = true.
Proof.
  unfold endsWith. rewrite length_append.
  replace (String.length a + String.length b - String.length b)%nat
    with (String.length a) by lia.
  rewrite substring_from_app, String.eqb_refl, andb_true_r.
  apply Nat.leb_le. lia.
Qed.

(** X4. Whatever its fields, the name [toString] gives an identity ends
    in [.dbgasm]: [isDebugAsmFile] accepts it. *)
Theorem X4_toString_isDebugAsmFile (f : t) :
  isDebugAsmFile (toString f) = true.
Proof.
  unfold isDebugAsmFile, toString.
  destruct (isSegment f); [|destruct (isCopper f)];
    rewrite <- ?append_assoc; apply endsWith_app.
Qed.

Lemma replace_absent (s : string) :
  every not_hash s = true -> replace "#" "%23" s = s.
Proof.
  induction s as [|c s IH]; [reflexivity|].
  cbn [every]. intros H. apply andb_prop in H as [Hc Hs].
  cbn [replace String.prefix].
  destruct (ascii_dec "#" c) as [<-|Hne]; [discriminate|].
  rewrite (IH Hs). reflexivity.
Qed.

Lemma replace_first (a b : string) :
  every not_hash a = true ->
  replace "#" "%23" (a +:+ "#" +:+ b) = a +:+ "%23" +:+ b.
Proof.
  induction a as [|c a IH].
  - intros _. cbn. destruct b; reflexivity.
  - cbn [every]. intros H. apply andb_prop in H as [Hc Hs].
    change (String c a +:+ ?x) with (String c (a +:+ x)).
    cbn [replace String.prefix].
    destruct (ascii_dec "#" c) as [<-|Hne]; [discriminate|].
    rewrite (IH Hs). reflexivity.
Qed.

Lemma has_hash_app (a b : string) :
  has_hash (a +:+ b) = has_hash a || has_hash b.
Proof.
  unfold has_hash. induction a as [|c a IH]; simpl; [reflexivity|].
  rewrite IH. apply orb_assoc.
Qed.

Lemma has_hash_every (s : string) :
  every not_hash s = true -> has_hash s = false.
Proof.
  unfold has_hash, not_hash. induction s as [|c s IH]; [reflexivity|].
  cbn [every list_ascii_of_string existsb].
  intros H. apply andb_prop in H as [Hc Hs]. rewrite (IH Hs), orb_false_r.
  destruct (Ascii.eqb_spec c "#") as [->|Hne]; [discriminate|].
  destruct (Ascii.eqb_spec "#" c) as [<-|]; [congruence|reflexivity].
Qed.

(** X5. [toURI] keeps a name without '#' as it is after [disassembly:];
    in a name with a '#' it percent-encodes the first one and leaves
    everything after it as it is, so the URI holds a '#' exactly when
    the name holds a second one. *)
Theorem X5_toURI_first_hash (f : t) :
  (every not_hash (toString f) = true ->
   toURI f = "disassembly:" +:+ toString f)
  /\ (forall a b,
        toString f = a +:+ "#" +:+ b ->
        every not_hash a = true ->
        toURI f = "disassembly:" +:+ a +:+ "%23" +:+ b
        /\ has_hash (toURI f) = has_hash b).
Proof.
  split.
  - intros H. unfold toURI. cbv zeta. rewrite replace_absent by exact H.
    reflexivity.
  - intros a b Hname Ha. unfold toURI. cbv zeta.
    rewrite Hname, replace_first by exact Ha.
    split; [reflexivity|].
    rewrite !has_hash_app, (has_hash_every a Ha). reflexivity.
Qed.

End FileNames.

(** X1 on the identity [getStackFrame] builds for a frame inside the
    segment 3. *)
Lemma X1_fromPath_toString_segment_witness :
  DisassembledFile.fromPath
    (DisassembledFile.toString
       (DisassembledFile.setSegmentId (Num 3)
          (DisassemblyManager.frameFile false (Num 0))))
  = inr (DisassembledFile.setSegmentId (Num 3) DisassembledFile.new).
Proof.
  apply (X1_fromPath_toString_segment
           (DisassembledFile.setSegmentId (Num 3)
              (DisassemblyManager.frameFile false (Num 0)))
           (Num 3)); reflexivity.
Defined.

(** X2 on the coprocessor view of 20 bytes at [$400], built for the
    stack frame 1. *)
Lemma X2_fromPath_toString_copper_witness :
  DisassembledFile.fromPath
    (DisassembledFile.toString
       (DisassembledFile.setStackFrameIndex (Num 1)
          DisassembledFileExamples.copper400))
  = inr DisassembledFileExamples.copper400.
Proof.
  apply (X2_fromPath_toString_copper
           (DisassembledFile.setStackFrameIndex (Num 1)
              DisassembledFileExamples.copper400)
           "$400" (Num 20)); try reflexivity.
  discriminate.
Defined.

(** X3 on the view of 100 bytes at [$1000] of the stack frame 2. *)
Lemma X3_fromPath_toString_address_witness :
  DisassembledFile.fromPath
    (DisassembledFile.toString DisassembledFileExamples.frame2)
  = inr DisassembledFileExamples.frame2.
Proof.
  apply (X3_fromPath_toString_address DisassembledFileExamples.frame2
           (Num 2) "$1000" (Num 100)); try reflexivity.
  discriminate.
Defined.

(** ** The line cache *)

Section LineCache.

Import DisassemblyManager Strings.

Context {C : Collaborators}.

(** A call returns a line, or throws the [TypeError] of reading the
    message of [undefined] or [null] after a miss, the cache as it
    was. *)
Lemma disassembleLine_outcome (pc : number) (thread : GdbThread) (this : t)
  (w : World C) (log : list Event) :
  let o := run (disassembleLine pc thread) this w log in
  (exists line, out_result o = inr line)
  \/ (exists value,
        (value = "undefined" \/ value = "null")
        /\ out_result o = inl (TypeError value "message")
        /\ out_state o = this
        /\ lineCache this !! pc = None
        /\ errors_logged (out_trace o) = errors_logged log).
Proof.
  cbv zeta. destruct (lineCache this !! pc) as [line|] eqn:H.
  - left. exists line. rewrite (disassembleLine_hit _ _ _ _ _ _ H). reflexivity.
  - destruct (disassembleLine_miss pc thread this w log H)
      as (_ & [(line & Hres & _) | [(Hres & _)
                                   | (value & Hv & Hres & He & Hst)]]).
    + left. exists line. exact Hres.
    + left. eexists. exact Hres.
    + right. exists value. auto.
Qed.

(** X8. The cache of [disassembleLine] only grows, whether the call
    returns or throws: every line already cached stays cached as it is
    and no other address than [pc] is touched; when the call returns,
    what the cache holds for [pc], if anything, is the line returned;
    and the call throws only the [TypeError] of reading the message of
    a failure that is [undefined] or [null], after a miss, with the
    cache as it was. *)
Theorem X8_disassembleLine_cache_grows (pc : number) (thread : GdbThread)
  (this : t) (w : World C) (log : list Event) :
  let o := run (disassembleLine pc thread) this w log in
  (forall pc' l, lineCache this !! pc' = Some l ->
     lineCache (out_state o) !! pc' = Some l)
  /\ (forall pc', pc' <> pc ->
        lineCache (out_state o) !! pc' = lineCache this !! pc')
  /\ (forall line, out_result o = inr line ->
        forall l, lineCache (out_state o) !! pc = Some l -> l = line)
  /\ (forall e, out_result o = inl e ->
        (e = TypeError "undefined" "message" \/ e = TypeError "null" "message")
        /\ lineCache this !! pc = None
        /\ out_state o = this).
Proof.
  intros o. subst o.
  destruct (lineCache this !! pc) as [line|] eqn:H.
  - rewrite (disassembleLine_hit _ _ _ _ _ _ H). simpl.
    repeat split; auto; congruence.
  - destruct (disassembleLine_miss pc thread this w log H)
      as (_ & [(line & Hres & _ & _ & Hcache)
              | [(Hres & _ & Hst) | (value & Hv & Hres & _ & Hst)]]).
    + rewrite Hcache, Hres. split; [|split; [|split]].
      * intros pc' l Hl. destruct (decide (pc' = pc)) as [->|Hne];
          [congruence|]. rewrite lookup_insert_ne by congruence. exact Hl.
      * intros pc' Hne. apply lookup_insert_ne. congruence.
      * intros line' [= <-] l. rewrite lookup_insert_eq. congruence.
      * discriminate.
    + rewrite Hst, Hres. repeat split; auto; congruence.
    + rewrite Hst, Hres. split; [auto|]. split; [auto|].
      split; [discriminate|].
      intros e He. assert (e = TypeError value "message") by congruence.
      subst e. split; [destruct Hv as [-> | ->]; auto|].
      split; reflexivity.
Qed.

(** X9. [isCopperLine] only reads the cache.  After a [disassembleLine]
    that missed the cache, it is the flag of the returned line when
    nothing failed, and false when the fetch or the decoding failed,
    whatever the thread, whether the failure was logged and the address
    alone returned or the call threw: a failed line is not cached. *)
Theorem X9_isCopperLine_after_disassembleLine (pc : number)
  (thread : GdbThread) (this : t) (w : World C) (log : list Event) :
  lineCache this !! pc = None ->
  let o1 := run (disassembleLine pc thread) this w log in
  let o2 := run (isCopperLine pc) (out_state o1) (out_world o1)
              (out_trace o1) in
  out_state o2 = out_state o1
  /\ out_world o2 = out_world o1
  /\ out_trace o2 = out_trace o1
  /\ ((exists line,
         out_result o1 = inr line
         /\ errors_logged (out_trace o1) = errors_logged log
         /\ out_result o2 = inr (isCopper line))
      \/ (exists line,
            out_result o1 = inr line
            /\ errors_logged (out_trace o1) = S (errors_logged log)
            /\ out_result o2 = inr false)
      \/ (exists e,
            out_result o1 = inl e
            /\ errors_logged (out_trace o1) = errors_logged log
            /\ out_result o2 = inr false)).
Proof.
  intros H o1 o2. subst o2. unfold isCopperLine. simpl.
  repeat (split; [reflexivity|]).
  destruct (disassembleLine_miss pc thread this w log H)
    as (_ & [(line & Hres & _ & Hlog & Hcache)
            | [(Hres & Hlog & Hst) | (value & _ & Hres & Hlog & Hst)]]);
    fold o1 in Hres, Hlog.
  - left. exists line. fold o1 in Hcache.
    rewrite Hcache, lookup_insert_eq.
    split; [exact Hres|]. split; [exact Hlog | reflexivity].
  - right. left. eexists. fold o1 in Hst. rewrite Hst, H.
    split; [exact Hres|]. split; [exact Hlog | reflexivity].
  - right. right. eexists. fold o1 in Hst. rewrite Hst, H.
    split; [exact Hres|]. split; [exact Hlog | reflexivity].
Qed.

End LineCache.

(** X9 on the coprocessor thread of the example target, of the target
    whose memory reads time out, and of the target whose memory reads
    are rejected with [undefined]. *)
Lemma X9_isCopperLine_after_disassembleLine_witness :
  let pc := Num 0x1010 in
  let after (C : Collaborators) (w : World C) :=
    let o1 := run (C := C) (DisassemblyManager.disassembleLine pc (Thread 1))
                DisassemblyManager.new w [] in
    out_result
      (run (DisassemblyManager.isCopperLine pc) (out_state o1) (out_world o1)
         (out_trace o1)) in
  after (demo "00001000" "00002000") tt = inr true
  /\ after unreachable tt = inr false
  /\ after dropped tt = inr false.
Proof.
  intros pc after. split; [|split].
  - destruct (X9_isCopperLine_after_disassembleLine
                (C := demo "00001000" "00002000") pc (Thread 1)
                DisassemblyManager.new tt [] eq_refl)
      as (_ & _ & _ & [(line & Hline & _ & Hok)
                      | [(line & _ & Hlog & _) | (e & He & _)]]).
    + injection Hline as <-. exact Hok.
    + discriminate Hlog.
    + discriminate He.
  - destruct (X9_isCopperLine_after_disassembleLine (C := unreachable) pc
                (Thread 1) DisassemblyManager.new tt [] eq_refl)
      as (_ & _ & _ & [(line & _ & Hlog & _)
                      | [(line & _ & _ & Hno) | (e & He & _)]]).
    + discriminate Hlog.
    + exact Hno.
    + discriminate He.
  - destruct (X9_isCopperLine_after_disassembleLine (C := dropped) pc
                (Thread 1) DisassemblyManager.new tt [] eq_refl)
      as (_ & _ & _ & [(line & Hline & _)
                      | [(line & Hline & _) | (e & _ & _ & Hno)]]).
    + discriminate Hline.
    + discriminate Hline.
    + exact Hno.
Defined.

(** ** The frames of [getStackFrame] *)

Section FrameCases.

Import DisassemblyManager Strings.

Context {C : Collaborators}.

Lemma segmentLineNumber_fetches (segmentId offset : number) (s : t)
  (w : World C) (log : list Event) :
  memory_fetches (out_trace (run (segmentLineNumber segmentId offset) s w log))
  = memory_fetches log.
Proof.
  unfold segmentLineNumber, getLineNumberInDisassembledSegment.
  exec; rewrite ?memory_fetches_snoc; simpl; lia.
Qed.

Local Opaque disassembleLine DisassembledFile.toString DisassembledFile.toURI
  formatHexadecimal selectCopperList segmentLineNumber.

(** The four ways [getStackFrame] ends. *)
Lemma getStackFrame_cases (stackPosition : GdbStackPosition)
  (thread : GdbThread) (this : t) (w : World C) (log : list Event) :
  let o0 := run (disassembleLine (sp_pc stackPosition) thread) this w log in
  let o := run (getStackFrame stackPosition thread) this w log in
  (exists value,
     (value = "undefined" \/ value = "null")
     /\ out_result o0 = inl (TypeError value "message")
     /\ o = Build_Outcome C t StackFrame (inl (TypeError value "message"))
             (out_state o0) (out_world o0) (out_trace o0))
  \/ exists line,
    out_result o0 = inr line
    /\ ((isCopper line = false
         /\ out_result o = inr (plainFrame stackPosition (text line))
         /\ memory_fetches (out_trace o) = memory_fetches (out_trace o0))
        \/ (isCopper line = true
            /\ exists m1 m2,
                 let sel := selectCopperList (sp_pc stackPosition)
                              (parseInt m1 (Some 16)) (parseInt m2 (Some 16)) in
                 out_result o
                 = inr (copperFrame stackPosition (text line) sel.1 sel.2))
        \/ (isCopper line = true
            /\ exists e register log0,
                 (register = Num 0xdff080 \/ register = Num 0xdff084)
                 /\ out_result o = inl e
                 /\ out_trace o
                    = log0 ++ [Called (GdbGetMemory register (Num 4))
                                 (inl e)])).
Proof.
  intros o0 o. subst o.
  destruct (disassembleLine_outcome (sp_pc stackPosition) thread this w log)
    as [[line Hline] | (value & Hv & Hthrown & _)].
  2: { left. exists value. fold o0 in Hthrown.
       split; [exact Hv|]. split; [exact Hthrown|].
       unfold getStackFrame. rewrite run_bind, run_await. fold o0.
       rewrite Hthrown. reflexivity. }
  right.
  fold o0 in Hline. exists line. split; [exact Hline|].
  unfold getStackFrame. rewrite run_bind, run_await. fold o0.
  rewrite Hline.
  destruct line as [label cop]. cbn [text isCopper].
  destruct cop.
  - right. simpl.
    destruct (query C _ (GdbToRelativeOffset (sp_pc stackPosition))
                (out_world o0)) as [[segmentId offset] w2].
    simpl. rewrite andb_false_r. simpl.
    destruct (respond C _ (GdbGetMemory (Num 14676096) (Num 4)) w2)
      as [[e|m1] w3]; simpl.
    { right. split; [reflexivity|]. eexists e, _, _.
      split; [left; reflexivity|]. split; reflexivity. }
    destruct (respond C _ (GdbGetMemory (Num 14676100) (Num 4)) w3)
      as [[e|m2] w4]; simpl.
    { right. split; [reflexivity|]. eexists e, _, _.
      split; [right; reflexivity|]. split; reflexivity. }
    left. split; [reflexivity|].
    exists m1, m2. cbv zeta.
    pose proof (selectCopperList_line_nonneg (sp_pc stackPosition)
                  (parseInt m1 (Some 16)) (parseInt m2 (Some 16))) as Hge.
    destruct (selectCopperList (sp_pc stackPosition) (parseInt m1 (Some 16))
                (parseInt m2 (Some 16))) as [newAddress lineNumber].
    simpl in *. rewrite Hge. reflexivity.
  - left. split; [reflexivity|]. simpl.
    destruct (query C _ (GdbToRelativeOffset (sp_pc stackPosition))
                (out_world o0)) as [[segmentId offset] w2].
    simpl. rewrite run_bind.
    destruct (geb segmentId (Num 0)); cbn [andb negb].
    + rewrite run_bind.
      pose proof (segmentLineNumber_fetches segmentId offset (out_state o0) w2
                    (out_trace o0
                     ++ [Asked (GdbToRelativeOffset (sp_pc stackPosition))
                           (segmentId, offset)])) as Hf.
      destruct (segmentLineNumber_returns segmentId offset (out_state o0) w2
                  (out_trace o0
                   ++ [Asked (GdbToRelativeOffset (sp_pc stackPosition))
                         (segmentId, offset)])) as (n & Hn & _).
      rewrite Hn. simpl. rewrite andb_false_r. simpl.
      split; [reflexivity|]. rewrite Hf, memory_fetches_snoc. simpl. lia.
    + simpl. split; [reflexivity|]. rewrite memory_fetches_snoc. simpl. lia.
Qed.

End FrameCases.

Section FrameTheorems.

Import DisassemblyManager Strings.

Context {C : Collaborators}.

(** X10. Every frame [getStackFrame] returns carries the index of the
    stack position as its id, the text of the disassembled line as its
    name and the address in hexadecimal as its instruction pointer
    reference; it has a source exactly when the line is a coprocessor
    line, and for any other line, inside a segment or not, it is the
    plain frame, built without reading memory through [getMemory]. *)
Theorem X10_getStackFrame_frame (stackPosition : GdbStackPosition)
  (thread : GdbThread) (this : t) (w : World C) (log : list Event)
  (sf : StackFrame) :
  let o0 := run (disassembleLine (sp_pc stackPosition) thread) this w log in
  let o := run (getStackFrame stackPosition thread) this w log in
  out_result o = inr sf ->
  exists line,
    out_result o0 = inr line
    /\ sf_id sf = sp_index stackPosition
    /\ sf_name sf = text line
    /\ sf_instructionPointerReference sf
       = Some (formatHexadecimal (sp_pc stackPosition) 8)
    /\ (sf_source sf <> None <-> isCopper line = true)
    /\ (isCopper line = false ->
        sf = plainFrame stackPosition (text line)
        /\ memory_fetches (out_trace o) = memory_fetches (out_trace o0)).
Proof.
  intros o0 o Hres.
  destruct (getStackFrame_cases stackPosition thread this w log)
    as [(value & _ & _ & Hthrown) | (line & Hline & Hcases)].
  { fold o in Hthrown. rewrite Hthrown in Hres. discriminate Hres. }
  fold o0 in Hline, Hcases. fold o in Hcases.
  exists line. split; [exact Hline|].
  destruct Hcases as [(Hcop & Hsf & Hf) | [(Hcop & m1 & m2 & Hsf)
                                           | (Hcop & e & r & l0 & _ & He & _)]].
  - rewrite Hsf in Hres. injection Hres as <-.
    repeat split; auto; try congruence.
  - cbv zeta in Hsf. rewrite Hsf in Hres. injection Hres as <-.
    repeat split; auto; try congruence; try discriminate.
  - congruence.
Qed.

(** X11. [getStackFrame] fails in two ways only.  When
    [disassembleLine] throws (the [TypeError] of reading the message of
    a failure that is [undefined] or [null]) it throws the same, having
    called nothing more.  Otherwise it fails only on a coprocessor line,
    and only with the rejection of the read of one of the two list
    pointers, which is then the last call it made: a segment that
    cannot be read or decoded does not make it fail. *)
Theorem X11_getStackFrame_failure (stackPosition : GdbStackPosition)
  (thread : GdbThread) (this : t) (w : World C) (log : list Event)
  (e : exn) :
  let o0 := run (disassembleLine (sp_pc stackPosition) thread) this w log in
  let o := run (getStackFrame stackPosition thread) this w log in
  out_result o = inl e ->
  (out_result o0 = inl e
   /\ (e = TypeError "undefined" "message" \/ e = TypeError "null" "message")
   /\ out_trace o = out_trace o0)
  \/ exists line register log0,
       out_result o0 = inr line
       /\ isCopper line = true
       /\ (register = Num 0xdff080 \/ register = Num 0xdff084)
       /\ out_trace o
          = log0 ++ [Called (GdbGetMemory register (Num 4)) (inl e)].
Proof.
  intros o0 o Hres.
  destruct (getStackFrame_cases stackPosition thread this w log)
    as [(value & Hv & Hthrown0 & Hthrown) | (line & Hline & Hcases)].
  { left. fold o0 in Hthrown0. fold o in Hthrown.
    rewrite Hthrown in Hres. simpl in Hres.
    assert (He : e = TypeError value "message") by congruence. subst e.
    split; [exact Hthrown0|]. rewrite Hthrown.
    split; [destruct Hv as [-> | ->]; auto | reflexivity]. }
  right.
  fold o0 in Hline, Hcases. fold o in Hcases.
  destruct Hcases as [(Hcop & Hsf & Hf) | [(Hcop & m1 & m2 & Hsf)
                                           | (Hcop & e' & r & l0 & Hr & He & Ht)]];
    try (cbv zeta in Hsf); try congruence.
  exists line, r, l0. rewrite He in Hres. injection Hres as <-.
  repeat split; assumption.
Qed.

Lemma hex_expression_plain (n : number) :
  "$" +:+ toString16 n <> "" /\ every plain ("$" +:+ toString16 n) = true.
Proof.
  split; [discriminate|].
  rewrite every_app, (every_toString16 plain n) by reflexivity. reflexivity.
Qed.

Lemma frame_name (n idx : number) :
  DisassembledFile.toString
    (DisassembledFile.setAddressExpression ("$" +:+ toString16 n)
       (frameFile true idx))
  = "copper_" +:+ ("$" +:+ toString16 n) +:+ "__" +:+ toString (Num 500)
    +:+ ".dbgasm".
Proof. reflexivity. Qed.

Lemma frame_name_no_hash (n : number) :
  every not_hash
    ("copper_" +:+ ("$" +:+ toString16 n) +:+ "__" +:+ toString (Num 500)
     +:+ ".dbgasm") = true.
Proof.
  rewrite !every_app, (every_toString16 not_hash n) by reflexivity.
  reflexivity.
Qed.

(** The source of a coprocessor frame. *)
Lemma copperFrame_source (stackPosition : GdbStackPosition) (label : string)
  (newAddress lineNumber : number) :
  let name := "copper_" +:+ ("$" +:+ toString16 newAddress) +:+ "__"
              +:+ toString (Num 500) +:+ ".dbgasm" in
  sf_source (copperFrame stackPosition label newAddress lineNumber)
  = Some {| src_name := Some name;
            src_path := Some ("disassembly:" +:+ name) |}.
Proof.
  cbv zeta. unfold copperFrame, withSource. cbn [sf_source].
  unfold DisassembledFile.toURI. cbv zeta. rewrite frame_name.
  rewrite replace_absent by apply frame_name_no_hash. reflexivity.
Qed.

(** X12. The source [getStackFrame] attaches to a frame names a
    coprocessor view of 500 bytes: [fromPath] reads the name back as
    that view, whose address expression is [$] and an address in
    hexadecimal; the path of the source is the name after
    [disassembly:]; the line is not negative and the column is 1. *)
Theorem X12_getStackFrame_source_parses (stackPosition : GdbStackPosition)
  (thread : GdbThread) (this : t) (w : World C) (log : list Event)
  (sf : StackFrame) :
  out_result (run (getStackFrame stackPosition thread) this w log) = inr sf ->
  sf_source sf <> None ->
  exists (name : string) (newAddress : number),
    sf_source sf
    = Some {| src_name := Some name;
              src_path := Some ("disassembly:" +:+ name) |}
    /\ DisassembledFile.fromPath name
       = inr (DisassembledFile.setCopper true
                (DisassembledFile.setLength (Num 500)
                   (DisassembledFile.setAddressExpression
                      ("$" +:+ toString16 newAddress) DisassembledFile.new)))
    /\ geb (sf_line sf) (Num 0) = true
    /\ sf_column sf = Num 1.
Proof.
  intros Hres Hsrc.
  destruct (getStackFrame_cases stackPosition thread this w log)
    as [(value & _ & _ & Hthrown)
       | (line & Hline & [(Hcop & Hsf & Hf) | [(Hcop & m1 & m2 & Hsf)
                                               | (Hcop & e & r & l0 & _ & He & _)]])].
  - rewrite Hthrown in Hres. discriminate Hres.
  - rewrite Hsf in Hres. injection Hres as <-. exfalso. apply Hsrc. reflexivity.
  - cbv zeta in Hsf. rewrite Hsf in Hres. injection Hres as <-.
    pose proof (selectCopperList_line_nonneg (sp_pc stackPosition)
                  (parseInt m1 (Some 16)) (parseInt m2 (Some 16))) as Hge.
    destruct (selectCopperList (sp_pc stackPosition) (parseInt m1 (Some 16))
                (parseInt m2 (Some 16))) as [newAddress lineNumber].
    eexists _, newAddress.
    split; [apply copperFrame_source|].
    split; [apply fromPath_copper_name; apply hex_expression_plain|].
    split; [exact Hge|reflexivity].
  - congruence.
Qed.

End FrameTheorems.

(** X10 on the CPU thread of the example target, at an address outside
    the segment. *)
Lemma X10_getStackFrame_frame_witness :
  let stackPosition := {| sp_index := Num 3; sp_pc := Num 0x400 |} in
  let line := {| DisassemblyManager.text := "$400: nop";
                 DisassemblyManager.isCopper := false |} in
  exists line',
    out_result
      (run (C := demo "00001000" "00002000")
         (DisassemblyManager.disassembleLine (Num 0x400) (Thread 0))
         DisassemblyManager.new tt []) = inr line'
    /\ sf_id (plainFrame stackPosition "$400: nop") = Num 3
    /\ sf_name (plainFrame stackPosition "$400: nop")
       = DisassemblyManager.text line'
    /\ sf_instructionPointerReference (plainFrame stackPosition "$400: nop")
       = Some (Strings.formatHexadecimal (Num 0x400) 8).
Proof.
  intros stackPosition line.
  destruct (X10_getStackFrame_frame (C := demo "00001000" "00002000")
              stackPosition (Thread 0) DisassemblyManager.new tt []
              (plainFrame stackPosition "$400: nop") eq_refl)
    as (line' & Hline & Hid & Hname & Hipr & _).
  exists line'. repeat split; assumption.
Defined.

(** X11 on the coprocessor thread of two targets.  When the reads of
    memory time out the line is the address alone, and the call fails
    with the rejection of the read of a list pointer; when they are
    rejected with [undefined], [disassembleLine] throws and the call
    with it. *)
Lemma X11_getStackFrame_failure_witness :
  let stackPosition := {| sp_index := Num 0; sp_pc := Num 0x1010 |} in
  let frame := fun C : Collaborators =>
    run (C := C) (DisassemblyManager.getStackFrame stackPosition (Thread 1))
      DisassemblyManager.new in
  let line := fun C : Collaborators =>
    run (C := C) (DisassemblyManager.disassembleLine (Num 0x1010) (Thread 1))
      DisassemblyManager.new in
  (out_result (frame unreachable tt []) = inl (Error "timeout")
   /\ exists register log0,
        (register = Num 0xdff080 \/ register = Num 0xdff084)
        /\ out_trace (frame unreachable tt [])
           = log0 ++ [Called (GdbGetMemory register (Num 4))
                        (inl (Error "timeout"))])
  /\ (out_result (frame dropped tt [])
      = inl (TypeError "undefined" "message")
      /\ out_result (line dropped tt [])
         = inl (TypeError "undefined" "message")
      /\ out_trace (frame dropped tt []) = out_trace (line dropped tt [])).
Proof.
  intros stackPosition frame line. split.
  - split; [reflexivity|].
    destruct (X11_getStackFrame_failure (C := unreachable) stackPosition
                (Thread 1) DisassemblyManager.new tt [] (Error "timeout")
                eq_refl)
      as [(Hthrown & _) | (l & register & log0 & _ & _ & Hreg & Htrace)].
    + discriminate Hthrown.
    + exists register, log0. split; assumption.
  - split; [reflexivity|].
    destruct (X11_getStackFrame_failure (C := dropped) stackPosition
                (Thread 1) DisassemblyManager.new tt []
                (TypeError "undefined" "message") eq_refl)
      as [(Hthrown & _ & Htrace) | (l & register & log0 & Hline & _)].
    + split; [exact Hthrown | exact Htrace].
    + discriminate Hline.
Defined.

(** X12 on the coprocessor thread of the example target at 0x1010, in
    the list 1 that starts at 0x1000. *)
Lemma X12_getStackFrame_source_parses_witness :
  let stackPosition := {| sp_index := Num 0; sp_pc := Num 0x1010 |} in
  let sf := copperFrame stackPosition "$1010: dc.w $0180,$0000" (Num 0x1000)
              (Num 5) in
  exists (name : string) (newAddress : number),
    sf_source sf
    = Some {| src_name := Some name;
              src_path := Some ("disassembly:" +:+ name) |}
    /\ DisassembledFile.fromPath name
       = inr (DisassembledFile.setCopper true
                (DisassembledFile.setLength (Num 500)
                   (DisassembledFile.setAddressExpression
                      ("$" +:+ toString16 newAddress) DisassembledFile.new)))
    /\ geb (sf_line sf) (Num 0) = true
    /\ sf_column sf = Num 1.
Proof.
  intros stackPosition sf.
  apply (X12_getStackFrame_source_parses (C := demo "00001000" "00000000")
           stackPosition (Thread 1) DisassemblyManager.new tt [] sf eq_refl).
  discriminate.
Defined.

(** ** Lines and addresses of the coprocessor views *)

Section CopperView.

Import DisassemblyManager Strings.

Context {C : Collaborators}.

Lemma copperInstructions_length (address : number) (i : Z)
  (insts : list CopperInstruction) :
  List.length (copperInstructions address i insts) = List.length insts.
Proof.
  revert i. induction insts as [|inst rest IH]; intros i; simpl;
    [reflexivity|]. rewrite IH. reflexivity.
Qed.

Lemma copperInstructions_lookup (address : number) (i : Z)
  (insts : list CopperInstruction) (k : nat) (inst : CopperInstruction) :
  insts !! k = Some inst ->
  copperInstructions address i insts !! k
  = Some {| di_address :=
              formatHexadecimal
                (add address (mul (Num (i + Z.of_nat k)) (Num 4))) 8;
            di_instructionBytes := Some (ci_getInstructionBytes inst);
            di_instruction := ci_toString inst |}.
Proof.
  revert i k. induction insts as [|x rest IH]; intros i k; [discriminate|].
  destruct k as [|k]; simpl.
  - intros [= ->]. rewrite Z.add_0_r. reflexivity.
  - intros Hk. rewrite (IH (i + 1) k Hk).
    replace (i + 1 + Z.of_nat k) with (i + Z.pos (Pos.of_succ_nat k)) by lia.
    reflexivity.
Qed.

Local Opaque DisassembledFile.fromPath formatHexadecimal parseInt.

Lemma copper_view_line_address (a : string) (len : number) (A n : Z)
  (this : t) (w : World C) (log : list Event) (memory : string)
  (insts : list CopperInstruction) :
  let filePath := "copper_" +:+ a +:+ "__" +:+ toString len +:+ ".dbgasm" in
  let w1 := after_call (ProgramEvaluate a) w in
  let w2 := after_query GdbIsConnected w1 in
  let w3 := after_call (GdbGetMemory (Num A) len) w2 in
  a <> "" -> every plain a = true -> is_list_index a = false ->
  answer (ProgramEvaluate a) w = inr (Some (Num A)) ->
  (query C _ GdbIsConnected w1).1 = true ->
  answer (GdbGetMemory (Num A) len) w2 = inr memory ->
  (query C _ (DisassembleCopper memory) w3).1 = inr insts ->
  0 <= A -> 0 < n <= Z.of_nat (List.length insts) ->
  out_result (run (getAddressForFileEditorLine filePath (Num n)) this w log)
  = inr (Num (A + 4 * (n - 1))).
Proof.
  intros filePath w1 w2 w3 Hne Ha Hidx Heval Hconn Hmem Hdec HA Hn.
  subst w3 w2 w1. unfold answer, after_call, after_query in *.
  unfold getAddressForFileEditorLine.
  assert (Hgt : gtb (Num n) (Num 0) = true) by (simpl; apply Z.ltb_lt; lia).
  rewrite Hgt. subst filePath.
  rewrite (fromPath_copper_name a len Hne Ha).
  unfold is_list_index in Hidx.
  unfold instructionsOfFile, disassembleAddress.
  cbn [lift]. rewrite run_bind.
  cbn [run out_result out_state out_world out_trace
       DisassembledFile.isSegment DisassembledFile.segmentId
       DisassembledFile.setCopper DisassembledFile.setLength
       DisassembledFile.setAddressExpression DisassembledFile.new
       DisassembledFile.getAddressExpression DisassembledFile.getLength
       DisassembledFile.addressExpression DisassembledFile.length
       DisassembledFile.isCopper DisassembledFile.copper
       DisassembledFile.stackFrameIndex DisassembledFile.path andb].
  rewrite Hidx. simpl.
  destruct (respond C _ (ProgramEvaluate a) w) as [r1 w1]. simpl in *.
  subst r1. simpl.
  destruct (query C _ GdbIsConnected w1) as [c w2]. simpl in *. subst c.
  simpl.
  destruct (respond C _ (GdbGetMemory (Num A) len) w2) as [r3 w3].
  simpl in *. subst r3. simpl.
  destruct (query C _ (DisassembleCopper memory) w3) as [r4 w4].
  simpl in *. subst r4. simpl.
  unfold count. rewrite copperInstructions_length. simpl.
  destruct (n - 1 <? Z.of_nat (List.length insts)) eqn:Hb;
    [|apply Z.ltb_ge in Hb; lia].
  destruct (0 <=? n - 1) eqn:H0; [|apply Z.leb_gt in H0; lia].
  destruct (lookup_lt_is_Some_2 insts (Z.to_nat (n - 1))) as [inst Hi]; [lia|].
  rewrite (copperInstructions_lookup _ _ _ _ _ Hi). simpl.
  replace ((0 + Z.of_nat (Z.to_nat (n - 1))) * 4) with (4 * (n - 1)) by lia.
  rewrite parseInt_formatHexadecimal by lia. reflexivity.
Qed.

(** X13. For a coprocessor view whose address expression is not empty,
    holds neither [_] nor [/] and is not the list index [1] or [2], and
    whose length is [NaN] or an integer below 2^53 in magnitude, so that
    the name of the view reads back as the view: when the target is
    connected, the program resolves the expression to an address [A]
    that is not negative, the memory of the view is read and decoded,
    and the line [n] is within the decoded instructions (1 <= n <=
    their number), the line [n] is at [A + 4 (n - 1)]: every decoded
    coprocessor instruction is four bytes after the one before,
    whatever the decoder returned. *)
Theorem X13_copper_view_line_address (a : string) (len : number) (A n : Z)
  (this : t) (w : World C) (log : list Event) (memory : string)
  (insts : list CopperInstruction) :
  let view :=
    DisassembledFile.setCopper true
      (DisassembledFile.setLength len
         (DisassembledFile.setAddressExpression a DisassembledFile.new)) in
  let w1 := after_call (ProgramEvaluate a) w in
  let w2 := after_query GdbIsConnected w1 in
  let w3 := after_call (GdbGetMemory (Num A) len) w2 in
  a <> "" -> every plain a = true -> a <> "1" -> a <> "2" ->
  safe len = true ->
  answer (ProgramEvaluate a) w = inr (Some (Num A)) ->
  (query C _ GdbIsConnected w1).1 = true ->
  answer (GdbGetMemory (Num A) len) w2 = inr memory ->
  (query C _ (DisassembleCopper memory) w3).1 = inr insts ->
  0 <= A -> 0 < n <= Z.of_nat (List.length insts) ->
  out_result
    (run (getAddressForFileEditorLine (DisassembledFile.toString view) (Num n))
       this w log)
  = inr (Num (A + 4 * (n - 1))).
Proof.
  intros view w1 w2 w3 Hne Ha H1 H2 _.
  apply (copper_view_line_address a len A n this w log memory insts Hne Ha).
  unfold is_list_index.
  destruct (String.eqb_spec a "1"); [contradiction|].
  destruct (String.eqb_spec a "2"); [contradiction|reflexivity].
Qed.

(** X14. In a coprocessor view named by the list index 1 or 2 the
    address expression is not given to the program: the pointer of that
    list is read from its register (0xdff080 for the list 1, 0xdff084
    for the list 2), and line [n] is at that pointer plus [4 (n - 1)].
    The calls made are the read of the register, the connection test,
    the read of the view and its decoding. *)
Theorem X14_copper_list_view (i : Z) (len : number) (A n : Z)
  (this : t) (w : World C) (log : list Event) (pointer memory : string)
  (insts : list CopperInstruction) :
  let view :=
    DisassembledFile.setCopper true
      (DisassembledFile.setLength len
         (DisassembledFile.setAddressExpression (toString (Num i))
            DisassembledFile.new)) in
  let w1 := after_call (GdbGetMemory (listRegister i) (Num 4)) w in
  let w2 := after_query GdbIsConnected w1 in
  let w3 := after_call (GdbGetMemory (Num A) len) w2 in
  let o := run (getAddressForFileEditorLine (DisassembledFile.toString view)
                  (Num n)) this w log in
  i = 1 \/ i = 2 ->
  answer (GdbGetMemory (listRegister i) (Num 4)) w = inr pointer ->
  parseInt pointer (Some 16) = Num A ->
  (query C _ GdbIsConnected w1).1 = true ->
  answer (GdbGetMemory (Num A) len) w2 = inr memory ->
  (query C _ (DisassembleCopper memory) w3).1 = inr insts ->
  0 <= A -> 0 < n <= Z.of_nat (List.length insts) ->
  out_result o = inr (Num (A + 4 * (n - 1)))
  /\ out_trace o
     = log ++ [Called (GdbGetMemory (listRegister i) (Num 4)) (inr pointer);
               Asked GdbIsConnected true;
               Called (GdbGetMemory (Num A) len) (inr memory);
               Asked (DisassembleCopper memory) (inr insts)].
Proof.
  intros view w1 w2 w3 o Hi Hptr Hparse Hconn Hmem Hdec HA Hn.
  subst o w3 w2 w1 view. unfold answer, after_call, after_query in *.
  unfold getAddressForFileEditorLine.
  assert (Hgt : gtb (Num n) (Num 0) = true) by (simpl; apply Z.ltb_lt; lia).
  rewrite Hgt.
  assert (Hname : DisassembledFile.toString
            (DisassembledFile.setCopper true
               (DisassembledFile.setLength len
                  (DisassembledFile.setAddressExpression (toString (Num i))
                     DisassembledFile.new)))
          = "copper_" +:+ toString (Num i) +:+ "__" +:+ toString len
            +:+ ".dbgasm") by reflexivity.
  rewrite Hname.
  rewrite (fromPath_copper_name (toString (Num i)) len)
    by (destruct Hi as [-> | ->]; first [discriminate | reflexivity]).
  unfold instructionsOfFile, disassembleAddress.
  cbn [lift]. rewrite run_bind.
  cbn [run out_result out_state out_world out_trace
       DisassembledFile.isSegment DisassembledFile.segmentId
       DisassembledFile.setCopper DisassembledFile.setLength
       DisassembledFile.setAddressExpression DisassembledFile.new
       DisassembledFile.getAddressExpression DisassembledFile.getLength
       DisassembledFile.addressExpression DisassembledFile.length
       DisassembledFile.isCopper DisassembledFile.copper
       DisassembledFile.stackFrameIndex DisassembledFile.path andb].
  assert (Hsel : (String.eqb (toString (Num i)) "1"
                  || String.eqb (toString (Num i)) "2") = true
                 /\ (if strict_eq (parseInt (toString (Num i)) None) (Num 1)
                     then Num 0xdff080 else Num 0xdff084) = listRegister i).
  { destruct Hi as [-> | ->]; split; reflexivity. }
  destruct Hsel as [Hsel Hreg]. rewrite Hsel.
  unfold getCopperAddress. rewrite Hreg.
  simpl.
  destruct (respond C _ (GdbGetMemory (listRegister i) (Num 4)) w)
    as [r1 w1]. simpl in *. subst r1. simpl. rewrite Hparse. simpl.
  destruct (query C _ GdbIsConnected w1) as [c w2]. simpl in *. subst c.
  simpl.
  destruct (respond C _ (GdbGetMemory (Num A) len) w2) as [r3 w3].
  simpl in *. subst r3. simpl.
  destruct (query C _ (DisassembleCopper memory) w3) as [r4 w4].
  simpl in *. subst r4. simpl.
  unfold count. rewrite copperInstructions_length. simpl.
  destruct (n - 1 <? Z.of_nat (List.length insts)) eqn:Hb;
    [|apply Z.ltb_ge in Hb; lia].
  destruct (0 <=? n - 1) eqn:H0; [|apply Z.leb_gt in H0; lia].
  destruct (lookup_lt_is_Some_2 insts (Z.to_nat (n - 1))) as [inst Hinst];
    [lia|].
  rewrite (copperInstructions_lookup _ _ _ _ _ Hinst). simpl.
  replace ((0 + Z.of_nat (Z.to_nat (n - 1))) * 4) with (4 * (n - 1)) by lia.
  rewrite parseInt_formatHexadecimal by lia.
  split; [reflexivity|]. rewrite <- !app_assoc. reflexivity.
Qed.

End CopperView.

Section LineAddress.

Import DisassemblyManager Strings.

Context {C : Collaborators}.

Lemma selectCopperList_aligned (pc A n : Z) (cop1Addr cop2Addr : number) :
  selectCopperList (Num pc) cop1Addr cop2Addr = (Num A, Num n) ->
  (pc - A) mod 4 = 0 ->
  A + 4 * (n - 1) = pc.
Proof.
  unfold selectCopperList, lineInCop. intros Hsel Hmod.
  assert (Hdiv : 4 * ((pc - A + 4) / 4 - 1) = pc - A).
  { pose proof (Z.div_mod (pc - A) 4 ltac:(lia)) as Hdm.
    replace (pc - A + 4) with (pc - A + 1 * 4) by lia.
    rewrite Z.div_add by lia. lia. }
  destruct cop1Addr as [|c1], cop2Addr as [|c2]; simpl in Hsel.
  - injection Hsel as <- <-. lia.
  - destruct (negb (c2 =? 0)); simpl in Hsel.
    + destruct (0 <=? (pc - c2 + 4) / 4); injection Hsel as <- <-; lia.
    + injection Hsel as <- <-. lia.
  - destruct (negb (c1 =? 0)); simpl in Hsel.
    + destruct (0 <=? (pc - c1 + 4) / 4); simpl in Hsel;
        injection Hsel as <- <-; lia.
    + injection Hsel as <- <-. lia.
  - destruct (negb (c1 =? 0)), (negb (c2 =? 0)); simpl in Hsel;
      repeat match type of Hsel with
        | context [if ?b then _ else _] => destruct b; simpl in Hsel
        end;
      injection Hsel as <- <-; lia.
Qed.

(** X15. The line [getStackFrame] gives a coprocessor frame leads back
    to the frame's address, as long as the line is within the 500 bytes
    of the view: when both list pointers are read and the view of the
    frame starts at the list pointer [A], not negative, the frame's
    address is a whole number of instructions after [A], the target is
    connected, the program resolves the view's expression to [A], the
    memory of the view is read and decoded, and the line [n] the frame
    gets is within the decoded instructions (1 <= n <= their number),
    [getAddressForFileEditorLine] on the frame's source name and line
    returns the frame's address.  (A frame further in its list gets a
    line past the view, and the call throws.) *)
Theorem X15_frame_line_maps_back (stackPosition : GdbStackPosition)
  (thread : GdbThread) (this : t) (w : World C) (log : list Event)
  (line : DisassembledLine) (m1 m2 : string) (pc A n : Z)
  (this' : t) (w' : World C) (log' : list Event) (memory : string)
  (insts : list CopperInstruction) :
  let address := sp_pc stackPosition in
  let o0 := run (disassembleLine address thread) this w log in
  let w1 := after_query (GdbToRelativeOffset address) (out_world o0) in
  let w2 := after_call (GdbGetMemory (Num 0xdff080) (Num 4)) w1 in
  let expr := "$" +:+ toString16 (Num A) in
  let v1 := after_call (ProgramEvaluate expr) w' in
  let v2 := after_query GdbIsConnected v1 in
  let v3 := after_call (GdbGetMemory (Num A) (Num 500)) v2 in
  out_result o0 = inr line ->
  isCopper line = true ->
  answer (GdbGetMemory (Num 0xdff080) (Num 4)) w1 = inr m1 ->
  answer (GdbGetMemory (Num 0xdff084) (Num 4)) w2 = inr m2 ->
  address = Num pc ->
  selectCopperList address (parseInt m1 (Some 16)) (parseInt m2 (Some 16))
  = (Num A, Num n) ->
  0 <= A -> (pc - A) mod 4 = 0 -> 0 < n <= Z.of_nat (List.length insts) ->
  answer (ProgramEvaluate expr) w' = inr (Some (Num A)) ->
  (query C _ GdbIsConnected v1).1 = true ->
  answer (GdbGetMemory (Num A) (Num 500)) v2 = inr memory ->
  (query C _ (DisassembleCopper memory) v3).1 = inr insts ->
  exists (sf : StackFrame) (name : string),
    out_result (run (getStackFrame stackPosition thread) this w log) = inr sf
    /\ sf_source sf
       = Some {| src_name := Some name;
                 src_path := Some ("disassembly:" +:+ name) |}
    /\ sf_line sf = Num n
    /\ out_result
         (run (getAddressForFileEditorLine name (sf_line sf)) this' w' log')
       = inr (Num pc).
Proof.
  intros address o0 w1 w2 expr v1 v2 v3 Hline Hcop H1 H2 Hpc Hsel HA Hmod Hn
    Heval Hconn Hmem Hdec.
  pose proof (getStackFrame_copper stackPosition thread this w log line
                m1 m2 Hline Hcop H1 H2) as Hframe.
  cbv zeta in Hframe. fold address in Hframe. rewrite Hsel in Hframe.
  cbn [fst snd] in Hframe.
  eexists _, _. split; [exact Hframe|].
  split; [apply (copperFrame_source stackPosition (text line))|].
  split; [reflexivity|].
  unfold withSource. cbn [sf_line].
  rewrite Hpc in Hsel.
  rewrite <- (selectCopperList_aligned _ _ _ _ _ Hsel Hmod).
  apply (copper_view_line_address expr (Num 500) A n this' w' log' memory insts);
    auto; apply hex_expression_plain.
Qed.


End LineAddress.

(** X13 on the first line of the view [$1000] of the example target,
    whose program resolves every expression to 0x1000. *)
Lemma X13_copper_view_line_address_witness :
  out_result
    (run (C := demo "00001000" "00002000")
       (DisassemblyManager.getAddressForFileEditorLine
          "copper_$1000__500.dbgasm" (Num 1))
       DisassemblyManager.new tt [])
  = inr (Num 0x1000).
Proof.
  apply (X13_copper_view_line_address (C := demo "00001000" "00002000")
           "$1000" (Num 500) 0x1000 1 DisassemblyManager.new tt []
           "4e714e75"
           [ {| ci_toString := "dc.w $0180,$0000    ; COLOR00 := 0x0000";
                ci_getInstructionBytes := "01800000" |} ]);
    try reflexivity; try discriminate; simpl; lia.
Defined.

(** X14 on the first line of the view of the list 2 of the example
    target, whose pointer reads 0x2000. *)
Lemma X14_copper_list_view_witness :
  let o := run (C := demo "00001000" "00002000")
             (DisassemblyManager.getAddressForFileEditorLine
                "copper_2__500.dbgasm" (Num 1))
             DisassemblyManager.new tt [] in
  out_result o = inr (Num 0x2000)
  /\ out_trace o
     = [Called (GdbGetMemory (Num 0xdff084) (Num 4)) (inr "00002000");
        Asked GdbIsConnected true;
        Called (GdbGetMemory (Num 0x2000) (Num 500)) (inr "4e714e75");
        Asked (DisassembleCopper "4e714e75")
          (inr [ {| ci_toString := "dc.w $0180,$0000    ; COLOR00 := 0x0000";
                    ci_getInstructionBytes := "01800000" |} ])].
Proof.
  intros o.
  apply (X14_copper_list_view (C := demo "00001000" "00002000")
           2 (Num 500) 0x2000 1 DisassemblyManager.new tt []
           "00002000" "4e714e75"
           [ {| ci_toString := "dc.w $0180,$0000    ; COLOR00 := 0x0000";
                ci_getInstructionBytes := "01800000" |} ]);
    try reflexivity; try (right; reflexivity); simpl; lia.
Defined.

(** X15 on the coprocessor frame of the example target at the start
    0x1000 of the list 1. *)
Lemma X15_frame_line_maps_back_witness :
  let C := demo "00001000" "00000000" in
  let stackPosition := {| sp_index := Num 0; sp_pc := Num 0x1000 |} in
  exists (sf : StackFrame) (name : string),
    out_result
      (run (C := C) (DisassemblyManager.getStackFrame stackPosition (Thread 1))
         DisassemblyManager.new tt []) = inr sf
    /\ sf_source sf
       = Some {| src_name := Some name;
                 src_path := Some ("disassembly:" +:+ name) |}
    /\ sf_line sf = Num 1
    /\ out_result
         (run (C := C)
            (DisassemblyManager.getAddressForFileEditorLine name (sf_line sf))
            DisassemblyManager.new tt [])
       = inr (Num 0x1000).
Proof.
  intros C stackPosition.
  apply (X15_frame_line_maps_back (C := C) stackPosition (Thread 1)
           DisassemblyManager.new tt []
           {| DisassemblyManager.text := "$1000: dc.w $0180,$0000";
              DisassemblyManager.isCopper := true |}
           "00001000" "00000000" 0x1000 0x1000 1
           DisassemblyManager.new tt [] "4e714e75"
           [ {| ci_toString := "dc.w $0180,$0000    ; COLOR00 := 0x0000";
                ci_getInstructionBytes := "01800000" |} ]);
    try reflexivity; simpl; lia.
Defined.


(** ** The breakpoint factories *)

Section Factories.

Import BreakpointManager.

Context {C : Collaborators}.

Lemma create_spec (f : Factory) (m : Mem) (w : World C) (log : list Event) :
  exists b,
    run (create f) m w log
    = Build_Outcome C Mem GdbBreakpoint (inr b)
        (set_nextBreakpointId (nextBreakpointId (this m) + 1) m) w log
    /\ bp_id b = Some (Num (nextBreakpointId (this m)))
    /\ bp_verified b = false.
Proof. destruct f; eexists; repeat split. Qed.

Lemma idsFrom_lt {A : Type} (n k : Z) (l : list A) :
  k < n -> Some (Num k) ∉ idsFrom n l.
Proof.
  revert n. induction l as [|x l IH]; intros n Hk; simpl.
  - apply not_elem_of_nil.
  - apply not_elem_of_cons. split; [intros [= ->]; lia|apply IH; lia].
Qed.

Lemma idsFrom_NoDup {A : Type} (n : Z) (l : list A) : NoDup (idsFrom n l).
Proof.
  revert n. induction l as [|x l IH]; intros n; simpl; constructor.
  - apply idsFrom_lt. lia.
  - apply IH.
Qed.

(** X17. Whatever factories are called, and in whatever order, the
    breakpoints they return carry the ids n, n + 1, n + 2, ... from the
    counter's value n, so no two of them share an id; each is created
    unverified; the counter ends past the last id; and nothing else of
    the manager changes and no collaborator is called. *)
Theorem X17_factories_issue_fresh_ids (fs : list Factory) (m : Mem)
  (w : World C) (log : list Event) :
  let n := nextBreakpointId (this m) in
  exists bs,
    run (createAll fs) m w log
    = Build_Outcome C Mem (list GdbBreakpoint) (inr bs)
        (set_nextBreakpointId (n + Z.of_nat (List.length fs)) m) w log
    /\ map bp_id bs = idsFrom n fs
    /\ NoDup (map bp_id bs)
    /\ Forall (fun b => bp_verified b = false) bs.
Proof.
  cbv zeta. revert m.
  induction fs as [|f fs IH]; intros m.
  - exists []. simpl. rewrite Z.add_0_r.
    destruct m as [[] ?]. repeat split; constructor.
  - destruct (create_spec f m w log) as (b & Hb & Hid & Hv).
    destruct (IH (set_nextBreakpointId (nextBreakpointId (this m) + 1) m))
      as (bs & Hbs & Hids & _ & Hvs).
    exists (b :: bs).
    cbn [createAll]. rewrite run_bind, Hb.
    cbn [out_result out_state out_world out_trace].
    rewrite run_bind, Hbs.
    cbn [out_result out_state out_world out_trace run].
    assert (Hall : map bp_id (b :: bs)
                   = idsFrom (nextBreakpointId (this m)) (f :: fs)).
    { simpl. rewrite Hid, Hids. reflexivity. }
    split; [|split; [exact Hall|split]].
    + f_equal. unfold set_nextBreakpointId. simpl. f_equal. f_equal.
      rewrite Nat2Z.inj_succ. lia.
    + rewrite Hall. apply idsFrom_NoDup.
    + constructor; assumption.
Qed.

(** X18. [createTemporaryBreakpointArray] returns one temporary
    breakpoint per offset, in order, unverified, with consecutive ids
    from the counter, which ends past the last of them. *)
Theorem X18_createTemporaryBreakpointArray (offsets : list number) (m : Mem)
  (w : World C) (log : list Event) :
  let n := nextBreakpointId (this m) in
  exists bs,
    run (createTemporaryBreakpointArray offsets) m w log
    = Build_Outcome C Mem (list GdbBreakpoint) (inr bs)
        (set_nextBreakpointId (n + Z.of_nat (List.length offsets)) m) w log
    /\ map bp_offset bs = offsets
    /\ map bp_id bs = idsFrom n offsets
    /\ Forall (fun b => bp_breakpointType b = TEMPORARY
                        /\ bp_temporary b = Some true
                        /\ bp_verified b = false) bs.
Proof.
  cbv zeta. revert m.
  induction offsets as [|o offsets IH]; intros m.
  - exists []. simpl. rewrite Z.add_0_r.
    destruct m as [[] ?]. repeat split; constructor.
  - destruct (IH (set_nextBreakpointId (nextBreakpointId (this m) + 1) m))
      as (bs & Hbs & Hoff & Hids & Hall).
    eexists (_ :: bs).
    cbn [createTemporaryBreakpointArray]. rewrite run_bind.
    cbn [createTemporaryBreakpoint nextId bind settle run
         out_result out_state out_world out_trace].
    rewrite run_bind, Hbs.
    cbn [out_result out_state out_world out_trace run].
    split; [|split; [|split]].
    + f_equal. unfold set_nextBreakpointId. simpl. f_equal. f_equal.
      rewrite Nat2Z.inj_succ. lia.
    + simpl. rewrite Hoff. reflexivity.
    + simpl. rewrite Hids. reflexivity.
    + constructor; [repeat split|exact Hall].
Qed.

End Factories.

(** ** Exception breakpoints and the lock *)

Section ExceptionBreakpoints.

Import BreakpointManager.

Context {C : Collaborators}.
Variable isDisassembledFile : string -> bool.


(** X20. [removeExceptionBreakpoint] asks the target to remove a new
    exception breakpoint that holds the manager's mask, and releases the
    lock whether the removal succeeded or not: the call ends as the
    removal did, without the lock. When the lock cannot be acquired it
    creates nothing and asks nothing of the target. *)
Theorem X20_removeExceptionBreakpoint (fresh : ref) (m : Mem) (w : World C)
  (log : list Event) :
  let o := run (removeExceptionBreakpoint fresh) m w log in
  let w1 := after_call (MutexCapture "breakpointLock") w in
  (forall e,
     answer (MutexCapture "breakpointLock") w = inl e ->
     o = Build_Outcome C Mem unit (inl e) m w1
           (log ++ [Called (MutexCapture "breakpointLock") (inl e)]))
  /\ (answer (MutexCapture "breakpointLock") w = inr tt ->
      exists fields r,
        out_trace o
        = log ++ [Called (MutexCapture "breakpointLock") (inr tt);
                  Called (GdbRemoveBreakpoint fresh fields) r;
                  Asked MutexRelease tt]
        /\ bp_breakpointType fields = EXCEPTION
        /\ bp_exceptionMask fields = Some (exceptionMask (this m))
        /\ bp_id fields = Some (Num (nextBreakpointId (this m)))
        /\ out_result o = r
        /\ breakpointLock (this (out_state o)) = false
        /\ nextBreakpointId (this (out_state o))
           = nextBreakpointId (this m) + 1
        /\ breakpoints (this (out_state o)) = breakpoints (this m)
        /\ pendingBreakpoints (this (out_state o))
           = pendingBreakpoints (this m)).
Proof.
  cbv zeta. unfold answer, after_call.
  unfold removeExceptionBreakpoint, acquireLock, allocate.
  rewrite run_bind, run_await. simpl.
  destruct (respond C () (MutexCapture "breakpointLock") w) as [r w1].
  simpl. split.
  - intros e ->. reflexivity.
  - intros ->. simpl. rewrite ?Nat.eqb_refl. simpl.
    exec_answer; exec_answer; destruct r; try destruct a;
      eexists _, _; rewrite <- !app_assoc; simpl;
      repeat split; reflexivity.
Qed.

(** X21. [clearBreakpointsType] holds the lock only while it works: when
    the lock cannot be acquired the call ends with that rejection and
    nothing is asked of the target or changed; otherwise, whatever the
    removals do, the last thing it does to the collaborators is to
    release the lock, and the manager is left without it. *)
Theorem X21_clearBreakpointsType_lock (type : GdbBreakpointType)
  (source : option Source) (m : Mem) (w : World C) (log : list Event) :
  let o := run (clearBreakpointsType isDisassembledFile type source) m w log in
  let w1 := after_call (MutexCapture "breakpointLock") w in
  (forall e,
     answer (MutexCapture "breakpointLock") w = inl e ->
     o = Build_Outcome C Mem unit (inl e) m w1
           (log ++ [Called (MutexCapture "breakpointLock") (inl e)]))
  /\ (answer (MutexCapture "breakpointLock") w = inr tt ->
      breakpointLock (this (out_state o)) = false
      /\ exists log0, out_trace o = log0 ++ [Asked MutexRelease tt]).
Proof.
  cbv zeta. unfold answer, after_call.
  unfold clearBreakpointsType, acquireLock.
  rewrite run_bind, run_await. simpl.
  destruct (respond C () (MutexCapture "breakpointLock") w) as [r w1].
  simpl. split.
  - intros e ->. reflexivity.
  - intros ->. simpl. rewrite run_bind.
    set (m1 := set_breakpointLock true m).
    set (log1 := log ++ [Called (MutexCapture "breakpointLock") (inr ())]).
    destruct (clearLoop_spec isDisassembledFile type source
                (breakpoints (this m)) false [] m1 w1 log1)
      as (Hst & attempts & kept & Hres & _).
    change (breakpoints (this m1)) with (breakpoints (this m)).
    rewrite Hres, Hst. simpl.
    exec_answer.
    match goal with u : unit |- _ => destruct u end.
    destruct (existsb (fun a => negb a.2) attempts); simpl;
      (split; [reflexivity|eexists; reflexivity]).
Qed.

End ExceptionBreakpoints.

(** ** Locations of the pending breakpoints *)

Section Locations.

Import BreakpointManager.

Context {C : Collaborators}.
Variable isDisassembledFile : string -> bool.

Lemma relocated_refl (b : GdbBreakpoint) : relocated b b.
Proof. destruct b; reflexivity. Qed.

Lemma relocated_trans (b1 b2 b3 : GdbBreakpoint) :
  relocated b1 b2 -> relocated b2 b3 -> relocated b1 b3.
Proof.
  unfold relocated. intros H12 H23. rewrite H23 at 1. rewrite H12.
  reflexivity.
Qed.

Lemma locatePending_spec (bps : list ref) :
  forall (m : Mem) (w : World C) (log : list Event),
  let o := run (locatePending isDisassembledFile bps) m w log in
  this (out_state o) = this m
  /\ (forall r, relocated (objects m r) (objects (out_state o) r))
  /\ (forall r, r ∉ bps -> objects (out_state o) r = objects m r)
  /\ (forall r, locationRequest isDisassembledFile (objects m r) = None ->
        objects (out_state o) r = objects m r)
  /\ exists calls,
       out_trace o = log ++ calls
       /\ Forall (fun ev => is_findLocation ev = true) calls.
Proof.
  induction bps as [|bp rest IH]; intros m w log; cbv zeta.
  - simpl. split; [reflexivity|]. split; [intros r; apply relocated_refl|].
    split; [reflexivity|]. split; [reflexivity|].
    exists []. rewrite app_nil_r. split; [reflexivity|constructor].
  - cbn [locatePending]. rewrite run_bind. simpl.
    rewrite run_bind.
    destruct (locationRequest isDisassembledFile (objects m bp))
      as [[path line]|] eqn:Hreq.
    + rewrite run_bind, run_await. unfold addLocation. simpl.
      destruct (program (this m)) as [p|] eqn:Hprog; simpl.
      * destruct (respond C _ (ProgramFindLocationForLine path line) w)
          as [[e|[l|]] w1]; simpl.
        -- split; [reflexivity|]. split; [intros r; apply relocated_refl|].
           split; [reflexivity|]. split; [reflexivity|].
           eexists [_]. split; [reflexivity|repeat constructor].
        -- match goal with
           | |- context [run (locatePending _ rest) ?m1 ?w1 ?l1] =>
               destruct (IH m1 w1 l1) as (Hthis & Hrel & Hout & Hnone & calls
                                          & Htr & Hcalls)
           end.
           cbv zeta in *. simpl in Hthis.
           split; [exact Hthis|].
           assert (Hstep : forall r,
                     relocated (objects m r)
                       (if Nat.eqb r bp
                        then with_location (Some (loc_segmentId l))
                               (loc_offset l) (objects m bp)
                        else objects m r)).
           { intros r. destruct (Nat.eqb_spec r bp) as [->|];
               [destruct (objects m bp); reflexivity|apply relocated_refl]. }
           split; [|split; [|split]].
           ++ intros r. eapply relocated_trans; [apply Hstep|apply Hrel].
           ++ intros r Hr. apply not_elem_of_cons in Hr as [Hne Hr].
              rewrite (Hout r Hr). simpl.
              apply Nat.eqb_neq in Hne. rewrite Hne. reflexivity.
           ++ intros r Hr. rewrite Hnone; simpl.
              ** destruct (Nat.eqb_spec r bp) as [->|]; [congruence|reflexivity].
              ** destruct (Nat.eqb_spec r bp) as [->|]; [congruence|exact Hr].
           ++ rewrite Htr. eexists (_ :: calls). rewrite <- app_assoc.
              split; [reflexivity|]. constructor; [reflexivity|exact Hcalls].
        -- match goal with
           | |- context [run (locatePending _ rest) ?m1 ?w1 ?l1] =>
               destruct (IH m1 w1 l1) as (Hthis & Hrel & Hout & Hnone & calls
                                          & Htr & Hcalls)
           end.
           cbv zeta in *.
           split; [exact Hthis|]. split; [exact Hrel|].
           split; [|split].
           ++ intros r Hr. apply not_elem_of_cons in Hr as [Hne Hr].
              apply Hout. exact Hr.
           ++ exact Hnone.
           ++ rewrite Htr. eexists (_ :: calls). rewrite <- app_assoc.
              split; [reflexivity|]. constructor; [reflexivity|exact Hcalls].
      * destruct (IH m w log) as (Hthis & Hrel & Hout & Hnone & Hcalls).
        cbv zeta in *.
        split; [exact Hthis|]. split; [exact Hrel|].
        split; [|split; [exact Hnone|exact Hcalls]].
        intros r Hr. apply not_elem_of_cons in Hr as [Hne Hr].
        apply Hout. exact Hr.
    + simpl.
      destruct (IH m w log) as (Hthis & Hrel & Hout & Hnone & Hcalls).
      cbv zeta in *.
      split; [exact Hthis|]. split; [exact Hrel|].
      split; [|split; [exact Hnone|exact Hcalls]].
      intros r Hr. apply not_elem_of_cons in Hr as [Hne Hr].
      apply Hout. exact Hr.
Qed.

(** X22. [addLocationToPending] only locates: without a program it does
    nothing at all; with one, the manager's lists, counter and lock stay
    as they are, a breakpoint object changes at most in its segment and
    offset, and only if it is in the pending queue with a source outside
    the disassembled files and a line that is neither 0 nor [NaN]; and
    the only calls made are line lookups in the program. *)
Theorem X22_addLocationToPending (m : Mem) (w : World C) (log : list Event) :
  let o := run (addLocationToPending isDisassembledFile) m w log in
  (program (this m) = None ->
   o = Build_Outcome C Mem unit (inr tt) m w log)
  /\ this (out_state o) = this m
  /\ (forall r, relocated (objects m r) (objects (out_state o) r))
  /\ (forall r, r ∉ pendingBreakpoints (this m) ->
        objects (out_state o) r = objects m r)
  /\ (forall r, locationRequest isDisassembledFile (objects m r) = None ->
        objects (out_state o) r = objects m r)
  /\ exists calls,
       out_trace o = log ++ calls
       /\ Forall (fun ev => is_findLocation ev = true) calls.
Proof.
  cbv zeta. unfold addLocationToPending. simpl.
  destruct (program (this m)) as [p|] eqn:Hprog; simpl.
  - split; [discriminate|].
    apply (locatePending_spec (pendingBreakpoints (this m)) m w log).
  - split; [reflexivity|]. split; [reflexivity|].
    split; [intros r; apply relocated_refl|].
    split; [reflexivity|]. split; [reflexivity|].
    exists []. rewrite app_nil_r. split; [reflexivity|constructor].
Qed.

(** X23. [setBreakpoint] touches only the breakpoint it is given, and of
    it only the verified flag, the message, the segment and the offset;
    the manager's exception mask, program, counter, temporary arrays and
    lock stay as they are; and when it returns true the breakpoint was
    appended to the active list, unless it has an exception mask and not
    a source, line and id together, in which case the list is as
    before. *)
Theorem X23_setBreakpoint_frame (bp : ref) (m : Mem) (w : World C)
  (log : list Event) :
  let o := run (setBreakpoint isDisassembledFile bp) m w log in
  (forall r, r <> bp -> objects (out_state o) r = objects m r)
  /\ resolved (objects m bp) (objects (out_state o) bp)
  /\ exceptionMask (this (out_state o)) = exceptionMask (this m)
  /\ program (this (out_state o)) = program (this m)
  /\ nextBreakpointId (this (out_state o)) = nextBreakpointId (this m)
  /\ temporaryBreakpointArrays (this (out_state o))
     = temporaryBreakpointArrays (this m)
  /\ breakpointLock (this (out_state o)) = breakpointLock (this m)
  /\ (out_result o = inr true ->
      breakpoints (this (out_state o))
      = if untracked (objects m bp) then breakpoints (this m)
        else breakpoints (this m) ++ [bp]).
Proof.
  cbv zeta. unfold setBreakpoint, untracked, resolved.
  simpl.
  destruct (query C bool GdbIsConnected w) as [connected w1]. simpl.
  destruct connected; simpl.
  2: { rewrite Nat.eqb_refl. simpl.
       split; [intros r Hr; apply Nat.eqb_neq in Hr; rewrite ?Hr; reflexivity|].
       split; [destruct (objects m bp); reflexivity|].
       repeat split; discriminate. }
  destruct (objects m bp) as [ty id line src ver off seg mask tmp sz acc msg dmsg]
    eqn:Hobj.
  exec_objects.
  all: split;
    [intros r' Hr'; apply Nat.eqb_neq in Hr'; rewrite ?Hr'; reflexivity|].
  all: split; [rewrite ?Hobj; reflexivity|].
  all: repeat split; try discriminate; try reflexivity; try congruence.
Qed.

End Locations.

(** ** Sources *)

Section SameSource.

Import BreakpointManager.

Context {C : Collaborators}.
Variable isDisassembledFile : string -> bool.

Ltac same_source :=
  unfold isSameSource, identifiable in *;
  repeat match goal with s : Source |- _ => destruct s as [[?|] [?|]] end;
  simpl in *;
  repeat case_bool_decide; simplify_eq; simpl in *;
  rewrite ?andb_true_r, ?andb_false_r, ?orb_true_r, ?orb_false_r in *;
  try congruence; try reflexivity.

(** X24. [isSameSource] is symmetric, and a source is the same as itself
    exactly when it has a path or the name of a disassembled file: a
    source with neither matches no source, itself included. *)
Theorem X24_isSameSource (source other : Source) :
  isSameSource isDisassembledFile source other
  = isSameSource isDisassembledFile other source
  /\ isSameSource isDisassembledFile source source
     = identifiable isDisassembledFile source
  /\ (identifiable isDisassembledFile source = false ->
      isSameSource isDisassembledFile source other = false
      /\ isSameSource isDisassembledFile other source = false).
Proof.
  split; [|split].
  - same_source.
  - same_source.
  - intros H. split; same_source.
Qed.

Lemma isSameSource_unidentifiable (source other : Source) :
  identifiable isDisassembledFile other = false ->
  isSameSource isDisassembledFile source other = false.
Proof. intros H. same_source. Qed.

Lemma toClear_unidentifiable (type : GdbBreakpointType) (source : Source)
  (b : GdbBreakpoint) :
  identifiable isDisassembledFile source = false ->
  toClear isDisassembledFile type (Some source) b = false.
Proof.
  intros H. unfold toClear. cbv zeta.
  destruct (bp_source b) as [bsrc|]; simpl.
  - rewrite (isSameSource_unidentifiable bsrc source H). apply andb_false_r.
  - apply andb_false_r.
Qed.

Lemma filter_none {A : Type} (f : A -> bool) (l : list A) :
  (forall x, f x = false) -> List.filter f l = [].
Proof.
  intros H. induction l as [|x l IH]; simpl; [reflexivity|].
  rewrite H. exact IH.
Qed.

Lemma filter_all {A : Type} (f : A -> bool) (l : list A) :
  (forall x, f x = true) -> List.filter f l = l.
Proof.
  intros H. induction l as [|x l IH]; simpl; [reflexivity|].
  rewrite H, IH. reflexivity.
Qed.

(** X25. [clearBreakpoints] for a source that has no path and not the
    name of a disassembled file clears nothing: once the lock is
    acquired it asks no removal, leaves the active list as it is and
    returns normally, whatever the active breakpoints are. *)
Theorem X25_clearBreakpoints_unidentifiable (source : Source) (m : Mem)
  (w : World C) (log : list Event) :
  identifiable isDisassembledFile source = false ->
  answer (MutexCapture "breakpointLock") w = inr tt ->
  let o := run (clearBreakpoints isDisassembledFile source) m w log in
  out_result o = inr tt
  /\ removals (out_trace o) = removals log
  /\ breakpoints (this (out_state o)) = breakpoints (this m).
Proof.
  intros Hid Hlock. cbv zeta. unfold answer in Hlock.
  unfold clearBreakpoints, clearBreakpointsType, acquireLock.
  rewrite run_bind, run_await. simpl.
  destruct (respond C () (MutexCapture "breakpointLock") w) as [r w1].
  simpl in Hlock. subst r. simpl.
  rewrite run_bind.
  set (m1 := set_breakpointLock true m).
  set (log1 := log ++ [Called (MutexCapture "breakpointLock") (inr ())]).
  destruct (clearLoop_spec isDisassembledFile SOURCE (Some source)
              (breakpoints (this m)) false [] m1 w1 log1)
    as (Hst & attempts & kept & Hres & Htr & Hat & Hk1 & Hk2 & Hsub).
  cbv zeta in Hres, Hat, Hk1, Hk2.
  change (breakpoints (this m1)) with (breakpoints (this m)).
  rewrite filter_none in Hat
    by (intros bp; apply toClear_unidentifiable; exact Hid).
  apply map_eq_nil in Hat. subst attempts.
  rewrite !filter_all in Hk1
    by (intros bp; rewrite toClear_unidentifiable by exact Hid; reflexivity).
  subst kept.
  rewrite Hres, Hst. simpl.
  exec_answer. match goal with u : unit |- _ => destruct u end.
  split; [reflexivity|]. split; [|reflexivity].
  rewrite removals_snoc, Htr. subst log1. rewrite removals_snoc. simpl.
  rewrite !app_nil_r. reflexivity.
Qed.

End SameSource.

(** X25 at the example target, on the active list 1 to 6 of the source
    breakpoints of two files, a data breakpoint, and the breakpoints 5
    and 6 of sources without path.  The source cleared is the very
    source of the breakpoint 5, which has the name main.s and no path:
    nothing is removed, the breakpoint 5 included. *)
Lemma X25_clearBreakpoints_unidentifiable_witness :
  let source := {| src_name := Some "main.s"; src_path := None |} in
  let o := run (C := demo "00001000" "00002000")
             (BreakpointManager.clearBreakpoints
                DisassembledFile.isDebugAsmFile source)
             (demo_source_mem [1; 2; 3; 4; 5; 6]%nat) tt [] in
  bp_source (demo_source_objects 5%nat) = Some source
  /\ bp_breakpointType (demo_source_objects 5%nat) = SOURCE
  /\ out_result o = inr tt
  /\ removals (out_trace o) = []
  /\ BreakpointManager.breakpoints (BreakpointManager.this (out_state o))
     = [1; 2; 3; 4; 5; 6]%nat.
Proof.
  intros source o.
  split; [reflexivity|]. split; [reflexivity|].
  apply (X25_clearBreakpoints_unidentifiable
           (C := demo "00001000" "00002000") DisassembledFile.isDebugAsmFile
           source (demo_source_mem [1; 2; 3; 4; 5; 6]%nat) tt []); reflexivity.
Defined.

(** ** Bytes, hexadecimal strings and chunks *)

Section HexBytes.

Import Strings.

Lemma bytes_checked :
  forallb (fun k => byte_round_trip (Z.of_nat k - 128)) (seq 0 384) = true.
Proof. vm_compute. reflexivity. Qed.

Lemma byte_round_trips (z : Z) :
  -128 <= z <= 255 -> byte_round_trip z = true.
Proof.
  intros Hz. pose proof bytes_checked as H.
  rewrite forallb_forall in H.
  specialize (H (Z.to_nat (z + 128))).
  replace (Z.of_nat (Z.to_nat (z + 128)) - 128) with z in H by lia.
  apply H. apply in_seq. lia.
Qed.

Lemma bytesToHex_cons (b : number) (rest : list number) :
  bytesToHex (b :: rest) = bytesToHex [b] +:+ bytesToHex rest.
Proof.
  cbn [bytesToHex]. rewrite append_nil_r, !append_assoc. reflexivity.
Qed.

(** X26. [hexToBytes] reads back what [bytesToHex] wrote: every byte
    comes back, a negative one as the unsigned byte of the same bits;
    and [bytesToHex] writes two digits per byte. *)
Theorem X26_hexToBytes_bytesToHex (bytes : list number) :
  forallb is_byte bytes = true ->
  hexToBytes (bytesToHex bytes) = map unsigned bytes
  /\ String.length (bytesToHex bytes) = (2 * List.length bytes)%nat.
Proof.
  induction bytes as [|b rest IH]; [intros _; split; reflexivity|].
  cbn [forallb]. intros H. apply andb_prop in H as [Hb Hrest].
  destruct (IH Hrest) as [IH1 IH2].
  destruct b as [|z]; [discriminate|].
  assert (Hz : -128 <= z <= 255).
  { simpl in Hb. apply andb_prop in Hb as [H1 H2].
    apply Z.leb_le in H1, H2. lia. }
  pose proof (byte_round_trips z Hz) as Hrt.
  unfold byte_round_trip in Hrt. apply andb_prop in Hrt as [Hparse Hlen].
  apply bool_decide_eq_true in Hparse. apply Nat.eqb_eq in Hlen.
  rewrite bytesToHex_cons, length_append, Hlen, IH2.
  split; [|simpl; lia].
  destruct (bytesToHex [Num z]) as [|c1 [|c2 [|c3 s]]]; try discriminate.
  change (String c1 (String c2 "") +:+ bytesToHex rest)
    with (String c1 (String c2 (bytesToHex rest))).
  cbn [hexToBytes map unsigned] in *. rewrite IH1.
  injection Hparse as ->. reflexivity.
Qed.

Lemma chars_checked :
  forallb (fun k => char_round_trip (ascii_of_nat k)) (seq 0 256) = true.
Proof. vm_compute. reflexivity. Qed.

Lemma char_round_trips (c : ascii) : char_round_trip c = true.
Proof.
  pose proof chars_checked as H. rewrite forallb_forall in H.
  specialize (H (nat_of_ascii c)). rewrite ascii_nat_embedding in H.
  apply H. apply in_seq. pose proof (nat_ascii_bounded c). lia.
Qed.

Lemma asciiToHex_cons (c : ascii) (rest : string) :
  asciiToHex (String c rest) = asciiToHex (String c "") +:+ asciiToHex rest.
Proof. cbn [asciiToHex]. rewrite append_nil_r. reflexivity. Qed.

(** X27. [asciiToHex] writes two hexadecimal digits per code unit, and
    [hexToBytes] reads the code units back. *)
Theorem X27_hexToBytes_asciiToHex (asciiString : string) :
  hexToBytes (asciiToHex asciiString)
  = map charCode (list_ascii_of_string asciiString)
  /\ String.length (asciiToHex asciiString)
     = (2 * String.length asciiString)%nat.
Proof.
  induction asciiString as [|c rest [IH1 IH2]]; [split; reflexivity|].
  pose proof (char_round_trips c) as Hrt.
  unfold char_round_trip in Hrt. apply andb_prop in Hrt as [Hparse Hlen].
  apply bool_decide_eq_true in Hparse. apply Nat.eqb_eq in Hlen.
  rewrite asciiToHex_cons, length_append, Hlen, IH2.
  split; [|simpl; lia].
  destruct (asciiToHex (String c "")) as [|c1 [|c2 [|c3 s]]]; try discriminate.
  change (String c1 (String c2 "") +:+ asciiToHex rest)
    with (String c1 (String c2 (asciiToHex rest))).
  cbn [hexToBytes map list_ascii_of_string] in *. rewrite IH1.
  injection Hparse as ->. reflexivity.
Qed.

End HexBytes.

Section Chunk.

Import Strings.

Lemma join_app (l1 l2 : list string) : join (l1 ++ l2) = join l1 +:+ join l2.
Proof.
  induction l1 as [|x l1 IH]; [reflexivity|].
  simpl. rewrite IH, append_assoc. reflexivity.
Qed.

Lemma substring_from_length (i : nat) (s : string) :
  String.length (substring_from i s) = (String.length s - i)%nat.
Proof.
  revert s. induction i as [|i IH]; intros s; [simpl; lia|].
  destruct s as [|c s]; [reflexivity|]. simpl. apply IH.
Qed.

Lemma substring_from_add (i k : nat) (s : string) :
  substring_from (i + k) s = substring_from k (substring_from i s).
Proof.
  revert s. induction i as [|i IH]; intros s; [reflexivity|].
  destruct s as [|c s]; simpl; [destruct k; reflexivity|apply IH].
Qed.

Lemma substring_at (i k : nat) (s : string) :
  String.substring i k s = String.substring 0 k (substring_from i s).
Proof.
  revert s. induction i as [|i IH]; intros s; [reflexivity|].
  destruct s as [|c s]; simpl; [destruct k; reflexivity|apply IH].
Qed.

Lemma take_drop (k : nat) (s : string) :
  String.substring 0 k s +:+ substring_from k s = s.
Proof.
  revert s. induction k as [|k IH]; intros s.
  - destruct s; reflexivity.
  - destruct s as [|c s]; [reflexivity|]. simpl.
    change (String c (substring 0 k s) +:+ ?x)
      with (String c (substring 0 k s +:+ x)).
    rewrite IH. reflexivity.
Qed.

Lemma take_length (k : nat) (s : string) :
  (k <= String.length s)%nat -> String.length (String.substring 0 k s) = k.
Proof.
  revert s. induction k as [|k IH]; intros s Hk.
  - destruct s; reflexivity.
  - destruct s as [|c s]; simpl in *; [lia|]. rewrite IH; lia.
Qed.

Lemma substring2_at (str : string) (i k : nat) :
  (i + k <= String.length str)%nat ->
  substring2 str (Num (Z.of_nat i)) (Num (Z.of_nat k + Z.of_nat i))
  = String.substring 0 k (substring_from i str).
Proof.
  intros H. unfold substring2, clamp.
  replace (Z.to_nat (Z.of_nat k + Z.of_nat i)) with (i + k)%nat by lia.
  rewrite Nat2Z.id, !Nat.min_l, Nat.max_r by lia.
  replace (i + k - i)%nat with k by lia.
  apply substring_at.
Qed.

Lemma chunk_loop_spec (str : string) (k : nat) (fuel : nat) :
  (1 <= k)%nat ->
  forall (i : nat) (ret : list string),
  let len := String.length str in
  (i <= len)%nat -> (len - i <= fuel)%nat ->
  exists (mid : list string) (j : nat),
    chunk_loop fuel str (Num (Z.of_nat k))
      (Num (Z.of_nat len - Z.of_nat k - 1)) (Num (Z.of_nat i)) ret
    = Some (ret ++ mid, Num (Z.of_nat j))
    /\ (i <= j <= len)%nat
    /\ join mid +:+ substring_from j str = substring_from i str
    /\ Forall (fun c => String.length c = k) mid
    /\ (len - j <= k + 1)%nat
    /\ (i < j -> 2 <= len - j)%nat
    /\ (mid <> [] -> i < j)%nat.
Proof.
  intros Hk. induction fuel as [|fuel IH]; intros i ret len Hi Hfuel.
  - exists [], i. cbn [chunk_loop ltb].
    destruct (Z.ltb_spec (Z.of_nat i) (Z.of_nat len - Z.of_nat k - 1)); [lia|].
    rewrite app_nil_r. repeat split; try lia. constructor. congruence.
  - cbn [chunk_loop ltb].
    destruct (Z.ltb_spec (Z.of_nat i) (Z.of_nat len - Z.of_nat k - 1))
      as [Hlt|Hge].
    + cbn [add]. rewrite substring2_at by (fold len; lia).
      replace (Z.of_nat i + Z.of_nat k) with (Z.of_nat (i + k)) by lia.
      destruct (IH (i + k)%nat
                  (ret ++ [String.substring 0 k (substring_from i str)]))
        as (mid & j & Hloop & Hj & Hjoin & Hall & Hlast & Htwo & Hne);
        [lia|lia|].
      fold len in Hloop. rewrite Hloop, <- app_assoc.
      eexists (_ :: mid), j. split; [reflexivity|].
      split; [lia|]. split; [|split; [|split; [exact Hlast|split]]].
      * simpl. rewrite append_assoc, Hjoin, substring_from_add.
        apply take_drop.
      * constructor; [|exact Hall].
        apply take_length. rewrite substring_from_length. fold len. lia.
      * intros _. destruct (decide (i + k < j)%nat) as [Hn|Hn];
          [apply Htwo; exact Hn|].
        assert (j = (i + k)%nat) by lia. subst j. lia.
      * intros _. lia.
    + exists [], i. rewrite app_nil_r. repeat split; try lia.
      constructor. congruence.
Qed.

Lemma last_length {A : Type} (l1 : list A) (x : A) :
  List.length (l1 ++ [x]) = S (List.length l1).
Proof. rewrite length_app. simpl. lia. Qed.

(** X28. For a chunk size [n] of at least 1, [chunk] returns: the chunks
    joined are the string; every chunk but the last has exactly [n]
    code units; the last one has between 1 and [n + 1], and at least 2
    when it is not the only one, so it is never a single code unit after
    a full chunk. *)
Theorem X28_chunk (str : string) (n : Z) :
  1 <= n ->
  exists chunks,
    chunk str (Num n) = Some chunks
    /\ join chunks = str
    /\ (forall i c, chunks !! i = Some c -> (S i < List.length chunks)%nat ->
          Z.of_nat (String.length c) = n)
    /\ (forall c, last chunks = Some c ->
          1 <= Z.of_nat (String.length c) <= n + 1
          /\ ((2 <= List.length chunks)%nat ->
              2 <= Z.of_nat (String.length c))).
Proof.
  intros Hn. unfold chunk, chunk_with. cbv zeta. cbn [sub].
  destruct (chunk_loop_spec str (Z.to_nat n) (String.length str)
              ltac:(lia) 0%nat []) as (mid & j & Hloop & Hj & Hjoin & Hall
                                       & Hlast & Htwo & Hne); [lia|lia|].
  rewrite Z2Nat.id in Hloop by lia. change (Z.of_nat 0) with 0 in Hloop.
  rewrite Hloop. cbn [app gtb sub].
  assert (Hsub1 : substring1 str (Num (Z.of_nat j)) = substring_from j str).
  { unfold substring1, clamp. rewrite Nat2Z.id, Nat.min_l by lia.
    reflexivity. }
  rewrite Hsub1. simpl substring_from in Hjoin.
  destruct (Z.ltb_spec 0 (Z.of_nat (String.length str) - Z.of_nat j))
    as [Hrest|Hrest].
  - eexists. split; [reflexivity|].
    split; [rewrite join_app; simpl; rewrite append_nil_r; exact Hjoin|].
    split.
    + intros i c Hc Hi. rewrite last_length in Hi.
      rewrite lookup_app_l in Hc by lia.
      rewrite Forall_forall in Hall.
      rewrite (Hall c); [lia|]. eapply list_elem_of_lookup_2. exact Hc.
    + intros c Hc. rewrite last_snoc in Hc. injection Hc as <-.
      rewrite substring_from_length. split; [lia|].
      rewrite last_length. intros Hlen.
      assert (mid <> []) by (destruct mid; [simpl in Hlen; lia|discriminate]).
      specialize (Hne ltac:(assumption)). specialize (Htwo Hne). lia.
  - assert (j = String.length str) by lia. subst j.
    exists mid. split; [reflexivity|].
    assert (Hend : substring_from (String.length str) str = "").
    { pose proof (substring_from_length (String.length str) str) as Hl.
      destruct (substring_from (String.length str) str); [reflexivity|].
      simpl in Hl. lia. }
    rewrite Hend, append_nil_r in Hjoin.
    split; [exact Hjoin|]. split.
    + intros i c Hc Hi. rewrite Forall_forall in Hall.
      rewrite (Hall c); [lia|]. eapply list_elem_of_lookup_2. exact Hc.
    + intros c Hc.
      assert (Hin : c ∈ mid) by (apply last_Some_elem_of; exact Hc).
      rewrite Forall_forall in Hall. specialize (Hall c Hin).
      exfalso.
      assert (mid <> []) by (intros ->; discriminate).
      specialize (Hne ltac:(assumption)). specialize (Htwo Hne). lia.
Qed.

End Chunk.

(** ** Lines and 32-bit integers *)

Section SplitLines.

Import Strings.

Lemma every_snoc (P : ascii -> bool) (s : string) (c : ascii) :
  every P (s +:+ String c "") = every P s && P c.
Proof. rewrite every_app. simpl. rewrite andb_true_r. reflexivity. Qed.

Lemma concat_cons (sep a : string) (l : list string) :
  l <> [] -> String.concat sep (a :: l) = a +:+ sep +:+ String.concat sep l.
Proof. destruct l; [congruence|reflexivity]. Qed.

Lemma splitLines_from_spec (n : nat) :
  forall (s cur : string),
  (String.length s <= n)%nat ->
  every not_LF cur = true ->
  Forall (fun l => every not_LF l = true) (splitLines_from cur s)
  /\ List.length (splitLines_from cur s) = S (lineFeeds s)
  /\ (every not_CR s = true ->
      String.concat (String LF "") (splitLines_from cur s) = cur +:+ s).
Proof.
  induction n as [|n IH]; intros s cur Hlen Hcur.
  - destruct s; [|simpl in Hlen; lia]. simpl.
    split; [repeat constructor; exact Hcur|]. split; [reflexivity|].
    intros _. rewrite append_nil_r. reflexivity.
  - destruct s as [|c s']; simpl in Hlen.
    { simpl. split; [repeat constructor; exact Hcur|]. split; [reflexivity|].
      intros _. rewrite append_nil_r. reflexivity. }
    cbn [splitLines_from lineFeeds every].
    change "010"%char with LF.
    destruct (Ascii.eqb_spec c LF) as [->|Hc].
    + destruct (IH s' "" ltac:(lia) eq_refl) as (Hall & Hcount & Hjoin).
      split; [constructor; assumption|].
      split; [simpl; rewrite Hcount; reflexivity|].
      intros Hcr. apply andb_prop in Hcr as [_ Hcr].
      specialize (Hjoin Hcr).
      rewrite concat_cons, Hjoin; [reflexivity|].
      intros Hnil. rewrite Hnil in Hcount. discriminate.
    + destruct s' as [|c' s''].
      * simpl. split.
        { repeat constructor. rewrite every_snoc, Hcur. simpl.
          unfold not_LF. destruct (Ascii.eqb_spec c LF); [contradiction|].
          reflexivity. }
        split; [reflexivity|]. intros _. reflexivity.
      * change "013"%char with CR.
        destruct (Ascii.eqb c CR && Ascii.eqb c' LF) eqn:Hcrlf.
        -- apply andb_prop in Hcrlf as [H1 H2].
           apply Ascii.eqb_eq in H1, H2. subst c c'.
           destruct (IH s'' "" ltac:(simpl in *; lia) eq_refl)
             as (Hall & Hcount & Hjoin).
           split; [constructor; assumption|].
           split; [simpl; rewrite Hcount; reflexivity|].
           intros Hcr. exfalso. simpl in Hcr. discriminate.
        -- assert (Hcur' : every not_LF (cur +:+ String c "") = true).
           { rewrite every_snoc, Hcur. simpl. unfold not_LF.
             destruct (Ascii.eqb_spec c LF); [contradiction|]. reflexivity. }
           destruct (IH (String c' s'') (cur +:+ String c "") ltac:(lia) Hcur')
             as (Hall & Hcount & Hjoin).
           split; [exact Hall|].
           split; [rewrite Hcount; simpl;
                   destruct (Ascii.eqb_spec c LF); [contradiction|reflexivity]|].
           intros Hcr. apply andb_prop in Hcr as [_ Hcr].
           rewrite (Hjoin Hcr), append_assoc. reflexivity.
Qed.

(** X29. [splitLines] cuts at every line feed: no line holds one, there
    is one line more than there are line feeds, and for a text without
    carriage return the lines joined by line feeds are the text. *)
Theorem X29_splitLines (value : string) :
  Forall (fun l => every not_LF l = true) (splitLines value)
  /\ List.length (splitLines value) = S (lineFeeds value)
  /\ (every not_CR value = true ->
      String.concat (String LF "") (splitLines value) = value).
Proof.
  apply (splitLines_from_spec (String.length value) value ""); [lia|reflexivity].
Qed.

End SplitLines.

Section Int32.

Import Strings.

Lemma toInt32_range (z : Z) : - 2 ^ 31 <= toInt32 z < 2 ^ 31.
Proof.
  unfold toInt32. pose proof (Z.mod_pos_bound (z + 2 ^ 31) (2 ^ 32)). lia.
Qed.

Lemma toInt32_id (z : Z) : - 2 ^ 31 <= z < 2 ^ 31 -> toInt32 z = z.
Proof.
  intros H. unfold toInt32. rewrite Z.mod_small; lia.
Qed.

Lemma land_mask (x k : Z) :
  0 <= k ->
  Z.land x (Z.shiftl 255 k) = Z.shiftl ((x / 2 ^ k) mod 2 ^ 8) k.
Proof.
  intros Hk. apply Z.bits_inj'. intros n Hn.
  rewrite Z.land_spec.
  destruct (Z.lt_ge_cases n k) as [Hlt|Hge].
  - rewrite !Z.shiftl_spec_low by lia. apply andb_false_r.
  - rewrite !Z.shiftl_spec by lia.
    rewrite Z.testbit_mod_pow2 by lia.
    change 255 with (Z.ones 8).
    rewrite Z.testbit_ones_nonneg by lia.
    rewrite <- Z.shiftr_div_pow2, Z.shiftr_spec by lia.
    replace (n - k + k) with n by lia. apply andb_comm.
Qed.

Lemma byte_of (x k : Z) :
  0 <= k <= 16 ->
  Z.shiftr (toInt32 (toInt32 (Z.land x (Z.shiftl 255 k)))) k
  = (x / 2 ^ k) mod 256.
Proof.
  intros Hk. rewrite land_mask by lia.
  assert (Hb : 0 <= (x / 2 ^ k) mod 2 ^ 8 < 256)
    by (apply Z.mod_pos_bound; lia).
  assert (Hr : - 2 ^ 31 <= Z.shiftl ((x / 2 ^ k) mod 2 ^ 8) k < 2 ^ 31).
  { rewrite Z.shiftl_mul_pow2 by lia.
    assert (0 < 2 ^ k <= 2 ^ 16)
      by (split; [apply Z.pow_pos_nonneg; lia
                 |apply Z.pow_le_mono_r; lia]).
    change (2 ^ 16) with 65536 in *. change (2 ^ 31) with 2147483648. nia. }
  rewrite !(toInt32_id _ Hr).
  rewrite Z.shiftr_shiftl_l, Z.sub_diag, Z.shiftl_0_r by lia. reflexivity.
Qed.

Lemma top_byte (x : Z) :
  - 2 ^ 31 <= x < 2 ^ 31 ->
  Z.shiftr (toInt32 (toInt32 (Z.land x (-16777216)))) 24 = x / 2 ^ 24
  /\ -128 <= x / 2 ^ 24 <= 127.
Proof.
  intros Hx.
  assert (Hq : -128 <= x / 2 ^ 24 <= 127).
  { change (2 ^ 31) with (128 * 2 ^ 24) in Hx.
    split.
    - apply Z.div_le_lower_bound; lia.
    - assert (x / 2 ^ 24 < 128) by (apply Z.div_lt_upper_bound; lia). lia. }
  split; [|exact Hq].
  change (-16777216) with (Z.lnot (Z.ones 24)).
  rewrite <- Z.ldiff_land, Z.ldiff_ones_r by lia.
  rewrite (Z.shiftr_div_pow2 x 24) by lia.
  assert (Hr : - 2 ^ 31 <= Z.shiftl (x / 2 ^ 24) 24 < 2 ^ 31).
  { rewrite Z.shiftl_mul_pow2 by lia.
    change (2 ^ 31) with (128 * 2 ^ 24). nia. }
  rewrite !(toInt32_id _ Hr).
  rewrite Z.shiftr_shiftl_l, Z.sub_diag, Z.shiftl_0_r by lia. reflexivity.
Qed.

Lemma bytes_sum (x : Z) :
  x = x / 2 ^ 24 * 2 ^ 24 + (x / 2 ^ 16) mod 256 * 2 ^ 16
      + (x / 2 ^ 8) mod 256 * 2 ^ 8 + x mod 256.
Proof.
  pose proof (Z.div_mod x 256 ltac:(lia)) as H0.
  pose proof (Z.div_mod (x / 256) 256 ltac:(lia)) as H1.
  pose proof (Z.div_mod (x / 256 / 256) 256 ltac:(lia)) as H2.
  rewrite !Z.div_div in H1, H2 by lia.
  rewrite !Z.div_div in H2 by lia.
  change (256 * 256) with (2 ^ 16) in *.
  change (2 ^ 16 * 256) with (2 ^ 24) in *.
  change (2 ^ 8) with 256.
  change (2 ^ 16) with 65536 in *. change (2 ^ 24) with 16777216 in *.
  lia.
Qed.

(** X30. [int32ToBytes] cuts the 32-bit integer of its argument in four
    bytes, most significant first, that add up to it: the last three
    are unsigned, the first one is signed, so it is negative when bit 31
    is set, and [int32ToASCII] then begins with a dot whatever that byte
    holds. *)
Theorem X30_int32ToBytes (z : Z) :
  let x := toInt32 z in
  int32ToBytes (Num z)
  = [Num (x / 2 ^ 24); Num ((x / 2 ^ 16) mod 256);
     Num ((x / 2 ^ 8) mod 256); Num (x mod 256)]
  /\ -128 <= x / 2 ^ 24 <= 127
  /\ x = x / 2 ^ 24 * 2 ^ 24 + (x / 2 ^ 16) mod 256 * 2 ^ 16
         + (x / 2 ^ 8) mod 256 * 2 ^ 8 + x mod 256
  /\ (x < 0 -> exists rest, int32ToASCII (Num z) = "." +:+ rest).
Proof.
  intros x.
  pose proof (toInt32_range z) as Hx. fold x in Hx.
  destruct (top_byte x Hx) as [Htop Hrange].
  assert (Hbytes : int32ToBytes (Num z)
                   = [Num (x / 2 ^ 24); Num ((x / 2 ^ 16) mod 256);
                      Num ((x / 2 ^ 8) mod 256); Num (x mod 256)]).
  { unfold int32ToBytes, shr, band. cbn [int32_of]. fold x.
    change (toInt32 4278190080) with (-16777216).
    change (toInt32 16711680) with (Z.shiftl 255 16).
    change (toInt32 65280) with (Z.shiftl 255 8).
    change (toInt32 255) with (Z.ones 8).
    change (24 mod 32) with 24. change (16 mod 32) with 16.
    change (8 mod 32) with 8.
    rewrite Htop, !byte_of by lia.
    rewrite Z.land_ones by lia.
    rewrite toInt32_id; [reflexivity|].
    pose proof (Z.mod_pos_bound x (2 ^ 8) ltac:(lia)).
    change (2 ^ 8) with 256 in *. change (2 ^ 31) with 2147483648. lia. }
  split; [exact Hbytes|]. split; [exact Hrange|].
  split; [apply bytes_sum|].
  intros Hneg. unfold int32ToASCII. rewrite Hbytes.
  cbn [fold_left].
  assert (Hq : x / 2 ^ 24 < 0)
    by (apply Z.div_lt_upper_bound; lia).
  assert (Hdot : byteToASCII (Num (x / 2 ^ 24)) = ".").
  { unfold byteToASCII.
    destruct (Z.ltb_spec (x / 2 ^ 24) 32); [reflexivity|lia]. }
  rewrite Hdot. eexists. rewrite !append_assoc. reflexivity.
Qed.

End Int32.

(** X26 on four bytes, one of them negative. *)
Lemma X26_hexToBytes_bytesToHex_witness :
  let bytes := [Num 0; Num 255; Num (-1); Num 16] in
  Strings.hexToBytes (Strings.bytesToHex bytes)
  = [Num 0; Num 255; Num 255; Num 16]
  /\ String.length (Strings.bytesToHex bytes) = 8%nat.
Proof.
  intros bytes.
  apply (X26_hexToBytes_bytesToHex bytes). reflexivity.
Defined.

(** X28 on a string of five code units cut in chunks of two: the last
    chunk takes the odd code unit. *)
Lemma X28_chunk_witness :
  exists chunks,
    Strings.chunk "abcde" (Num 2) = Some chunks
    /\ join chunks = "abcde"
    /\ (forall i c, chunks !! i = Some c -> (S i < List.length chunks)%nat ->
          Z.of_nat (String.length c) = 2)
    /\ (forall c, last chunks = Some c ->
          1 <= Z.of_nat (String.length c) <= 2 + 1
          /\ ((2 <= List.length chunks)%nat ->
              2 <= Z.of_nat (String.length c))).
Proof. apply (X28_chunk "abcde" 2). lia. Defined.
